(** * The folder loop of the sync client (src/gui/folder.cpp)

  A shallow embedding of the parts of [OCC::Folder] that drive one sync
  root: construction, the watcher slot, termination, the start of a run,
  the preparation of the sync options, the end of a run, the completion
  of an item and the discovery of a big folder; then pausing, the etag
  poll, hydration, conflicts, the paths of the definition and the
  settings that the definition is saved to and loaded from.

  Conventions.
  - A [QString] is a [string]; [toUtf8] is the identity on it.
  - An [int] is a [Z] reduced by [wrap_int]; a [qint64] is a [Z]
    reinterpreted by [to_quint64] where the code compares it unsigned.
  - Objects the folder owns are fields of the record [Folder]; what a
    collaborator answers (the engine, the watcher, the file system, the
    virtual file system) is an input of the slot that asks.
  - Signals and calls that leave the folder are appended, in program
    order, to the field [events]. *)

From Stdlib Require Import ZArith Ascii String List Bool Lia.
From stdpp Require Import base tactics option list gmap strings.

#[local] Open Scope string_scope.
#[local] Open Scope Z_scope.

(** ** Qt value types *)

Abbreviation QString := string (only parsing).
Abbreviation QByteArray := string (only parsing).
Abbreviation QStringList := (list string) (only parsing).

(** [QString::size], as an integer of the code. *)
Definition QString_size (s : QString) : Z := Z.of_nat (String.length s).

(** [QString::left(n)]: the whole string when [n] is out of range. *)
Fixpoint left_nat (s : QString) (n : nat) : QString :=
  match n, s with
  | O, _ => ""
  | S _, EmptyString => ""
  | S n', String a s' => String a (left_nat s' n')
  end.

Definition left (s : QString) (n : Z) : QString :=
  if n <? 0 then s else left_nat s (Z.to_nat n).

(** [QString::mid(pos)]: the empty string when [pos] is past the end. *)
Fixpoint mid_nat (s : QString) (n : nat) : QString :=
  match n, s with
  | O, _ => s
  | S _, EmptyString => ""
  | S n', String _ s' => mid_nat s' n'
  end.

Definition mid (s : QString) (pos : Z) : QString :=
  if pos <? 0 then s else mid_nat s (Z.to_nat pos).

(** [QString::lastIndexOf(QChar)]: the index of the last occurrence,
    or -1. *)
Fixpoint lastIndexOf (s : QString) (c : ascii) : Z :=
  match s with
  | EmptyString => -1
  | String a s' =>
      let r := lastIndexOf s' c in
      if 0 <=? r then r + 1
      else if Ascii.eqb a c then 0 else -1
  end.

(** [QString::endsWith(QChar)]. *)
Fixpoint endsWith (s : QString) (c : ascii) : bool :=
  match s with
  | EmptyString => false
  | String a EmptyString => Ascii.eqb a c
  | String _ s' => endsWith s' c
  end.

(** [QStringList::contains]. *)
Definition contains (l : QStringList) (s : QString) : bool :=
  bool_decide (s ∈ l).

(** [int] arithmetic: the result of [++] on a 32-bit two's complement
    integer. *)
Definition INT_MAX : Z := 2 ^ 31 - 1.
Definition wrap_int (z : Z) : Z := (z + 2 ^ 31) mod 2 ^ 32 - 2 ^ 31.

(** The conversion [quint64(x)] of a [qint64]. *)
Definition to_quint64 (z : Z) : Z := z mod 2 ^ 64.

(** [QElapsedTimer]: invalid until started; [start] records the
    monotonic clock, in milliseconds. *)
Record QElapsedTimer := { startedAt : option Z }.

Definition invalidTimer : QElapsedTimer := {| startedAt := None |}.
Definition start (now : Z) : QElapsedTimer := {| startedAt := Some now |}.
Definition isValid (t : QElapsedTimer) : bool :=
  match startedAt t with Some _ => true | None => false end.

(** [elapsed]: the time since the start. Qt leaves [elapsed] of an
    invalid timer undefined; [unspecified] stands for whatever it
    returns. *)
Definition elapsed (unspecified now : Z) (t : QElapsedTimer) : Z :=
  match startedAt t with Some t0 => now - t0 | None => unspecified end.

(** [hasExpired(timeout)] compares both sides as [quint64], so that a
    negative timeout never expires. *)
Definition hasExpired (unspecified now : Z) (t : QElapsedTimer) (timeout : Z) : bool :=
  to_quint64 timeout <? to_quint64 (elapsed unspecified now t).

(** ** Values exchanged with libsync *)

(** [SyncResult::Status]. *)
Inductive Status :=
| Undefined | NotYetStarted | SyncPrepare | SyncRunning | SyncAbortRequested
| Success | Problem | Error | SetupError | Paused.

#[global] Instance Status_eq_dec : EqDecision Status.
Proof. solve_decision. Defined.

(** [SyncFileItem::Status]. *)
Inductive ItemStatus :=
| NoStatus | ItemSuccess | Warning | SoftError | NormalError | FatalError
| FileLocked | FileIgnored | Conflict | Restoration | Blacklisted.

#[global] Instance ItemStatus_eq_dec : EqDecision ItemStatus.
Proof. solve_decision. Defined.

(** The enumerators of [SyncInstruction]. The enumeration is declared in
    csync.h, which is not among the sources: the slot that tests an
    instruction against a mask takes the value of each enumerator as a
    parameter. *)
Inductive SyncInstruction :=
| CSYNC_INSTRUCTION_NONE | CSYNC_INSTRUCTION_NEW
| CSYNC_INSTRUCTION_UPDATE_METADATA | CSYNC_INSTRUCTION_RENAME
| CSYNC_INSTRUCTION_REMOVE | CSYNC_INSTRUCTION_CONFLICT
| CSYNC_INSTRUCTION_IGNORE | CSYNC_INSTRUCTION_ERROR
| CSYNC_INSTRUCTION_SYNC | CSYNC_INSTRUCTION_UPDATE_VFS_METADATA
| CSYNC_INSTRUCTION_TYPE_CHANGE.

#[global] Instance SyncInstruction_eq_dec : EqDecision SyncInstruction.
Proof. solve_decision. Defined.

Record SyncFileItem := {
  _file : QString;
  _instruction : SyncInstruction;
  _status : ItemStatus;
  _errorString : QString
}.

Inductive AnotherSyncNeeded := NoFollowUpSync | ImmediateFollowUp | DelayedFollowUp.

#[global] Instance AnotherSyncNeeded_eq_dec : EqDecision AnotherSyncNeeded.
Proof. solve_decision. Defined.

Inductive LocalDiscoveryStyle := FilesystemOnly | DatabaseAndFilesystem.

#[global] Instance LocalDiscoveryStyle_eq_dec : EqDecision LocalDiscoveryStyle.
Proof. solve_decision. Defined.

Inductive PinState := Inherited | AlwaysLocal | OnlineOnly | Unspecified.

Inductive ChangeReason := Other | UnLock.

#[global] Instance ChangeReason_eq_dec : EqDecision ChangeReason.
Proof. solve_decision. Defined.

(** The part of [SyncResult] the folder reads and writes. *)
Record SyncResult := {
  status : Status;
  errorStrings : QStringList;
  foundFilesNotSynced : bool
}.

Definition setStatus (st : Status) (r : SyncResult) : SyncResult :=
  {| status := st; errorStrings := errorStrings r;
     foundFilesNotSynced := foundFilesNotSynced r |}.

Definition appendErrorString (msg : QString) (r : SyncResult) : SyncResult :=
  {| status := status r; errorStrings := errorStrings r ++ [msg];
     foundFilesNotSynced := foundFilesNotSynced r |}.

Record SyncOptions := {
  _newBigFolderSizeLimit : Z;
  _confirmExternalStorage : bool;
  _moveFilesToTrash : bool;
  _parallelNetworkJobs : Z;
  _initialChunkSize : Z;
  _minChunkSize : Z;
  _maxChunkSize : Z;
  _targetChunkUploadDuration : Z
}.

(** What [ConfigFile] answers while a run is prepared. *)
Record ConfigFile := {
  newBigFolderSizeLimit : bool * Z;
  confirmExternalStorage : bool;
  moveToTrash : bool;
  chunkSize : Z;
  minChunkSize : Z;
  maxChunkSize : Z;
  targetChunkUploadDuration : Z;
  useDownloadLimit : Z;
  downloadLimit : Z;
  useUploadLimit : Z;
  uploadLimit : Z
}.

(** ** The journal *)

Inductive SelectiveSyncListType :=
| SelectiveSyncBlackList | SelectiveSyncWhiteList | SelectiveSyncUndecidedList.

#[global] Instance SelectiveSyncListType_eq_dec : EqDecision SelectiveSyncListType.
Proof. solve_decision. Defined.

(** Modelled from the spec: the categories of an error blacklist entry
    (syncjournaldb.h is not among the sources). The spec names them
    normal, soft_local and file_locked; [LocalSoftError] is the name
    folder.cpp uses for soft_local. *)
Inductive Category := Normal | LocalSoftError | FileLockedCategory.

#[global] Instance Category_eq_dec : EqDecision Category.
Proof. solve_decision. Defined.

(** Modelled from the spec: an error blacklist entry
    [(path, category, retry_count, ignore_until, error_string)], keyed by
    its path in the journal. *)
Record SyncJournalErrorBlacklistRecord := {
  _errorCategory : Category;
  _retryCount : Z;
  _ignoreDuration : Z;
  _blErrorString : QString
}.

Inductive ItemType := ItemTypeFile | ItemTypeDirectory | ItemTypeVirtualFile | ItemTypeSoftLink.

Record SyncJournalFileRecord := {
  _fileSize : Z;
  _modtime : Z;
  _type : ItemType
}.

(** Modelled from the spec: the journal ([SyncJournalDb], whose
    implementation is not among the sources), reduced to what folder.cpp
    asks of it: the three selective-sync lists, the error blacklist keyed
    by path and the file records keyed by path. [queryFails] is the
    failure that [getSelectiveSyncList] reports through its [ok]
    argument. *)
Record SyncJournalDb := {
  queryFails : bool;
  selectiveSyncList : SelectiveSyncListType -> QStringList;
  errorBlacklist : gmap string SyncJournalErrorBlacklistRecord;
  fileRecords : gmap string SyncJournalFileRecord
}.

(** Modelled from the spec: [SyncJournalDb::getSelectiveSyncList(type,
    &ok)], the list of that type and whether the query succeeded; the
    list is empty when it did not. *)
Definition getSelectiveSyncList (j : SyncJournalDb) (t : SelectiveSyncListType)
  : QStringList * bool :=
  if queryFails j then ([], false) else (selectiveSyncList j t, true).

(** Modelled from the spec: [SyncJournalDb::setSelectiveSyncList(type,
    list)] replaces the list of that type. *)
Definition setSelectiveSyncList (t : SelectiveSyncListType) (l : QStringList)
    (j : SyncJournalDb) : SyncJournalDb :=
  {| queryFails := queryFails j;
     selectiveSyncList := fun t' => if decide (t' = t) then l else selectiveSyncList j t';
     errorBlacklist := errorBlacklist j;
     fileRecords := fileRecords j |}.

Definition set_errorBlacklist (m : gmap string SyncJournalErrorBlacklistRecord)
    (j : SyncJournalDb) : SyncJournalDb :=
  {| queryFails := queryFails j;
     selectiveSyncList := selectiveSyncList j;
     errorBlacklist := m;
     fileRecords := fileRecords j |}.

(** Modelled from the spec: [SyncJournalDb::errorBlacklistEntry(path)],
    the entry of the path, or an invalid record ([None]) when the path
    has none. *)
Definition errorBlacklistEntry (j : SyncJournalDb) (p : QString)
  : option SyncJournalErrorBlacklistRecord :=
  errorBlacklist j !! p.

(** Modelled from the spec: [SyncJournalDb::wipeErrorBlacklistEntry(path)]
    removes the entry of the path. *)
Definition wipeErrorBlacklistEntry (p : QString) (j : SyncJournalDb) : SyncJournalDb :=
  set_errorBlacklist (delete p (errorBlacklist j)) j.

(** Modelled from the spec:
    [SyncJournalDb::wipeErrorBlacklistEntry(path, category)] removes the
    entry of the path when it is of that category. *)
Definition wipeErrorBlacklistEntryCategory (p : QString) (c : Category)
    (j : SyncJournalDb) : SyncJournalDb :=
  match errorBlacklist j !! p with
  | Some rec =>
      if decide (_errorCategory rec = c) then wipeErrorBlacklistEntry p j else j
  | None => j
  end.

(** Modelled from the spec:
    [SyncJournalDb::wipeErrorBlacklistCategory(category)] removes every
    entry of that category. *)
Definition wipeErrorBlacklistCategory (c : Category) (j : SyncJournalDb) : SyncJournalDb :=
  set_errorBlacklist (filter (fun kv => _errorCategory kv.2 <> c) (errorBlacklist j)) j.

(** Modelled from the spec: [SyncJournalDb::getFileRecord], the record
    of the path, or an invalid record ([None]) when the path has none. *)
Definition getFileRecord (j : SyncJournalDb) (p : QByteArray) : option SyncJournalFileRecord :=
  fileRecords j !! p.

(** ** Collaborators of the folder *)

Record FolderDefinition := {
  alias : QString;
  localPath : QString;
  paused : bool;
  ignoreHiddenFiles : bool
}.

Record AccountState := { isHttp2Supported : bool }.

Record FolderWatcher := { isReliable : bool }.

(** What the virtual file system answers. *)
Record Vfs := {
  isHydrating : bool;
  pinState : QString -> option PinState
}.

(** The state of the engine the folder reads ([isSyncRunning],
    [isAnotherSyncNeeded], [lastLocalDiscoveryStyle], [wasFileTouched])
    and the settings the folder passes to it. *)
Record SyncEngine := {
  isSyncRunning : bool;
  isAnotherSyncNeeded : AnotherSyncNeeded;
  lastLocalDiscoveryStyle : LocalDiscoveryStyle;
  wasFileTouched : QString -> bool;
  localDiscoveryOptions : LocalDiscoveryStyle * gset string;
  syncOptions : option SyncOptions;
  networkLimits : Z * Z;
  ignoreHiddenFilesSetting : bool
}.

Definition engine_set_localDiscoveryOptions (v : LocalDiscoveryStyle * gset string) (e : SyncEngine) : SyncEngine :=
  {| isSyncRunning := isSyncRunning e;
     isAnotherSyncNeeded := isAnotherSyncNeeded e;
     lastLocalDiscoveryStyle := lastLocalDiscoveryStyle e;
     wasFileTouched := wasFileTouched e;
     localDiscoveryOptions := v;
     syncOptions := syncOptions e;
     networkLimits := networkLimits e;
     ignoreHiddenFilesSetting := ignoreHiddenFilesSetting e |}.

Definition engine_set_syncOptions (v : option SyncOptions) (e : SyncEngine) : SyncEngine :=
  {| isSyncRunning := isSyncRunning e;
     isAnotherSyncNeeded := isAnotherSyncNeeded e;
     lastLocalDiscoveryStyle := lastLocalDiscoveryStyle e;
     wasFileTouched := wasFileTouched e;
     localDiscoveryOptions := localDiscoveryOptions e;
     syncOptions := v;
     networkLimits := networkLimits e;
     ignoreHiddenFilesSetting := ignoreHiddenFilesSetting e |}.

Definition engine_set_networkLimits (v : Z * Z) (e : SyncEngine) : SyncEngine :=
  {| isSyncRunning := isSyncRunning e;
     isAnotherSyncNeeded := isAnotherSyncNeeded e;
     lastLocalDiscoveryStyle := lastLocalDiscoveryStyle e;
     wasFileTouched := wasFileTouched e;
     localDiscoveryOptions := localDiscoveryOptions e;
     syncOptions := syncOptions e;
     networkLimits := v;
     ignoreHiddenFilesSetting := ignoreHiddenFilesSetting e |}.

Definition engine_set_ignoreHiddenFilesSetting (v : bool) (e : SyncEngine) : SyncEngine :=
  {| isSyncRunning := isSyncRunning e;
     isAnotherSyncNeeded := isAnotherSyncNeeded e;
     lastLocalDiscoveryStyle := lastLocalDiscoveryStyle e;
     wasFileTouched := wasFileTouched e;
     localDiscoveryOptions := localDiscoveryOptions e;
     syncOptions := syncOptions e;
     networkLimits := networkLimits e;
     ignoreHiddenFilesSetting := v |}.

(** Modelled from the spec: the touched-path set of the local discovery
    ([LocalDiscoveryTracker], whose implementation is not among the
    sources): a watcher notification appends its path to the set. *)
Record LocalDiscoveryTracker := {
  localDiscoveryPaths : gset string;
  previousLocalDiscoveryPaths : gset string
}.

(** Modelled from the spec: [LocalDiscoveryTracker::addTouchedPath]. *)
Definition addTouchedPath (p : QByteArray) (t : LocalDiscoveryTracker) : LocalDiscoveryTracker :=
  {| localDiscoveryPaths := {[ p ]} ∪ localDiscoveryPaths t;
     previousLocalDiscoveryPaths := previousLocalDiscoveryPaths t |}.

(** The texts shown to the user, up to their arguments. *)
Inductive Message :=
| MsgNewBigFolder (limitMB : Z) (newF : QString)
| MsgExternalStorageFolder
| MsgExcludedFolderCreated (p : QString)
| MsgExcludedFileCreated (p : QString).

(** Signals emitted by the folder and calls on objects it does not own. *)
Inductive Event :=
| EmitSyncStateChange
| EmitSyncStarted
| EmitNewBigFolderDiscovered (newFolder : QString)
| EmitWatchedFileChangedExternally (p : QString)
| EngineAbort
| EngineStartSyncQueued
| SlotSyncFinishedQueued (success : bool)
| SlotEmitFinishedDelayedIn200ms
| FileLogStart (p : QString)
| FileLogFinish
| FileLogItem (item : SyncFileItem)
| ShowSyncResultPopup
| DispatchSyncError (folderAlias msg : QString)
| DispatchItemCompleted (folderAlias : QString) (item : SyncFileItem)
| ShowOptionalTrayMessage (msg : Message).

(** ** The folder *)

Record Folder := {
  _definition : FolderDefinition;
  _accountState : AccountState;
  _canonicalLocalPath : QString;
  _syncResult : SyncResult;
  _consecutiveFailingSyncs : Z;
  _consecutiveFollowUpSyncs : Z;
  _journal : SyncJournalDb;
  _engine : SyncEngine;
  _vfs : Vfs;
  _localDiscoveryTracker : LocalDiscoveryTracker;
  _folderWatcher : option FolderWatcher;
  _timeSinceLastSyncStart : QElapsedTimer;
  _timeSinceLastSyncDone : QElapsedTimer;
  _timeSinceLastFullLocalDiscovery : QElapsedTimer;
  _lastSyncDuration : Z;
  _scheduleSelfTimerActive : bool;
  events : list Event
}.

Definition set_syncResult (v : SyncResult) (f : Folder) : Folder :=
  {| _definition := _definition f;
     _accountState := _accountState f;
     _canonicalLocalPath := _canonicalLocalPath f;
     _syncResult := v;
     _consecutiveFailingSyncs := _consecutiveFailingSyncs f;
     _consecutiveFollowUpSyncs := _consecutiveFollowUpSyncs f;
     _journal := _journal f;
     _engine := _engine f;
     _vfs := _vfs f;
     _localDiscoveryTracker := _localDiscoveryTracker f;
     _folderWatcher := _folderWatcher f;
     _timeSinceLastSyncStart := _timeSinceLastSyncStart f;
     _timeSinceLastSyncDone := _timeSinceLastSyncDone f;
     _timeSinceLastFullLocalDiscovery := _timeSinceLastFullLocalDiscovery f;
     _lastSyncDuration := _lastSyncDuration f;
     _scheduleSelfTimerActive := _scheduleSelfTimerActive f;
     events := events f |}.

Definition set_consecutiveFailingSyncs (v : Z) (f : Folder) : Folder :=
  {| _definition := _definition f;
     _accountState := _accountState f;
     _canonicalLocalPath := _canonicalLocalPath f;
     _syncResult := _syncResult f;
     _consecutiveFailingSyncs := v;
     _consecutiveFollowUpSyncs := _consecutiveFollowUpSyncs f;
     _journal := _journal f;
     _engine := _engine f;
     _vfs := _vfs f;
     _localDiscoveryTracker := _localDiscoveryTracker f;
     _folderWatcher := _folderWatcher f;
     _timeSinceLastSyncStart := _timeSinceLastSyncStart f;
     _timeSinceLastSyncDone := _timeSinceLastSyncDone f;
     _timeSinceLastFullLocalDiscovery := _timeSinceLastFullLocalDiscovery f;
     _lastSyncDuration := _lastSyncDuration f;
     _scheduleSelfTimerActive := _scheduleSelfTimerActive f;
     events := events f |}.

Definition set_consecutiveFollowUpSyncs (v : Z) (f : Folder) : Folder :=
  {| _definition := _definition f;
     _accountState := _accountState f;
     _canonicalLocalPath := _canonicalLocalPath f;
     _syncResult := _syncResult f;
     _consecutiveFailingSyncs := _consecutiveFailingSyncs f;
     _consecutiveFollowUpSyncs := v;
     _journal := _journal f;
     _engine := _engine f;
     _vfs := _vfs f;
     _localDiscoveryTracker := _localDiscoveryTracker f;
     _folderWatcher := _folderWatcher f;
     _timeSinceLastSyncStart := _timeSinceLastSyncStart f;
     _timeSinceLastSyncDone := _timeSinceLastSyncDone f;
     _timeSinceLastFullLocalDiscovery := _timeSinceLastFullLocalDiscovery f;
     _lastSyncDuration := _lastSyncDuration f;
     _scheduleSelfTimerActive := _scheduleSelfTimerActive f;
     events := events f |}.

Definition set_journal (v : SyncJournalDb) (f : Folder) : Folder :=
  {| _definition := _definition f;
     _accountState := _accountState f;
     _canonicalLocalPath := _canonicalLocalPath f;
     _syncResult := _syncResult f;
     _consecutiveFailingSyncs := _consecutiveFailingSyncs f;
     _consecutiveFollowUpSyncs := _consecutiveFollowUpSyncs f;
     _journal := v;
     _engine := _engine f;
     _vfs := _vfs f;
     _localDiscoveryTracker := _localDiscoveryTracker f;
     _folderWatcher := _folderWatcher f;
     _timeSinceLastSyncStart := _timeSinceLastSyncStart f;
     _timeSinceLastSyncDone := _timeSinceLastSyncDone f;
     _timeSinceLastFullLocalDiscovery := _timeSinceLastFullLocalDiscovery f;
     _lastSyncDuration := _lastSyncDuration f;
     _scheduleSelfTimerActive := _scheduleSelfTimerActive f;
     events := events f |}.

Definition set_engine (v : SyncEngine) (f : Folder) : Folder :=
  {| _definition := _definition f;
     _accountState := _accountState f;
     _canonicalLocalPath := _canonicalLocalPath f;
     _syncResult := _syncResult f;
     _consecutiveFailingSyncs := _consecutiveFailingSyncs f;
     _consecutiveFollowUpSyncs := _consecutiveFollowUpSyncs f;
     _journal := _journal f;
     _engine := v;
     _vfs := _vfs f;
     _localDiscoveryTracker := _localDiscoveryTracker f;
     _folderWatcher := _folderWatcher f;
     _timeSinceLastSyncStart := _timeSinceLastSyncStart f;
     _timeSinceLastSyncDone := _timeSinceLastSyncDone f;
     _timeSinceLastFullLocalDiscovery := _timeSinceLastFullLocalDiscovery f;
     _lastSyncDuration := _lastSyncDuration f;
     _scheduleSelfTimerActive := _scheduleSelfTimerActive f;
     events := events f |}.

Definition set_localDiscoveryTracker (v : LocalDiscoveryTracker) (f : Folder) : Folder :=
  {| _definition := _definition f;
     _accountState := _accountState f;
     _canonicalLocalPath := _canonicalLocalPath f;
     _syncResult := _syncResult f;
     _consecutiveFailingSyncs := _consecutiveFailingSyncs f;
     _consecutiveFollowUpSyncs := _consecutiveFollowUpSyncs f;
     _journal := _journal f;
     _engine := _engine f;
     _vfs := _vfs f;
     _localDiscoveryTracker := v;
     _folderWatcher := _folderWatcher f;
     _timeSinceLastSyncStart := _timeSinceLastSyncStart f;
     _timeSinceLastSyncDone := _timeSinceLastSyncDone f;
     _timeSinceLastFullLocalDiscovery := _timeSinceLastFullLocalDiscovery f;
     _lastSyncDuration := _lastSyncDuration f;
     _scheduleSelfTimerActive := _scheduleSelfTimerActive f;
     events := events f |}.

Definition set_timeSinceLastSyncStart (v : QElapsedTimer) (f : Folder) : Folder :=
  {| _definition := _definition f;
     _accountState := _accountState f;
     _canonicalLocalPath := _canonicalLocalPath f;
     _syncResult := _syncResult f;
     _consecutiveFailingSyncs := _consecutiveFailingSyncs f;
     _consecutiveFollowUpSyncs := _consecutiveFollowUpSyncs f;
     _journal := _journal f;
     _engine := _engine f;
     _vfs := _vfs f;
     _localDiscoveryTracker := _localDiscoveryTracker f;
     _folderWatcher := _folderWatcher f;
     _timeSinceLastSyncStart := v;
     _timeSinceLastSyncDone := _timeSinceLastSyncDone f;
     _timeSinceLastFullLocalDiscovery := _timeSinceLastFullLocalDiscovery f;
     _lastSyncDuration := _lastSyncDuration f;
     _scheduleSelfTimerActive := _scheduleSelfTimerActive f;
     events := events f |}.

Definition set_timeSinceLastSyncDone (v : QElapsedTimer) (f : Folder) : Folder :=
  {| _definition := _definition f;
     _accountState := _accountState f;
     _canonicalLocalPath := _canonicalLocalPath f;
     _syncResult := _syncResult f;
     _consecutiveFailingSyncs := _consecutiveFailingSyncs f;
     _consecutiveFollowUpSyncs := _consecutiveFollowUpSyncs f;
     _journal := _journal f;
     _engine := _engine f;
     _vfs := _vfs f;
     _localDiscoveryTracker := _localDiscoveryTracker f;
     _folderWatcher := _folderWatcher f;
     _timeSinceLastSyncStart := _timeSinceLastSyncStart f;
     _timeSinceLastSyncDone := v;
     _timeSinceLastFullLocalDiscovery := _timeSinceLastFullLocalDiscovery f;
     _lastSyncDuration := _lastSyncDuration f;
     _scheduleSelfTimerActive := _scheduleSelfTimerActive f;
     events := events f |}.

Definition set_timeSinceLastFullLocalDiscovery (v : QElapsedTimer) (f : Folder) : Folder :=
  {| _definition := _definition f;
     _accountState := _accountState f;
     _canonicalLocalPath := _canonicalLocalPath f;
     _syncResult := _syncResult f;
     _consecutiveFailingSyncs := _consecutiveFailingSyncs f;
     _consecutiveFollowUpSyncs := _consecutiveFollowUpSyncs f;
     _journal := _journal f;
     _engine := _engine f;
     _vfs := _vfs f;
     _localDiscoveryTracker := _localDiscoveryTracker f;
     _folderWatcher := _folderWatcher f;
     _timeSinceLastSyncStart := _timeSinceLastSyncStart f;
     _timeSinceLastSyncDone := _timeSinceLastSyncDone f;
     _timeSinceLastFullLocalDiscovery := v;
     _lastSyncDuration := _lastSyncDuration f;
     _scheduleSelfTimerActive := _scheduleSelfTimerActive f;
     events := events f |}.

Definition set_lastSyncDuration (v : Z) (f : Folder) : Folder :=
  {| _definition := _definition f;
     _accountState := _accountState f;
     _canonicalLocalPath := _canonicalLocalPath f;
     _syncResult := _syncResult f;
     _consecutiveFailingSyncs := _consecutiveFailingSyncs f;
     _consecutiveFollowUpSyncs := _consecutiveFollowUpSyncs f;
     _journal := _journal f;
     _engine := _engine f;
     _vfs := _vfs f;
     _localDiscoveryTracker := _localDiscoveryTracker f;
     _folderWatcher := _folderWatcher f;
     _timeSinceLastSyncStart := _timeSinceLastSyncStart f;
     _timeSinceLastSyncDone := _timeSinceLastSyncDone f;
     _timeSinceLastFullLocalDiscovery := _timeSinceLastFullLocalDiscovery f;
     _lastSyncDuration := v;
     _scheduleSelfTimerActive := _scheduleSelfTimerActive f;
     events := events f |}.

Definition set_scheduleSelfTimerActive (v : bool) (f : Folder) : Folder :=
  {| _definition := _definition f;
     _accountState := _accountState f;
     _canonicalLocalPath := _canonicalLocalPath f;
     _syncResult := _syncResult f;
     _consecutiveFailingSyncs := _consecutiveFailingSyncs f;
     _consecutiveFollowUpSyncs := _consecutiveFollowUpSyncs f;
     _journal := _journal f;
     _engine := _engine f;
     _vfs := _vfs f;
     _localDiscoveryTracker := _localDiscoveryTracker f;
     _folderWatcher := _folderWatcher f;
     _timeSinceLastSyncStart := _timeSinceLastSyncStart f;
     _timeSinceLastSyncDone := _timeSinceLastSyncDone f;
     _timeSinceLastFullLocalDiscovery := _timeSinceLastFullLocalDiscovery f;
     _lastSyncDuration := _lastSyncDuration f;
     _scheduleSelfTimerActive := v;
     events := events f |}.

Definition set_events (v : list Event) (f : Folder) : Folder :=
  {| _definition := _definition f;
     _accountState := _accountState f;
     _canonicalLocalPath := _canonicalLocalPath f;
     _syncResult := _syncResult f;
     _consecutiveFailingSyncs := _consecutiveFailingSyncs f;
     _consecutiveFollowUpSyncs := _consecutiveFollowUpSyncs f;
     _journal := _journal f;
     _engine := _engine f;
     _vfs := _vfs f;
     _localDiscoveryTracker := _localDiscoveryTracker f;
     _folderWatcher := _folderWatcher f;
     _timeSinceLastSyncStart := _timeSinceLastSyncStart f;
     _timeSinceLastSyncDone := _timeSinceLastSyncDone f;
     _timeSinceLastFullLocalDiscovery := _timeSinceLastFullLocalDiscovery f;
     _lastSyncDuration := _lastSyncDuration f;
     _scheduleSelfTimerActive := _scheduleSelfTimerActive f;
     events := v |}.

Definition emit (ev : Event) (f : Folder) : Folder :=
  set_events (events f ++ [ev]) f.

(** [Folder::path()]. *)
Definition path (f : Folder) : QString := _canonicalLocalPath f.

(** [Folder::setSyncState]. *)
Definition setSyncState (st : Status) (f : Folder) : Folder :=
  set_syncResult (setStatus st (_syncResult f)) f.

(** Modelled from the spec: [hasSetupError()] (folder.h is not among the
    sources), the folder is in the state setup_error. *)
Definition hasSetupError (f : Folder) : bool :=
  bool_decide (status (_syncResult f) = SetupError).

(** [Folder::isSyncRunning()]. *)
Definition Folder_isSyncRunning (f : Folder) : bool :=
  negb (hasSetupError f)
  && (isSyncRunning (_engine f) || isHydrating (_vfs f)).

(** [Folder::scheduleThisFolderSoon]: the single-shot timer, once it
    fires, schedules the folder with the folder manager. *)
Definition scheduleThisFolderSoon (f : Folder) : Folder :=
  if negb (_scheduleSelfTimerActive f) then set_scheduleSelfTimerActive true f
  else f.

(** [Folder::slotTerminateSync]. *)
Definition slotTerminateSync (f : Folder) : Folder :=
  if isSyncRunning (_engine f) then
    let f := emit EngineAbort f in
    setSyncState SyncAbortRequested f
  else f.

(** [Folder::slotSyncError]. *)
Definition slotSyncError (message : QString) (f : Folder) : Folder :=
  let f := set_syncResult (appendErrorString message (_syncResult f)) f in
  emit (DispatchSyncError (alias (_definition f)) message) f.

(** [Folder::slotSyncStarted]. *)
Definition slotSyncStarted (f : Folder) : Folder :=
  emit EmitSyncStateChange (setSyncState SyncRunning f).

(** The result of a [long long] product. *)
Definition wrap_int64 (z : Z) : Z := (z + 2 ^ 63) mod 2 ^ 64 - 2 ^ 63.

(** [Folder::setDirtyNetworkLimits]. *)
Definition setDirtyNetworkLimits (cfg : ConfigFile) (f : Folder) : Folder :=
  let downloadLimit :=
    if 1 <=? useDownloadLimit cfg then wrap_int (downloadLimit cfg * 1000)
    else if useDownloadLimit cfg =? 0 then 0 else -75 in
  let uploadLimit :=
    if 1 <=? useUploadLimit cfg then wrap_int (uploadLimit cfg * 1000)
    else if useUploadLimit cfg =? 0 then 0 else -75 in
  set_engine (engine_set_networkLimits (uploadLimit, downloadLimit) (_engine f)) f.

(** The body of the loop of [slotWatchedPathChanged] over the parents of
    a path: the entry of the parent [p] is wiped when it is a soft
    error. *)
Definition wipeParent (p : QString) (j : SyncJournalDb) : SyncJournalDb :=
  match errorBlacklistEntry j p with
  | Some rec =>
      if decide (_errorCategory rec = LocalSoftError)
      then wipeErrorBlacklistEntry p j else j
  | None => j
  end.

(** The loop itself: [p] is cut at its last slash until it has none.
    Each turn shortens [p], so that [n] turns suffice when [p] has at
    most [n] characters (see [wipeParents_step]). *)
Fixpoint wipeParents_fuel (n : nat) (p : QString) (j : SyncJournalDb) : SyncJournalDb :=
  match n with
  | O => j
  | S n' =>
      let index := lastIndexOf p "/" in
      if negb (index =? -1) then
        let p := left p index in
        wipeParents_fuel n' p (wipeParent p j)
      else j
  end.

Definition wipeParents (p : QString) (j : SyncJournalDb) : SyncJournalDb :=
  wipeParents_fuel (String.length p) p j.

(** Modelled from the spec: [isVirtualFile()] and [isFile()] of a journal
    record (syncjournalfilerecord.h is not among the sources), by the
    kind of the record. *)
Definition isVirtualFile (r : SyncJournalFileRecord) : bool :=
  match _type r with ItemTypeVirtualFile => true | _ => false end.

Definition isFile (r : SyncJournalFileRecord) : bool :=
  match _type r with ItemTypeFile => true | _ => false end.

(** [Folder::warnOnNewExcludedItem]. [fileInfo p] is [Some isDir] when
    [p] exists on disk. *)
Definition warnOnNewExcludedItem (fileInfo : QString -> option bool)
    (record : option SyncJournalFileRecord) (p : QString) (f : Folder) : Folder :=
  match record with
  | Some _ => f
  | None =>
      match fileInfo (_canonicalLocalPath f ++ p)%string with
      | None => f
      | Some isDir =>
          let '(blacklist, ok) := getSelectiveSyncList (_journal f) SelectiveSyncBlackList in
          if negb ok then f
          else if negb (contains blacklist (p ++ "/")%string) then f
          else
            let message :=
              if isDir then MsgExcludedFolderCreated (_canonicalLocalPath f ++ p)%string
              else MsgExcludedFileCreated (_canonicalLocalPath f ++ p)%string in
            emit (ShowOptionalTrayMessage message) f
      end
  end.

(** The value of the local [spurious] of [slotWatchedPathChanged]: the
    journal has a record of the file, its size and modification time did
    not change, and no pin state asks for a hydration or a dehydration. *)
Definition spuriousNotification (fileChanged : QString -> Z -> Z -> bool) (vfs : Vfs)
    (record : option SyncJournalFileRecord) (changedPath relativePath : QString) : bool :=
  match record with
  | Some r =>
      if negb (fileChanged changedPath (_fileSize r) (_modtime r)) then
        match pinState vfs relativePath with
        | Some AlwaysLocal => negb (isVirtualFile r)
        | Some OnlineOnly => negb (isFile r)
        | _ => true
        end
      else false
  | None => false
  end.

(** The local [newFolder] of [slotNewBigFolderDiscovered]: the path of
    the big folder, with a slash added when it does not end with one. *)
Definition withTrailingSlash (newF : QString) : QString :=
  if negb (endsWith newF "/") then (newF ++ "/")%string else newF.

(** [Folder::slotNewBigFolderDiscovered]. *)
Definition slotNewBigFolderDiscovered (cfg : ConfigFile) (newF : QString)
    (isExternal : bool) (f : Folder) : Folder :=
  let newFolder := withTrailingSlash newF in
  let journal := _journal f in
  let '(blacklist, ok1) := getSelectiveSyncList journal SelectiveSyncBlackList in
  let '(whitelist, ok2) := getSelectiveSyncList journal SelectiveSyncWhiteList in
  let journal :=
    if ok1 && ok2 && negb (contains blacklist newFolder)
       && negb (contains whitelist newFolder)
    then setSelectiveSyncList SelectiveSyncBlackList (blacklist ++ [newFolder]) journal
    else journal in
  let f := set_journal journal f in
  let '(undecidedList, ok1) := getSelectiveSyncList journal SelectiveSyncUndecidedList in
  if ok1 then
    let f :=
      if negb (contains undecidedList newFolder) then
        let f := set_journal
                   (setSelectiveSyncList SelectiveSyncUndecidedList
                      (undecidedList ++ [newFolder]) (_journal f)) f in
        emit (EmitNewBigFolderDiscovered newFolder) f
      else f in
    let message :=
      if negb isExternal then MsgNewBigFolder (snd (newBigFolderSizeLimit cfg)) newF
      else MsgExternalStorageFolder in
    emit (ShowOptionalTrayMessage message) f
  else f.

Section Slots.

(** Functions of libsync that folder.cpp calls and whose code is not
    among the sources. *)

(** The value of each enumerator of [SyncInstruction] (csync.h). *)
Variable instructionValue : SyncInstruction -> Z.

(** [SyncResult::processCompletedItem]. *)
Variable processCompletedItem : SyncFileItem -> SyncResult -> SyncResult.

(** [FileSystem::isChildPathOf(child, parent)]. *)
Variable isChildPathOf : QString -> QString -> bool.

(** [SyncOptions::fillFromEnvironmentVariables] and
    [SyncOptions::verifyChunkSizes]. *)
Variable fillFromEnvironmentVariables : SyncOptions -> SyncOptions.
Variable verifyChunkSizes : SyncOptions -> SyncOptions.

(** [LocalDiscoveryTracker::startSyncFullDiscovery] and
    [LocalDiscoveryTracker::startSyncPartialDiscovery]. *)
Variable startSyncFullDiscovery : LocalDiscoveryTracker -> LocalDiscoveryTracker.
Variable startSyncPartialDiscovery : LocalDiscoveryTracker -> LocalDiscoveryTracker.

(** Whether the build defines [Q_OS_MAC]. *)
Variable Q_OS_MAC : bool.

(** The block of [Folder::slotWatchedPathChanged] for an unlock: the
    soft error of the path is wiped, then those of its parents. *)
Definition wipeSoftErrorsOnUnlock (relativePath : QString) (f : Folder) : Folder :=
  let j := wipeErrorBlacklistEntryCategory relativePath LocalSoftError (_journal f) in
  set_journal (wipeParents relativePath j) f.

(** "Add to list of locally modified paths". *)
Definition touchPath (relativePathBytes : QByteArray) (f : Folder) : Folder :=
  set_localDiscoveryTracker
    (addTouchedPath relativePathBytes (_localDiscoveryTracker f)) f.

(** The end of [Folder::slotWatchedPathChanged], reached by a
    notification that is neither caused by the engine nor spurious. *)
Definition notifyAndSchedule (fileInfo : QString -> option bool)
    (record : option SyncJournalFileRecord)
    (changedPath relativePath : QString) (f : Folder) : Folder :=
  let f := warnOnNewExcludedItem fileInfo record relativePath f in
  let f := emit (EmitWatchedFileChangedExternally changedPath) f in
  scheduleThisFolderSoon f.

(** [Folder::slotWatchedPathChanged]. [fileChanged] is
    [FileSystem::fileChanged] and [fileInfo] the state of the disk when
    the notification is handled. *)
Definition slotWatchedPathChanged (fileChanged : QString -> Z -> Z -> bool)
    (fileInfo : QString -> option bool)
    (changedPath : QString) (reason : ChangeReason) (f : Folder) : Folder :=
  if negb (isChildPathOf changedPath (path f)) then f
  else
    let relativePath := mid changedPath (QString_size (path f)) in
    let f :=
      if decide (reason = UnLock) then wipeSoftErrorsOnUnlock relativePath f else f in
    let relativePathBytes : QByteArray := relativePath in
    let f := touchPath relativePathBytes f in
    if negb Q_OS_MAC && wasFileTouched (_engine f) changedPath then f
    else
      let record := getFileRecord (_journal f) relativePathBytes in
      if bool_decide (reason <> UnLock)
         && spuriousNotification fileChanged (_vfs f) record changedPath relativePath
      then f
      else notifyAndSchedule fileInfo record changedPath relativePath f.

(** [Folder::setSyncOptions]. The field [_vfs] of the options, a pointer
    to the vfs of the folder, is left out. *)
Definition setSyncOptions (cfg : ConfigFile) (f : Folder) : Folder :=
  let newFolderLimit := newBigFolderSizeLimit cfg in
  let opt :=
    {| _newBigFolderSizeLimit :=
         if fst newFolderLimit
         then wrap_int64 (wrap_int64 (snd newFolderLimit * 1000) * 1000) else -1;
       _confirmExternalStorage := confirmExternalStorage cfg;
       _moveFilesToTrash := moveToTrash cfg;
       _parallelNetworkJobs := if isHttp2Supported (_accountState f) then 20 else 6;
       _initialChunkSize := chunkSize cfg;
       _minChunkSize := minChunkSize cfg;
       _maxChunkSize := maxChunkSize cfg;
       _targetChunkUploadDuration := targetChunkUploadDuration cfg |} in
  let opt := fillFromEnvironmentVariables opt in
  let opt := verifyChunkSizes opt in
  set_engine (engine_set_syncOptions (Some opt) (_engine f)) f.

(** The choice of the local discovery in [Folder::startSync].
    [fullLocalDiscoveryInterval] is the count, in milliseconds, of the
    static of that name and [now] the monotonic clock. *)
Definition chooseLocalDiscovery (fullLocalDiscoveryInterval : Z) (unspecified now : Z)
    (f : Folder) : Folder :=
  let hasDoneFullLocalDiscovery := isValid (_timeSinceLastFullLocalDiscovery f) in
  let periodicFullLocalDiscoveryNow :=
    (0 <=? fullLocalDiscoveryInterval)
    && hasExpired unspecified now (_timeSinceLastFullLocalDiscovery f)
         fullLocalDiscoveryInterval in
  let watcherIsReliable :=
    match _folderWatcher f with Some w => isReliable w | None => false end in
  if watcherIsReliable && hasDoneFullLocalDiscovery
     && negb periodicFullLocalDiscoveryNow
  then
    let paths := localDiscoveryPaths (_localDiscoveryTracker f) in
    let e := engine_set_localDiscoveryOptions (DatabaseAndFilesystem, paths) (_engine f) in
    let t := startSyncPartialDiscovery (_localDiscoveryTracker f) in
    set_localDiscoveryTracker t (set_engine e f)
  else
    let e := engine_set_localDiscoveryOptions (FilesystemOnly, ∅) (_engine f) in
    let t := startSyncFullDiscovery (_localDiscoveryTracker f) in
    set_localDiscoveryTracker t (set_engine e f).

(** [_engine->setIgnoreHiddenFiles(_definition.ignoreHiddenFiles)]. *)
Definition passIgnoreHiddenFiles (f : Folder) : Folder :=
  set_engine
    (engine_set_ignoreHiddenFilesSetting (ignoreHiddenFiles (_definition f)) (_engine f)) f.

(** [_fileLog->start(path())]. *)
Definition startFileLog (f : Folder) : Folder := emit (FileLogStart (path f)) f.

(** [Folder::startSync]. [reloadExcludesOk] is the answer of
    [reloadExcludes()]. The two [Q_ASSERT]s, compiled out of a release
    build, and the log lines are left out. *)
Definition startSync (cfg : ConfigFile) (fullLocalDiscoveryInterval : Z)
    (unspecified now : Z) (reloadExcludesOk : bool) (f : Folder) : Folder :=
  if Folder_isSyncRunning f then f
  else
    let f := set_timeSinceLastSyncStart (start now) f in
    let f := setSyncState SyncPrepare f in
    let f := emit EmitSyncStateChange f in
    let f := startFileLog f in
    if negb reloadExcludesOk then
      let f := slotSyncError "Could not read system exclude file" f in
      emit (SlotSyncFinishedQueued false) f
    else
      let f := setDirtyNetworkLimits cfg f in
      let f := setSyncOptions cfg f in
      let f := chooseLocalDiscovery fullLocalDiscoveryInterval unspecified now f in
      let f := passIgnoreHiddenFiles f in
      let f := emit EngineStartSyncQueued f in
      emit EmitSyncStarted f.

(** The blocks of [Folder::slotSyncFinished], in the order of the
    source. The first sets the status of the run. *)
Definition setFinishedStatus (f : Folder) : Folder :=
  let syncError := negb (bool_decide (errorStrings (_syncResult f) = [])) in
  if syncError then setSyncState Error f
  else if foundFilesNotSynced (_syncResult f) then setSyncState Problem f
  else if paused (_definition f) then setSyncState Paused f
  else setSyncState Success f.

(** "Count the number of syncs that have failed in a row." *)
Definition countFailingSyncs (f : Folder) : Folder :=
  if bool_decide (status (_syncResult f) = Success)
     || bool_decide (status (_syncResult f) = Problem)
  then set_consecutiveFailingSyncs 0 f
  else set_consecutiveFailingSyncs (wrap_int (_consecutiveFailingSyncs f + 1)) f.

(** "Clear the white list as all the folders that should be on that list
    are sync-ed." *)
Definition clearWhiteList (success : bool) (f : Folder) : Folder :=
  if bool_decide (status (_syncResult f) = Success) && success
  then set_journal (setSelectiveSyncList SelectiveSyncWhiteList [] (_journal f)) f
  else f.

(** The restart of the timer of the last full local discovery. *)
Definition noteFullLocalDiscovery (now : Z) (success : bool) (f : Folder) : Folder :=
  if (bool_decide (status (_syncResult f) = Success)
      || bool_decide (status (_syncResult f) = Problem))
     && success
  then
    if decide (lastLocalDiscoveryStyle (_engine f) = FilesystemOnly)
    then set_timeSinceLastFullLocalDiscovery (start now) f else f
  else f.

(** "Increment the follow-up sync counter if necessary." *)
Definition countFollowUpSyncs (anotherSyncNeeded : AnotherSyncNeeded) (f : Folder) : Folder :=
  if decide (anotherSyncNeeded = ImmediateFollowUp)
  then set_consecutiveFollowUpSyncs (wrap_int (_consecutiveFollowUpSyncs f + 1)) f
  else set_consecutiveFollowUpSyncs 0 f.

(** "Maybe force a follow-up sync to take place, but only a couple of
    times." *)
Definition maybeFollowUp (anotherSyncNeeded : AnotherSyncNeeded) (f : Folder) : Folder :=
  if bool_decide (anotherSyncNeeded = ImmediateFollowUp)
     && (_consecutiveFollowUpSyncs f <=? 3)
  then scheduleThisFolderSoon f
  else f.

(** The update of the duration of the last run. *)
Definition noteSyncDuration (unspecified now : Z) (f : Folder) : Folder :=
  set_lastSyncDuration (elapsed unspecified now (_timeSinceLastSyncStart f)) f.

(** [Folder::slotSyncFinished]. *)
Definition slotSyncFinished (unspecified now : Z) (success : bool) (f : Folder) : Folder :=
  let f := emit FileLogFinish f in
  let f := emit ShowSyncResultPopup f in
  let anotherSyncNeeded := isAnotherSyncNeeded (_engine f) in
  let f := setFinishedStatus f in
  let f := countFailingSyncs f in
  let f := clearWhiteList success f in
  let f := noteFullLocalDiscovery now success f in
  let f := emit EmitSyncStateChange f in
  let f := emit SlotEmitFinishedDelayedIn200ms f in
  let f := noteSyncDuration unspecified now f in
  let f := set_timeSinceLastSyncDone (start now) f in
  let f := countFollowUpSyncs anotherSyncNeeded f in
  maybeFollowUp anotherSyncNeeded f.

(** [Folder::slotItemCompleted]. *)
Definition slotItemCompleted (item : SyncFileItem) (f : Folder) : Folder :=
  if bool_decide (_status item = ItemSuccess)
     && negb (Z.land (instructionValue (_instruction item))
                (Z.lor (instructionValue CSYNC_INSTRUCTION_NONE)
                   (instructionValue CSYNC_INSTRUCTION_UPDATE_METADATA)) =? 0)
  then f
  else
    let f := set_syncResult (processCompletedItem item (_syncResult f)) f in
    let f := emit (FileLogItem item) f in
    emit (DispatchItemCompleted (alias (_definition f)) item) f.

End Slots.

(** ** Construction *)

(** What [QFileInfo] and [FileSystem::fileExists] answer for the local
    path of the definition. *)
Record QFileInfo := {
  canonicalFilePath : QString;
  fileExists : bool;
  isDir : bool;
  isReadable : bool;
  isWritable : bool
}.

(** [QString::isEmpty]. *)
Definition isEmpty (s : QString) : bool :=
  match s with EmptyString => true | _ => false end.

(** [Folder::checkLocalPath]: the canonical path it stores, the sync
    result it leaves and its answer. [journalOpens] is the answer of
    [_journal.open()]. *)
Definition checkLocalPath (fi : QFileInfo) (journalOpens : bool)
    (definition : FolderDefinition) (r : SyncResult) : QString * SyncResult * bool :=
  let canonicalLocalPath :=
    if isEmpty (canonicalFilePath fi) then localPath definition
    else if negb (endsWith (canonicalFilePath fi) "/")
         then (canonicalFilePath fi ++ "/")%string
         else canonicalFilePath fi in
  let error :=
    if isDir fi && isReadable fi && isWritable fi then
      if negb journalOpens
      then (localPath definition ++ " failed to open the database.")%string
      else ""%string
    else
      if negb (fileExists fi)
      then ("Local folder " ++ localPath definition ++ " does not exist.")%string
      else if negb (isDir fi)
      then (localPath definition ++ " should be a folder but is not.")%string
      else if negb (isReadable fi)
      then (localPath definition ++ " is not readable.")%string
      else if negb (isWritable fi)
      then (localPath definition ++ " is not writable.")%string
      else ""%string in
  if negb (isEmpty error)
  then (canonicalLocalPath, setStatus SetupError (appendErrorString error r), false)
  else (canonicalLocalPath, r, true).

(** The outcome of the constructor: a folder with its engine, or a
    folder left in a set-up error, which has no engine. *)
Inductive Constructed :=
| Ready (f : Folder)
| SetupFailed (canonicalLocalPath : QString) (r : SyncResult) (j : SyncJournalDb).

(** [Folder::Folder], up to the set-up of the engine. [journal] is the
    database found at the journal path and [engine] the engine that
    [new SyncEngine] returns. The upgrade of the vfs mode and
    [startVfs()], which follow, are added by [Folder_constructor]; the
    signal connections are not part of the model. *)
Definition Folder_new (fi : QFileInfo) (journalOpens : bool) (now : Z)
    (definition : FolderDefinition) (accountState : AccountState) (vfs : Vfs)
    (journal : SyncJournalDb) (engine : SyncEngine) : Constructed :=
  let st := if paused definition then Paused else NotYetStarted in
  let r := {| status := st; errorStrings := []; foundFilesNotSynced := false |} in
  let '(canonicalLocalPath, r, ok) := checkLocalPath fi journalOpens definition r in
  if ok then
    let journal := wipeErrorBlacklistCategory LocalSoftError journal in
    let engine := engine_set_ignoreHiddenFilesSetting (ignoreHiddenFiles definition) engine in
    Ready {| _definition := definition;
             _accountState := accountState;
             _canonicalLocalPath := canonicalLocalPath;
             _syncResult := r;
             _consecutiveFailingSyncs := 0;
             _consecutiveFollowUpSyncs := 0;
             _journal := journal;
             _engine := engine;
             _vfs := vfs;
             _localDiscoveryTracker :=
               {| localDiscoveryPaths := ∅; previousLocalDiscoveryPaths := ∅ |};
             _folderWatcher := None;
             _timeSinceLastSyncStart := start now;
             _timeSinceLastSyncDone := start now;
             _timeSinceLastFullLocalDiscovery := invalidTimer;
             _lastSyncDuration := 0;
             _scheduleSelfTimerActive := false;
             events := [] |}
  else SetupFailed canonicalLocalPath r journal.

(** The status that [setFinishedStatus] chooses. *)
Definition finishedStatus (f : Folder) : Status :=
  if bool_decide (errorStrings (_syncResult f) = []) then
    if foundFilesNotSynced (_syncResult f) then Problem
    else if paused (_definition f) then Paused else Success
  else Error.

(** ** Successive finished runs *)

(** One finished run of a folder: what happened to the folder since the
    previous run finished ([before]: the next run was prepared, started
    and executed), and the arguments of [slotSyncFinished]. *)
Record FinishedRun := {
  before : Folder -> Folder;
  run_unspecified : Z;
  run_now : Z;
  run_success : bool
}.

(** The folder when the run ends, before [slotSyncFinished] handles it. *)
Definition atFinish (r : FinishedRun) (f : Folder) : Folder := before r f.

Definition finishRun (r : FinishedRun) (f : Folder) : Folder :=
  slotSyncFinished (run_unspecified r) (run_now r) (run_success r) (atFinish r f).

(** Whether [slotSyncFinished] started the timer that schedules the
    folder again. *)
Definition followUpTriggered (r : FinishedRun) (f : Folder) : bool :=
  negb (_scheduleSelfTimerActive (atFinish r f))
  && _scheduleSelfTimerActive (finishRun r f).

(** The number of follow-up syncs triggered along a sequence of runs. *)
Fixpoint followUpsTriggered (rs : list FinishedRun) (f : Folder) : nat :=
  match rs with
  | [] => O
  | r :: rs' =>
      ((if followUpTriggered r f then 1 else 0) + followUpsTriggered rs' (finishRun r f))%nat
  end.

(** A run that ends with the engine asking for an immediate follow-up,
    whatever the folder was before. *)
Definition requestsFollowUp (r : FinishedRun) : Prop :=
  forall f, isAnotherSyncNeeded (_engine (atFinish r f)) = ImmediateFollowUp.

(** Only [slotSyncFinished] writes the counter of follow-up syncs. *)
Definition keepsFollowUpCounter (r : FinishedRun) : Prop :=
  forall f, _consecutiveFollowUpSyncs (before r f) = _consecutiveFollowUpSyncs f.

(** ** The statements of the spec that the code does not meet as they
    are worded *)

(** The events a slot appended. *)
Definition newEvents (f f' : Folder) : list Event :=
  drop (length (events f)) (events f').

(** "The path is added to the undecided list if it is not already there,
    and exactly in that case a new-big-folder event is raised." *)
Definition bigFolderRule (f f' : Folder) (newF : QString) : Prop :=
  let newFolder := withTrailingSlash newF in
  let undecided := selectiveSyncList (_journal f) SelectiveSyncUndecidedList in
  let undecided' := selectiveSyncList (_journal f') SelectiveSyncUndecidedList in
  (newFolder ∉ undecided ->
     undecided' = (undecided ++ [newFolder])%list
     /\ EmitNewBigFolderDiscovered newFolder ∈ newEvents f f')
  /\ (newFolder ∈ undecided ->
        undecided' = undecided
        /\ EmitNewBigFolderDiscovered newFolder ∉ newEvents f f').

(** "A notification with a path inside the sync root appends the path,
    relative to the root, to the touched set": the set afterwards is the
    set before with the path added. *)
Definition touchedRule (f f' : Folder) (changedPath : QString) : Prop :=
  localDiscoveryPaths (_localDiscoveryTracker f')
  = {[ mid changedPath (QString_size (path f)) ]}
    ∪ localDiscoveryPaths (_localDiscoveryTracker f).

(** "... and schedules a sync run for the folder." *)
Definition scheduledRule (f' : Folder) : Prop :=
  _scheduleSelfTimerActive f' = true.

(** ** Further slots of the folder *)

(** [Folder::slotNextSyncFullLocalDiscovery]: the timer of the last full
    local discovery is invalidated. *)
Definition slotNextSyncFullLocalDiscovery (f : Folder) : Folder :=
  set_timeSinceLastFullLocalDiscovery invalidTimer f.

(** [Folder::schedulePathForLocalDiscovery]: the path, as bytes, is added to
    the touched paths. *)
Definition schedulePathForLocalDiscovery (relativePath : QString) (f : Folder) : Folder :=
  set_localDiscoveryTracker
    (addTouchedPath relativePath (_localDiscoveryTracker f)) f.

(** [Folder::slotHydrationStarts]. [reset] is [SyncResult::reset], whose
    code is not among the sources. *)
Definition slotHydrationStarts (reset : SyncResult -> SyncResult) (f : Folder) : Folder :=
  let f :=
    if isSyncRunning (_engine f) then
      let f := slotTerminateSync f in
      scheduleThisFolderSoon f
    else f in
  let f := set_syncResult (reset (_syncResult f)) f in
  let f := setSyncState SyncRunning f in
  let f := emit EmitSyncStarted f in
  emit EmitSyncStateChange f.

(** Signals of the folder and calls on objects it does not own that
    [Event] does not name; the slots below return them, in program
    order, beside the folder. *)
Inductive Notice :=
| SaveToSettings
| EmitSyncPausedChanged (paused : bool)
| EmitCanSyncChanged
| EmitSyncFinished (r : SyncResult)
| FolderManSetSyncEnabled (enabled : bool)
| FolderManScheduleFolder
| FolderManScheduleETagJob (folderAlias : QString)
| TagLastSuccessfullETagRequest (tp : Z)
| VfsStart
| VfsFileStatusExcluded (systemFileName : QString).

Definition definition_set_paused (v : bool) (d : FolderDefinition) : FolderDefinition :=
  {| alias := alias d; localPath := localPath d; paused := v;
     ignoreHiddenFiles := ignoreHiddenFiles d |}.

Definition set_definition (v : FolderDefinition) (f : Folder) : Folder :=
  {| _definition := v;
     _accountState := _accountState f;
     _canonicalLocalPath := _canonicalLocalPath f;
     _syncResult := _syncResult f;
     _consecutiveFailingSyncs := _consecutiveFailingSyncs f;
     _consecutiveFollowUpSyncs := _consecutiveFollowUpSyncs f;
     _journal := _journal f;
     _engine := _engine f;
     _vfs := _vfs f;
     _localDiscoveryTracker := _localDiscoveryTracker f;
     _folderWatcher := _folderWatcher f;
     _timeSinceLastSyncStart := _timeSinceLastSyncStart f;
     _timeSinceLastSyncDone := _timeSinceLastSyncDone f;
     _timeSinceLastFullLocalDiscovery := _timeSinceLastFullLocalDiscovery f;
     _lastSyncDuration := _lastSyncDuration f;
     _scheduleSelfTimerActive := _scheduleSelfTimerActive f;
     events := events f |}.

(** [Folder::syncPaused]. *)
Definition syncPaused (f : Folder) : bool := paused (_definition f).

(** [Folder::canSync]. [connected] is the answer of
    [accountState()->isConnected()] and [ready] the one of [isReady()]. *)
Definition canSync (connected ready : bool) (f : Folder) : bool :=
  negb (syncPaused f) && connected && ready.

(** [Folder::setSyncPaused]. *)
Definition setSyncPaused (paused' : bool) (f : Folder) : Folder * list Notice :=
  if hasSetupError f then (f, [])
  else if bool_decide (paused' = paused (_definition f)) then (f, [])
  else
    let f := set_definition (definition_set_paused paused' (_definition f)) f in
    let f :=
      if negb paused' then setSyncState NotYetStarted f
      else setSyncState Paused f in
    let f := emit EmitSyncStateChange f in
    (f, [SaveToSettings; EmitSyncPausedChanged paused'; EmitCanSyncChanged]).

(** The members of the folder that the poll of the root etag uses:
    the last etag seen and whether an etag job exists. *)
Record EtagPoll := {
  _lastEtag : QByteArray;
  _requestEtagJob : bool
}.

(** [Folder::slotRunEtagJob]. *)
Definition slotRunEtagJob (connected ready : bool) (f : Folder) (e : EtagPoll)
  : EtagPoll * list Notice :=
  if _requestEtagJob e then (e, [])
  else if negb (canSync connected ready f) then (e, [])
  else
    ({| _lastEtag := _lastEtag e; _requestEtagJob := true |},
     [FolderManScheduleETagJob (alias (_definition f))]).

(** [Folder::etagRetreived]. *)
Definition etagRetreived (etag : QByteArray) (tp : Z) (e : EtagPoll)
  : EtagPoll * list Notice :=
  if bool_decide (_lastEtag e <> etag) then
    ({| _lastEtag := etag; _requestEtagJob := _requestEtagJob e |},
     [FolderManSetSyncEnabled true; FolderManScheduleFolder;
      TagLastSuccessfullETagRequest tp])
  else
    (e, [FolderManSetSyncEnabled true; TagLastSuccessfullETagRequest tp]).

(** [Folder::etagRetrievedFromSyncEngine]. *)
Definition etagRetrievedFromSyncEngine (etag : QByteArray) (time : Z) (e : EtagPoll)
  : EtagPoll * list Notice :=
  ({| _lastEtag := etag; _requestEtagJob := _requestEtagJob e |},
   [TagLastSuccessfullETagRequest time]).

(** What the sync result answers about the first item of each kind. *)
Record FirstItems := {
  firstItemDeleted : option SyncFileItem;
  firstItemNew : option SyncFileItem;
  firstItemRenamed : option SyncFileItem;
  firstItemUpdated : option SyncFileItem;
  firstNewConflictItem : option SyncFileItem
}.

Definition isSome {A : Type} (o : option A) : bool :=
  match o with Some _ => true | None => false end.

(** [Folder::slotEmitFinishedDelayed]. *)
Definition slotEmitFinishedDelayed (connected ready : bool) (items : FirstItems)
    (f : Folder) (e : EtagPoll) : EtagPoll * list Notice :=
  let finished := [EmitSyncFinished (_syncResult f)] in
  if (bool_decide (status (_syncResult f) = Success)
      || bool_decide (status (_syncResult f) = Problem))
     && (isSome (firstItemDeleted items)
         || isSome (firstItemNew items)
         || isSome (firstItemRenamed items)
         || isSome (firstItemUpdated items)
         || isSome (firstNewConflictItem items))
  then
    let '(e, notices) := slotRunEtagJob connected ready f e in
    (e, (finished ++ notices)%list)
  else (e, finished).

(** [Folder::slotFolderConflicts], on the two counters of the sync
    result that it reads and writes: the new value of the number of old
    conflict items. The sum is one of two [int]s. *)
Definition slotFolderConflicts (folderAlias : QString) (conflictPaths : QStringList)
    (f : Folder) (numNewConflictItems numOldConflictItems : Z) : Z :=
  if bool_decide (folderAlias <> alias (_definition f)) then numOldConflictItems
  else if wrap_int (numNewConflictItems + numOldConflictItems)
          <? Z.of_nat (length conflictPaths)
  then wrap_int (Z.of_nat (length conflictPaths) - numNewConflictItems)
  else numOldConflictItems.

(** ** Paths of the definition *)

(** Every [a] of a string replaced by [b]. *)
Fixpoint replaceChar (a b : ascii) (s : QString) : QString :=
  match s with
  | EmptyString => EmptyString
  | String c s' => String (if Ascii.eqb c a then b else c) (replaceChar a b s')
  end.

(** [QDir::fromNativeSeparators] and [QDir::toNativeSeparators]: on
    Windows the backslashes become slashes, and back; elsewhere the path
    is returned as it is. *)
Definition fromNativeSeparators (windows : bool) (s : QString) : QString :=
  if windows then replaceChar "\" "/" s else s.

Definition toNativeSeparators (windows : bool) (s : QString) : QString :=
  if windows then replaceChar "/" "\" s else s.

(** [QString::startsWith(QChar)]. *)
Definition startsWith (s : QString) (c : ascii) : bool :=
  match s with
  | EmptyString => false
  | String a _ => Ascii.eqb a c
  end.

(** [QString::chop(n)]: the string without its last [n] characters. *)
Definition chop (s : QString) (n : Z) : QString :=
  if n <? 0 then s
  else if QString_size s <=? n then ""
  else left s (QString_size s - n).

(** [FolderDefinition::setLocalPath]: the value of [_localPath]. *)
Definition setLocalPath (windows : bool) (p : QString) : QString :=
  let _localPath := fromNativeSeparators windows p in
  if negb (endsWith _localPath "/") then (_localPath ++ "/")%string else _localPath.

(** [FolderDefinition::setTargetPath]: the value of [_targetPath].
    [stripTrailingSlash] is [Utility::stripTrailingSlash], whose code is
    not among the sources. *)
Definition setTargetPath (stripTrailingSlash : QString -> QString) (p : QString)
  : QString :=
  let _targetPath := stripTrailingSlash p in
  if negb (startsWith _targetPath "/") then String "/" _targetPath else _targetPath.

(** [Folder::remotePathTrailingSlash], on the remote path of the
    folder. *)
Definition remotePathTrailingSlash (remote : QString) : QString :=
  if String.eqb remote "/" then remote else (remote ++ "/")%string.

(** [Folder::shortGuiLocalPath], on the local path of the definition.
    [homePath] is the answer of [QDir::homePath()]. *)
Definition shortGuiLocalPath (windows : bool) (homePath : QString) (localPath : QString)
  : QString :=
  let p := localPath in
  let home := if negb (endsWith homePath "/") then (homePath ++ "/")%string else homePath in
  let p := if String.prefix home p then mid p (QString_size home) else p in
  let p := if (1 <? QString_size p) && endsWith p "/" then chop p 1 else p in
  toNativeSeparators windows p.

(** ** The settings of a folder *)

Module Settings.

(** [Vfs::Mode]. *)
Inductive Mode := Off | WithSuffix | WindowsCfApi.

#[global] Instance Mode_eq_dec : EqDecision Mode.
Proof. solve_decision. Defined.

(** A [QUuid] is a number of 128 bits; the null one is 0. *)
Definition QUuid := N.
Definition isNull (u : QUuid) : bool := N.eqb u 0.

(** [QVariant], with the types of the values that a definition stores. *)
Inductive QVariant :=
| Invalid
| OfString (s : QString)
| OfBool (b : bool)
| OfInt (n : Z)
| OfUrl (u : QString)
| OfUuid (u : QUuid).

(** [FolderDefinition], with all its members. *)
Record FolderDefinition := {
  alias : QString;
  _localPath : QString;
  journalPath : QString;
  _targetPath : QString;
  _webDavUrl : QString;
  paused : bool;
  ignoreHiddenFiles : bool;
  virtualFilesMode : Mode;
  navigationPaneClsid : QUuid;
  upgradeVfsMode : bool
}.

(** [QSettings]: the keys with their values, and the groups that were
    begun, the innermost first. Keys are compared with their case. *)
Record QSettings := {
  store : gmap string QVariant;
  groups : list QString
}.

(** [QSettingsPrivate::normalizedKey], of Qt: the key without slashes at
    its ends and with one slash where it has several in a row.
    [started] says that a character was written, [slash] that slashes
    were met since. *)
Fixpoint normalizedKey_from (started slash : bool) (key : QString) : QString :=
  match key with
  | EmptyString => EmptyString
  | String c key' =>
      if Ascii.eqb c "/" then normalizedKey_from started true key'
      else if started && slash
           then String "/" (String c (normalizedKey_from true false key'))
           else String c (normalizedKey_from true false key')
  end.

Definition normalizedKey (key : QString) : QString :=
  normalizedKey_from false false key.

(** The [groupPrefix] of Qt: the names of the groups, each followed by a
    slash; a group without a name adds nothing. *)
Fixpoint groupPrefix (gs : list QString) : QString :=
  match gs with
  | [] => ""
  | g :: gs' =>
      if isEmpty g then groupPrefix gs' else (groupPrefix gs' ++ g ++ "/")%string
  end.

(** [QSettings::group]: the prefix without its last character. *)
Definition group (s : QSettings) : QString :=
  left (groupPrefix (groups s)) (QString_size (groupPrefix (groups s)) - 1).

(** [QSettingsPrivate::actualKey]: the key under which a value is
    stored. *)
Definition fullKey (s : QSettings) (key : QString) : QString :=
  (groupPrefix (groups s) ++ normalizedKey key)%string.

(** [QSettings::beginGroup] and [QSettings::endGroup]. *)
Definition beginGroup (g : QString) (s : QSettings) : QSettings :=
  {| store := store s; groups := normalizedKey g :: groups s |}.

Definition endGroup (s : QSettings) : QSettings :=
  {| store := store s; groups := tail (groups s) |}.

(** [QSettings::setValue]: an empty key is refused. *)
Definition setValue (key : QString) (v : QVariant) (s : QSettings) : QSettings :=
  if isEmpty key then s
  else {| store := <[fullKey s key := v]> (store s); groups := groups s |}.

(** [QSettings::value(key, defaultValue)]: an empty key gives an invalid
    value. *)
Definition value (key : QString) (defaultValue : QVariant) (s : QSettings) : QVariant :=
  if isEmpty key then Invalid
  else match store s !! fullKey s key with
       | Some v => v
       | None => defaultValue
       end.

(** Whether [k] is the key [p] or a sub-setting of it. *)
Definition isUnder (p k : QString) : bool :=
  String.eqb k p || String.prefix (p ++ "/") k.

(** The key that [QSettings::remove(key)] removes with its sub-settings:
    a key that is empty once normalized stands for the current group. *)
Definition removedKey (key : QString) (s : QSettings) : QString :=
  let theKey := normalizedKey key in
  if isEmpty theKey then group s else (groupPrefix (groups s) ++ theKey)%string.

(** [QSettings::remove]: the key and its sub-settings are removed, or
    every key when there is neither a key nor a group. *)
Definition remove (key : QString) (s : QSettings) : QSettings :=
  let theKey := removedKey key s in
  if isEmpty theKey then {| store := ∅; groups := groups s |}
  else {| store := filter (fun kv => isUnder theKey kv.1 = false) (store s);
          groups := groups s |}.

(** Whether [QSettings::remove(key)] removes the stored key [k]. *)
Definition erases (key : QString) (s : QSettings) (k : QString) : bool :=
  isEmpty (removedKey key s) || isUnder (removedKey key s) k.

Section Conversions.

(** What [QVariant] converts a value of another type to; the conversions
    below are those of an invalid value and of a value of the type asked
    for. *)
Variable otherToString : QVariant -> QString.
Variable otherToBool : QVariant -> bool.
Variable otherToUrl : QVariant -> QString.
Variable otherToUuid : QVariant -> QUuid.

Definition toString (v : QVariant) : QString :=
  match v with Invalid => "" | OfString s => s | _ => otherToString v end.

Definition toBool (v : QVariant) : bool :=
  match v with Invalid => false | OfBool b => b | _ => otherToBool v end.

Definition toUrl (v : QVariant) : QString :=
  match v with Invalid => "" | OfUrl u => u | _ => otherToUrl v end.

Definition toUuid (v : QVariant) : QUuid :=
  match v with Invalid => 0%N | OfUuid u => u | _ => otherToUuid v end.

(** [Vfs::modeToString] and [Vfs::modeFromString], whose code is not
    among the sources. *)
Variable modeToString : Mode -> QString.
Variable modeFromString : QString -> option Mode.

(** [FolderMan::unescapeAlias], whose code is not among the sources. *)
Variable unescapeAlias : QString -> QString.

(** The constructor of [FolderDefinition] from the url, declared in
    folder.h, which is not among the sources. *)
Variable newFolderDefinition : QString -> FolderDefinition.

(** [Utility::stripTrailingSlash] and whether the build is for Windows. *)
Variable stripTrailingSlash : QString -> QString.
Variable windows : bool.

Definition WinVfsSettingsVersion : Z := 4.
Definition SettingsVersion : Z := 2.

(** [FolderDefinition::save]. *)
Definition save (folder : FolderDefinition) (settings : QSettings) : QSettings :=
  let settings := setValue "localPath" (OfString (_localPath folder)) settings in
  let settings := setValue "journalPath" (OfString (journalPath folder)) settings in
  let settings := setValue "targetPath" (OfString (_targetPath folder)) settings in
  let settings := setValue "davUrl" (OfUrl (_webDavUrl folder)) settings in
  let settings := setValue "paused" (OfBool (paused folder)) settings in
  let settings :=
    setValue "ignoreHiddenFiles" (OfBool (ignoreHiddenFiles folder)) settings in
  let settings :=
    setValue "virtualFilesMode" (OfString (modeToString (virtualFilesMode folder)))
      settings in
  let version :=
    if decide (virtualFilesMode folder = WindowsCfApi)
    then WinVfsSettingsVersion else SettingsVersion in
  let settings := setValue "version" (OfInt version) settings in
  if negb (isNull (navigationPaneClsid folder))
  then setValue "navigationPaneClsid" (OfUuid (navigationPaneClsid folder)) settings
  else remove "navigationPaneClsid" settings.

(** [FolderDefinition::load]. *)
Definition load (settings : QSettings) (alias' : QString) : FolderDefinition :=
  let folder := newFolderDefinition (toUrl (value "davUrl" Invalid settings)) in
  let vfsModeString := toString (value "virtualFilesMode" Invalid settings) in
  let legacy := toBool (value "usePlaceholders" Invalid settings) in
  let mode :=
    if negb (isEmpty vfsModeString) then
      match modeFromString vfsModeString with
      | Some mode => mode
      | None => Off
      end
    else if legacy then WithSuffix else Off in
  {| alias := unescapeAlias alias';
     _localPath := setLocalPath windows (toString (value "localPath" Invalid settings));
     journalPath := toString (value "journalPath" Invalid settings);
     _targetPath :=
       setTargetPath stripTrailingSlash (toString (value "targetPath" Invalid settings));
     _webDavUrl := _webDavUrl folder;
     paused := toBool (value "paused" Invalid settings);
     ignoreHiddenFiles := toBool (value "ignoreHiddenFiles" (OfBool true) settings);
     virtualFilesMode := mode;
     navigationPaneClsid := toUuid (value "navigationPaneClsid" Invalid settings);
     upgradeVfsMode :=
       if isEmpty vfsModeString && legacy then true else upgradeVfsMode folder |}.

(** [FolderMan::escapeAlias], whose code is not among the sources. *)
Variable escapeAlias : QString -> QString.

(** [Folder::removeFromSettings], on the settings that
    [_accountState->settings()] returns. *)
Definition removeFromSettings (folder : FolderDefinition) (settings : QSettings)
  : QSettings :=
  let settings := beginGroup "Folders" settings in
  let settings := remove (escapeAlias (alias folder)) settings in
  let settings := endGroup settings in
  let settings := beginGroup "Multifolders" settings in
  let settings := remove (escapeAlias (alias folder)) settings in
  let settings := endGroup settings in
  let settings := beginGroup "FoldersWithPlaceholders" settings in
  remove (escapeAlias (alias folder)) settings.

(** [Folder::virtualFilesEnabled]. [vfsOnOffSwitchPending] is the answer
    of [isVfsOnOffSwitchPending()]. *)
Definition virtualFilesEnabled (folder : FolderDefinition) (vfsOnOffSwitchPending : bool)
  : bool :=
  negb (bool_decide (virtualFilesMode folder = Off)) && negb vfsOnOffSwitchPending.

(** The group that [Folder::saveToSettings] chooses. [otherCleanPaths]
    are the clean paths of the other folders of the folder manager. *)
Definition settingsGroup (folder : FolderDefinition)
    (vfsOnOffSwitchPending _saveInFoldersWithPlaceholders _saveBackwardsCompatible : bool)
    (cleanPath : QString) (otherCleanPaths : list QString) : QString :=
  let oneAccountOnly := negb (existsb (String.eqb cleanPath) otherCleanPaths) in
  if virtualFilesEnabled folder vfsOnOffSwitchPending || _saveInFoldersWithPlaceholders
  then "FoldersWithPlaceholders"
  else if _saveBackwardsCompatible || oneAccountOnly then "Folders"
  else "Multifolders".

(** [Folder::saveToSettings]. [accountSettings] is what
    [_accountState->settings()] returns on the stored keys: its groups
    are those of the account. The result is the stored keys. *)
Definition saveToSettings (folder : FolderDefinition)
    (vfsOnOffSwitchPending _saveInFoldersWithPlaceholders _saveBackwardsCompatible : bool)
    (cleanPath : QString) (otherCleanPaths : list QString)
    (accountSettings : QSettings) : QSettings :=
  let removed := removeFromSettings folder accountSettings in
  let settings := {| store := store removed; groups := groups accountSettings |} in
  let group := settingsGroup folder vfsOnOffSwitchPending
                 _saveInFoldersWithPlaceholders _saveBackwardsCompatible
                 cleanPath otherCleanPaths in
  let settings := beginGroup group settings in
  let settings := beginGroup (escapeAlias (alias folder)) settings in
  save folder settings.

End Conversions.

End Settings.

(** ** The end of the constructor *)

Definition set_vfs (v : Vfs) (f : Folder) : Folder :=
  {| _definition := _definition f;
     _accountState := _accountState f;
     _canonicalLocalPath := _canonicalLocalPath f;
     _syncResult := _syncResult f;
     _consecutiveFailingSyncs := _consecutiveFailingSyncs f;
     _consecutiveFollowUpSyncs := _consecutiveFollowUpSyncs f;
     _journal := _journal f;
     _engine := _engine f;
     _vfs := v;
     _localDiscoveryTracker := _localDiscoveryTracker f;
     _folderWatcher := _folderWatcher f;
     _timeSinceLastSyncStart := _timeSinceLastSyncStart f;
     _timeSinceLastSyncDone := _timeSinceLastSyncDone f;
     _timeSinceLastFullLocalDiscovery := _timeSinceLastFullLocalDiscovery f;
     _lastSyncDuration := _lastSyncDuration f;
     _scheduleSelfTimerActive := _scheduleSelfTimerActive f;
     events := events f |}.

(** The folder with the members that the record [Folder] leaves out and
    that the end of the constructor writes: the mode of the virtual files
    of the definition, [_vfsIsReady], and the calls made so far. *)
Record Started := {
  folder : Folder;
  virtualFilesMode : Settings.Mode;
  _vfsIsReady : bool;
  calls : list Notice
}.

(** The signals of the vfs that [Folder::startVfs] connects a slot to. *)
Inductive VfsSignal :=
| VfsStarted
| VfsError (error : QString).

Section Constructor.

(** [SyncEngine::wipeVirtualFiles], whose code is not among the sources:
    what it makes of the journal. *)
Variable wipeVirtualFiles : QString -> SyncJournalDb -> Vfs -> SyncJournalDb.

(** [Vfs::checkAvailability]: nothing, or the error. *)
Variable checkAvailability : QString -> Settings.Mode -> option QString.

(** [_journal.databaseFilePath()]. *)
Variable stateDbFile : QString.

(** The upgrade of the suffix vfs in [Folder::Folder]. [upgradeVfsMode]
    is the member of the definition of that name, and [winvfs] the vfs
    that [createVfsFromPlugin(Vfs::WindowsCfApi)] returns when the plugin
    is available. *)
Definition upgradeVfs (upgradeVfsMode : bool) (winvfs : option Vfs) (st : Started)
  : Started :=
  if bool_decide (virtualFilesMode st = Settings.WithSuffix) && upgradeVfsMode then
    let f := folder st in
    let st :=
      match winvfs with
      | Some v =>
          let j := wipeVirtualFiles (path f) (_journal f) (_vfs f) in
          {| folder := set_vfs v (set_journal j f);
             virtualFilesMode := Settings.WindowsCfApi;
             _vfsIsReady := _vfsIsReady st;
             calls := calls st |}
      | None => st
      end in
    {| folder := folder st; virtualFilesMode := virtualFilesMode st;
       _vfsIsReady := _vfsIsReady st; calls := calls st ++ [SaveToSettings] |}
  else st.

(** The slots that [Folder::startVfs] connects to the signals [started]
    and [error] of the vfs. *)
Definition slotVfsSignal (st : Started) (s : VfsSignal) : Started :=
  match s with
  | VfsStarted =>
      {| folder := folder st; virtualFilesMode := virtualFilesMode st;
         _vfsIsReady := true;
         calls := calls st ++ [VfsFileStatusExcluded (stateDbFile ++ "-wal")%string;
                                VfsFileStatusExcluded (stateDbFile ++ "-shm")%string] |}
  | VfsError error =>
      let f := folder st in
      {| folder :=
           set_syncResult (setStatus SetupError (appendErrorString error (_syncResult f))) f;
         virtualFilesMode := virtualFilesMode st;
         _vfsIsReady := false;
         calls := calls st |}
  end.

(** [Folder::startVfs]. [signals] are the signals that the vfs sends
    before [_vfs->start()] returns, in their order. *)
Definition startVfs (signals : list VfsSignal) (st : Started) : Started :=
  let f := folder st in
  match checkAvailability (path f) (virtualFilesMode st) with
  | Some error =>
      {| folder :=
           set_syncResult (setStatus SetupError (appendErrorString error (_syncResult f))) f;
         virtualFilesMode := virtualFilesMode st;
         _vfsIsReady := _vfsIsReady st;
         calls := calls st |}
  | None =>
      fold_left slotVfsSignal signals
        {| folder := f; virtualFilesMode := virtualFilesMode st;
           _vfsIsReady := _vfsIsReady st; calls := calls st ++ [VfsStart] |}
  end.

(** [Folder::Folder] to its end: what [Folder_new] builds, then the
    upgrade of the vfs and [startVfs()]. [mode] and [upgradeVfsMode] are
    the members [virtualFilesMode] and [upgradeVfsMode] of the definition
    and [ready] is the value that [_vfsIsReady] is declared with. The
    result is the folder with its engine, or what [Folder_new] leaves of a
    folder in a set-up error. *)
Definition Folder_constructor (fi : QFileInfo) (journalOpens : bool) (now : Z)
    (definition : FolderDefinition) (accountState : AccountState) (vfs : Vfs)
    (journal : SyncJournalDb) (engine : SyncEngine)
    (mode : Settings.Mode) (upgradeVfsMode : bool) (winvfs : option Vfs)
    (ready : bool) (signals : list VfsSignal) : Started + Constructed :=
  match Folder_new fi journalOpens now definition accountState vfs journal engine with
  | Ready f =>
      let st := {| folder := f; virtualFilesMode := mode; _vfsIsReady := ready;
                   calls := [] |} in
      let st := upgradeVfs upgradeVfsMode winvfs st in
      inl (startVfs signals st)
  | SetupFailed p r j => inr (SetupFailed p r j)
  end.

End Constructor.

(** The keys that [FolderDefinition::save] writes. *)
Definition savedKeys : list QString :=
  ["localPath"; "journalPath"; "targetPath"; "davUrl"; "paused"; "ignoreHiddenFiles";
   "virtualFilesMode"; "version"; "navigationPaneClsid"].

(** The groups that [Folder::removeFromSettings] goes through. *)
Definition folderGroups : list QString :=
  ["Folders"; "Multifolders"; "FoldersWithPlaceholders"].

(** The key of the folder with the escaped alias [escaped] in the group
    [group] of the settings of the account. *)
Definition aliasKey (accountSettings : Settings.QSettings) (group escaped : QString)
  : QString :=
  Settings.fullKey (Settings.beginGroup group accountSettings) escaped.

(** ** Sample values *)

(** An encoding of the instructions with one bit each. *)
Definition oneBitPerInstruction (i : SyncInstruction) : Z :=
  match i with
  | CSYNC_INSTRUCTION_NONE => Z.shiftl 1 0
  | CSYNC_INSTRUCTION_REMOVE => Z.shiftl 1 1
  | CSYNC_INSTRUCTION_RENAME => Z.shiftl 1 2
  | CSYNC_INSTRUCTION_NEW => Z.shiftl 1 3
  | CSYNC_INSTRUCTION_CONFLICT => Z.shiftl 1 4
  | CSYNC_INSTRUCTION_IGNORE => Z.shiftl 1 5
  | CSYNC_INSTRUCTION_SYNC => Z.shiftl 1 6
  | CSYNC_INSTRUCTION_ERROR => Z.shiftl 1 8
  | CSYNC_INSTRUCTION_TYPE_CHANGE => Z.shiftl 1 9
  | CSYNC_INSTRUCTION_UPDATE_METADATA => Z.shiftl 1 10
  | CSYNC_INSTRUCTION_UPDATE_VFS_METADATA => Z.shiftl 1 11
  end.

(** A child path starts with the path of its parent. *)
Definition startsWithParent (child parent : QString) : bool :=
  String.prefix parent child.

Definition sampleConfig : ConfigFile :=
  {| newBigFolderSizeLimit := (true, 500);
     confirmExternalStorage := true;
     moveToTrash := false;
     chunkSize := 10000000;
     minChunkSize := 1000000;
     maxChunkSize := 100000000;
     targetChunkUploadDuration := 60000;
     useDownloadLimit := 0;
     downloadLimit := 80;
     useUploadLimit := 0;
     uploadLimit := 10 |}.

Definition softError : SyncJournalErrorBlacklistRecord :=
  {| _errorCategory := LocalSoftError; _retryCount := 1;
     _ignoreDuration := 25; _blErrorString := "file is locked" |}.

Definition normalError : SyncJournalErrorBlacklistRecord :=
  {| _errorCategory := Normal; _retryCount := 2;
     _ignoreDuration := 120; _blErrorString := "server replied 503" |}.

Definition sampleJournal : SyncJournalDb :=
  {| queryFails := false;
     selectiveSyncList := fun _ => [];
     errorBlacklist :=
       <["docs/reports/q3.ods" := softError]>
         (<["docs/reports" := softError]> (<["docs" := normalError]> ∅));
     fileRecords := ∅ |}.

(** A journal whose queries fail. *)
Definition failingJournal : SyncJournalDb :=
  {| queryFails := true;
     selectiveSyncList := fun _ => [];
     errorBlacklist := ∅;
     fileRecords := ∅ |}.

Definition sampleEngine : SyncEngine :=
  {| isSyncRunning := false;
     isAnotherSyncNeeded := ImmediateFollowUp;
     lastLocalDiscoveryStyle := FilesystemOnly;
     wasFileTouched := fun _ => false;
     localDiscoveryOptions := (FilesystemOnly, ∅);
     syncOptions := None;
     networkLimits := (0, 0);
     ignoreHiddenFilesSetting := false |}.

(** An engine in the middle of a run, which touched every file. *)
Definition busyEngine : SyncEngine :=
  {| isSyncRunning := true;
     isAnotherSyncNeeded := NoFollowUpSync;
     lastLocalDiscoveryStyle := FilesystemOnly;
     wasFileTouched := fun _ => true;
     localDiscoveryOptions := (FilesystemOnly, ∅);
     syncOptions := None;
     networkLimits := (0, 0);
     ignoreHiddenFilesSetting := false |}.

Definition sampleFolderWith (j : SyncJournalDb) (e : SyncEngine) : Folder :=
  {| _definition :=
       {| alias := "docs"; localPath := "/home/u/sync";
          paused := false; ignoreHiddenFiles := true |};
     _accountState := {| isHttp2Supported := true |};
     _canonicalLocalPath := "/home/u/sync/";
     _syncResult :=
       {| status := SyncRunning; errorStrings := []; foundFilesNotSynced := false |};
     _consecutiveFailingSyncs := 0;
     _consecutiveFollowUpSyncs := 0;
     _journal := j;
     _engine := e;
     _vfs := {| isHydrating := false; pinState := fun _ => None |};
     _localDiscoveryTracker :=
       {| localDiscoveryPaths := ∅; previousLocalDiscoveryPaths := ∅ |};
     _folderWatcher := Some {| isReliable := true |};
     _timeSinceLastSyncStart := start 1000;
     _timeSinceLastSyncDone := start 900;
     _timeSinceLastFullLocalDiscovery := start 500;
     _lastSyncDuration := 0;
     _scheduleSelfTimerActive := false;
     events := [] |}.

Definition sampleFolder : Folder := sampleFolderWith sampleJournal sampleEngine.

(** The sample folder with a journal that cannot be queried. *)
Definition folderWithFailingJournal : Folder :=
  sampleFolderWith failingJournal sampleEngine.

(** The sample folder while its engine runs. *)
Definition folderWithBusyEngine : Folder :=
  sampleFolderWith sampleJournal busyEngine.

Definition sampleFileInfo : QFileInfo :=
  {| canonicalFilePath := "/home/u/sync"; fileExists := true;
     isDir := true; isReadable := true; isWritable := true |}.

Definition sampleItem : SyncFileItem :=
  {| _file := "docs/a.txt"; _instruction := CSYNC_INSTRUCTION_NEW;
     _status := ItemSuccess; _errorString := "" |}.

(** A run at whose end the engine asks for an immediate follow-up. *)
Definition sampleRun : FinishedRun :=
  {| before := fun f => set_scheduleSelfTimerActive false (set_engine sampleEngine f);
     run_unspecified := 0; run_now := 2000; run_success := true |}.

(** A notification for a file of the sample folder. *)
Definition sampleChangedPath : QString := "/home/u/sync/docs/reports/q3.ods".

(** The sample folder after the file was unlocked. *)
Definition sampleUnlocked : Folder :=
  slotWatchedPathChanged startsWithParent false (fun _ _ _ => true) (fun _ => None)
    sampleChangedPath UnLock sampleFolder.

(** The sample folder after the file was changed. *)
Definition sampleNotified : Folder :=
  slotWatchedPathChanged startsWithParent false (fun _ _ _ => true) (fun _ => None)
    sampleChangedPath Other sampleFolder.

(** Sample values for the settings. *)
Definition sampleModeToString (m : Settings.Mode) : QString :=
  match m with
  | Settings.Off => "off"
  | Settings.WithSuffix => "suffix"
  | Settings.WindowsCfApi => "wincfapi"
  end.

Definition sampleModeFromString (s : QString) : option Settings.Mode :=
  if String.eqb s "off" then Some Settings.Off
  else if String.eqb s "suffix" then Some Settings.WithSuffix
  else if String.eqb s "wincfapi" then Some Settings.WindowsCfApi
  else None.

Definition sampleNewFolderDefinition (url : QString) : Settings.FolderDefinition :=
  {| Settings.alias := "";
     Settings._localPath := "";
     Settings.journalPath := "";
     Settings._targetPath := "";
     Settings._webDavUrl := url;
     Settings.paused := false;
     Settings.ignoreHiddenFiles := true;
     Settings.virtualFilesMode := Settings.Off;
     Settings.navigationPaneClsid := 0%N;
     Settings.upgradeVfsMode := false |}.

Definition sampleStripTrailingSlash (p : QString) : QString :=
  if endsWith p "/" && (1 <? QString_size p) then chop p 1 else p.

Definition sampleDefinition : Settings.FolderDefinition :=
  {| Settings.alias := "docs";
     Settings._localPath := "/home/user/docs/";
     Settings.journalPath := ".sync_journal.db";
     Settings._targetPath := "/Documents";
     Settings._webDavUrl := "https://cloud.example.org/remote.php/webdav";
     Settings.paused := true;
     Settings.ignoreHiddenFiles := false;
     Settings.virtualFilesMode := Settings.WithSuffix;
     Settings.navigationPaneClsid := 0%N;
     Settings.upgradeVfsMode := false |}.

(** Settings of an account in which older clients have stored the folder
    [docs], once in the group [Folders] and once, with the key of the
    placeholders, in the group [FoldersWithPlaceholders]. *)
Definition sampleSettings : Settings.QSettings :=
  {| Settings.store :=
       <["Accounts/0/FoldersWithPlaceholders/docs/usePlaceholders"
           := Settings.OfBool true]>
         (<["Accounts/0/FoldersWithPlaceholders/docs/localPath"
              := Settings.OfString "/home/user/docs"]>
            (<["Accounts/0/Folders/docs/localPath" := Settings.OfString "/home/user/docs"]>
               (<["Accounts/0/version" := Settings.OfInt 2]> ∅)));
     Settings.groups := ["0"; "Accounts"] |}.

(** The settings in the group of the folder [docs] that the older client
    which knew placeholders wrote. *)
Definition sampleOlderGroup : Settings.QSettings :=
  Settings.beginGroup "docs"
    (Settings.beginGroup "FoldersWithPlaceholders" sampleSettings).

(** A definition whose alias is empty. *)
Definition sampleUnnamed : Settings.FolderDefinition :=
  {| Settings.alias := "";
     Settings._localPath := "/home/user/other/";
     Settings.journalPath := ".sync_journal.db";
     Settings._targetPath := "/";
     Settings._webDavUrl := "https://cloud.example.org/remote.php/webdav";
     Settings.paused := false;
     Settings.ignoreHiddenFiles := true;
     Settings.virtualFilesMode := Settings.Off;
     Settings.navigationPaneClsid := 0%N;
     Settings.upgradeVfsMode := false |}.

Definition sampleLoad (settings : Settings.QSettings) (alias' : QString)
  : Settings.FolderDefinition :=
  Settings.load (fun _ => "") (fun _ => false) (fun _ => "") (fun _ => 0%N)
    sampleModeFromString (fun a => a) sampleNewFolderDefinition
    sampleStripTrailingSlash false settings alias'.

Definition sampleSaveToSettings : Settings.QSettings :=
  Settings.saveToSettings sampleModeToString (fun a => a) sampleDefinition
    false false false "/home/user/docs" [] sampleSettings.

(** ** Properties *)

(** *** Helpers *)

Lemma newEvents_app (f f' : Folder) (l : list Event) :
  events f' = (events f ++ l)%list -> newEvents f f' = l.
Proof.
  intros H. unfold newEvents. rewrite H. apply drop_app_length.
Qed.

Lemma events_emit (ev : Event) (f : Folder) :
  events (emit ev f) = (events f ++ [ev])%list.
Proof. reflexivity. Qed.

Example lastIndexOf_last_slash : lastIndexOf "docs/reports/q3.ods" "/" = 12.
Proof. reflexivity. Qed.

Example lastIndexOf_no_slash : lastIndexOf "q3.ods" "/" = -1.
Proof. reflexivity. Qed.

Example left_to_last_slash : left "docs/reports/q3.ods" 12 = "docs/reports".
Proof. reflexivity. Qed.

Example mid_after_root :
  mid sampleChangedPath (QString_size (path sampleFolder)) = "docs/reports/q3.ods".
Proof. reflexivity. Qed.

(** *** Terminating a run *)

(** C8. A request to terminate the sync calls [abort()] on the engine and
    moves the folder to [SyncAbortRequested] when the engine is running;
    when no sync is running the folder is left as it is. *)
Theorem slotTerminateSync_aborts_running_engine (f : Folder) :
  (isSyncRunning (_engine f) = true ->
     newEvents f (slotTerminateSync f) = [EngineAbort]
     /\ status (_syncResult (slotTerminateSync f)) = SyncAbortRequested)
  /\ (isSyncRunning (_engine f) = false -> slotTerminateSync f = f).
Proof.
  unfold slotTerminateSync.
  destruct (isSyncRunning (_engine f)); split; intros H; try discriminate.
  - split; [ | reflexivity ].
    apply newEvents_app. reflexivity.
  - reflexivity.
Qed.

(** *** The options of a run *)

(** What [Folder::setSyncOptions] does about the parallel network jobs:
    it sets 20 when the account supports HTTP/2 and 6 otherwise, and
    hands to the engine what [SyncOptions::fillFromEnvironmentVariables]
    and then [SyncOptions::verifyChunkSizes], whose code is not among the
    sources, make of the options so prepared. What these two do to the
    number of jobs the sources do not say. *)
Lemma setSyncOptions_hands_over
    (fillFromEnvironmentVariables verifyChunkSizes : SyncOptions -> SyncOptions)
    (cfg : ConfigFile) (f : Folder) :
  exists opt,
    _parallelNetworkJobs opt = (if isHttp2Supported (_accountState f) then 20 else 6)
    /\ syncOptions
         (_engine (setSyncOptions fillFromEnvironmentVariables verifyChunkSizes cfg f))
       = Some (verifyChunkSizes (fillFromEnvironmentVariables opt)).
Proof. eexists. split; [ | reflexivity ]. reflexivity. Qed.

(** *** A completed item *)

Section InstructionMask.

Variable instructionValue : SyncInstruction -> Z.

(** Each enumerator has bits of its own: two enumerators share a bit only
    when they are the same. *)
Hypothesis flags :
  forall i j, Z.land (instructionValue i) (instructionValue j) <> 0 <-> i = j.

Lemma mask_none_or_update_metadata (i : SyncInstruction) :
  (Z.land (instructionValue i)
     (Z.lor (instructionValue CSYNC_INSTRUCTION_NONE)
        (instructionValue CSYNC_INSTRUCTION_UPDATE_METADATA)) =? 0) = false
  <-> i = CSYNC_INSTRUCTION_NONE \/ i = CSYNC_INSTRUCTION_UPDATE_METADATA.
Proof.
  rewrite Z.eqb_neq, Z.land_lor_distr_r, Z.lor_eq_0_iff.
  pose proof (flags i CSYNC_INSTRUCTION_NONE) as Hn.
  pose proof (flags i CSYNC_INSTRUCTION_UPDATE_METADATA) as Hu.
  split.
  - intros H.
    destruct (decide (i = CSYNC_INSTRUCTION_NONE)) as [ | Hne1]; [ by left | ].
    destruct (decide (i = CSYNC_INSTRUCTION_UPDATE_METADATA)) as [ | Hne2]; [ by right | ].
    exfalso. apply H. split.
    + destruct (Z.eq_dec (Z.land (instructionValue i)
                            (instructionValue CSYNC_INSTRUCTION_NONE)) 0) as [ | Hz];
        [ done | ]. apply Hn in Hz. contradiction.
    + destruct (Z.eq_dec (Z.land (instructionValue i)
                            (instructionValue CSYNC_INSTRUCTION_UPDATE_METADATA)) 0)
        as [ | Hz]; [ done | ]. apply Hu in Hz. contradiction.
  - intros [-> | ->] [H1 H2].
    + apply Hn in H1; [ done | reflexivity ].
    + apply Hu in H2; [ done | reflexivity ].
Qed.

End InstructionMask.

Lemma oneBitPerInstruction_flags (i j : SyncInstruction) :
  Z.land (oneBitPerInstruction i) (oneBitPerInstruction j) <> 0 <-> i = j.
Proof.
  destruct i, j; vm_compute; split; intros H; try congruence;
    try (exfalso; apply H; reflexivity); try discriminate.
Qed.

(** C10. A completed item with status success and instruction none or
    update_metadata leaves the folder as it was: nothing is added to the
    sync result, to the file log or to the events. Every other completed
    item is processed into the sync result, logged and published through
    the item-completed event. The values of the instructions are flags,
    one or more bits of its own each. *)
Theorem slotItemCompleted_filters_plain_successes
    (instructionValue : SyncInstruction -> Z)
    (processCompletedItem : SyncFileItem -> SyncResult -> SyncResult)
    (item : SyncFileItem) (f : Folder)
    (flags : forall i j,
        Z.land (instructionValue i) (instructionValue j) <> 0 <-> i = j) :
  let f' := slotItemCompleted instructionValue processCompletedItem item f in
  (_status item = ItemSuccess
   /\ (_instruction item = CSYNC_INSTRUCTION_NONE
       \/ _instruction item = CSYNC_INSTRUCTION_UPDATE_METADATA) ->
   f' = f)
  /\ (~ (_status item = ItemSuccess
         /\ (_instruction item = CSYNC_INSTRUCTION_NONE
             \/ _instruction item = CSYNC_INSTRUCTION_UPDATE_METADATA)) ->
      _syncResult f' = processCompletedItem item (_syncResult f)
      /\ newEvents f f'
         = [FileLogItem item; DispatchItemCompleted (alias (_definition f)) item]).
Proof.
  intros f'. subst f'. unfold slotItemCompleted.
  pose proof (mask_none_or_update_metadata instructionValue flags (_instruction item))
    as Hmask.
  destruct (Z.land _ _ =? 0) eqn:Hz; simpl.
  - rewrite andb_false_r. split.
    + intros [_ Hi]. apply Hmask in Hi. discriminate.
    + intros _. split; [ reflexivity | ].
      apply newEvents_app. simpl. by rewrite <- app_assoc.
  - rewrite andb_true_r. case_bool_decide as Hs; split.
    + reflexivity.
    + intros Hn. exfalso. apply Hn. split; [ done | ]. by apply Hmask.
    + intros [Hs' _]. contradiction.
    + intros _. split; [ reflexivity | ].
      apply newEvents_app. simpl. by rewrite <- app_assoc.
Qed.

Lemma slotItemCompleted_filters_plain_successes_witness :
  (forall i j,
      Z.land (oneBitPerInstruction i) (oneBitPerInstruction j) <> 0 <-> i = j)
  /\ _syncResult (slotItemCompleted oneBitPerInstruction (fun _ r => r)
                    sampleItem sampleFolder)
     = _syncResult sampleFolder
  /\ newEvents sampleFolder
       (slotItemCompleted oneBitPerInstruction (fun _ r => r) sampleItem sampleFolder)
     = [FileLogItem sampleItem;
        DispatchItemCompleted (alias (_definition sampleFolder)) sampleItem].
Proof.
  split; [ exact oneBitPerInstruction_flags | ].
  apply (slotItemCompleted_filters_plain_successes oneBitPerInstruction
           (fun _ r => r) sampleItem sampleFolder oneBitPerInstruction_flags).
  intros [_ [H | H]]; discriminate.
Defined.

(** With one bit per instruction, a successful item with nothing to do
    leaves the sample folder as it is. *)
Example slotItemCompleted_drops_none :
  slotItemCompleted oneBitPerInstruction (fun _ r => r)
    {| _file := "docs/a.txt"; _instruction := CSYNC_INSTRUCTION_NONE;
       _status := ItemSuccess; _errorString := "" |} sampleFolder
  = sampleFolder.
Proof. reflexivity. Qed.

(** With an instruction none of value 0 the mask test of
    [slotItemCompleted] never holds for it: such an item is processed. *)
Lemma slotItemCompleted_none_of_value_zero
    (instructionValue : SyncInstruction -> Z)
    (processCompletedItem : SyncFileItem -> SyncResult -> SyncResult)
    (item : SyncFileItem) (f : Folder) :
  instructionValue CSYNC_INSTRUCTION_NONE = 0 ->
  _instruction item = CSYNC_INSTRUCTION_NONE ->
  _syncResult (slotItemCompleted instructionValue processCompletedItem item f)
  = processCompletedItem item (_syncResult f).
Proof.
  intros H0 Hi. unfold slotItemCompleted. rewrite Hi, H0.
  rewrite Z.lor_0_l, Z.land_0_l. simpl. rewrite andb_false_r. reflexivity.
Qed.

(** *** The end of a run *)

(** A block that does not write a field leaves its projection alone. *)
Ltac solve_frame :=
  intros;
  unfold emit, setFinishedStatus, countFailingSyncs, clearWhiteList,
    noteFullLocalDiscovery, noteSyncDuration, countFollowUpSyncs, maybeFollowUp,
    scheduleThisFolderSoon, setSyncState, startFileLog, setDirtyNetworkLimits,
    setSyncOptions, passIgnoreHiddenFiles, chooseLocalDiscovery, touchPath,
    wipeSoftErrorsOnUnlock, slotSyncError;
  repeat case_match; reflexivity.

Ltac frame proj :=
  repeat match goal with
  | |- context [proj (?B ?a ?b ?c ?d ?e ?x)] =>
      let H := fresh in
      assert (H : forall y, proj (B a b c d e y) = proj y) by solve_frame;
      rewrite (H x); clear H
  | |- context [proj (?B ?a ?b ?c ?x)] =>
      let H := fresh in
      assert (H : forall y, proj (B a b c y) = proj y) by solve_frame;
      rewrite (H x); clear H
  | |- context [proj (?B ?a ?b ?x)] =>
      let H := fresh in
      assert (H : forall y, proj (B a b y) = proj y) by solve_frame;
      rewrite (H x); clear H
  | |- context [proj (?B ?a ?x)] =>
      let H := fresh in
      assert (H : forall y, proj (B a y) = proj y) by solve_frame;
      rewrite (H x); clear H
  | |- context [proj (?B ?x)] =>
      let H := fresh in
      assert (H : forall y, proj (B y) = proj y) by solve_frame;
      rewrite (H x); clear H
  end.

Lemma setFinishedStatus_result (f : Folder) :
  _syncResult (setFinishedStatus f) = setStatus (finishedStatus f) (_syncResult f).
Proof.
  unfold setFinishedStatus, finishedStatus.
  destruct (bool_decide (errorStrings (_syncResult f) = [])); simpl.
  - destruct (foundFilesNotSynced (_syncResult f)); [ reflexivity | ].
    destruct (paused (_definition f)); reflexivity.
  - reflexivity.
Qed.

Lemma finishedStatus_emit (ev : Event) (f : Folder) :
  finishedStatus (emit ev f) = finishedStatus f.
Proof. reflexivity. Qed.

Lemma slotSyncFinished_result (unspecified now : Z) (success : bool) (f : Folder) :
  _syncResult (slotSyncFinished unspecified now success f)
  = setStatus (finishedStatus f) (_syncResult f).
Proof.
  unfold slotSyncFinished. cbv zeta.
  frame _syncResult.
  rewrite setFinishedStatus_result, !finishedStatus_emit.
  frame _syncResult. reflexivity.
Qed.

Lemma slotSyncFinished_events (unspecified now : Z) (success : bool) (f : Folder) :
  newEvents f (slotSyncFinished unspecified now success f)
  = [FileLogFinish; ShowSyncResultPopup; EmitSyncStateChange;
     SlotEmitFinishedDelayedIn200ms].
Proof.
  apply newEvents_app.
  unfold slotSyncFinished. cbv zeta.
  frame events. rewrite events_emit.
  frame events. rewrite events_emit.
  frame events. rewrite !events_emit.
  rewrite <- !app_assoc. reflexivity.
Qed.

Lemma slotSyncFinished_failing (unspecified now : Z) (success : bool) (f : Folder) :
  _consecutiveFailingSyncs (slotSyncFinished unspecified now success f)
  = if bool_decide (finishedStatus f = Success) || bool_decide (finishedStatus f = Problem)
    then 0 else wrap_int (_consecutiveFailingSyncs f + 1).
Proof.
  unfold slotSyncFinished. cbv zeta.
  frame _consecutiveFailingSyncs.
  unfold countFailingSyncs.
  rewrite setFinishedStatus_result, !finishedStatus_emit. simpl.
  case_match; simpl; [ reflexivity | ].
  frame _consecutiveFailingSyncs. reflexivity.
Qed.

Lemma slotSyncFinished_journal (unspecified now : Z) (success : bool) (f : Folder) :
  _journal (slotSyncFinished unspecified now success f)
  = if bool_decide (finishedStatus f = Success) && success
    then setSelectiveSyncList SelectiveSyncWhiteList [] (_journal f)
    else _journal f.
Proof.
  unfold slotSyncFinished. cbv zeta.
  frame _journal.
  unfold clearWhiteList.
  frame _syncResult.
  rewrite setFinishedStatus_result, !finishedStatus_emit. simpl.
  case_match; simpl; frame _journal; reflexivity.
Qed.

Lemma slotSyncFinished_counter (unspecified now : Z) (success : bool) (f : Folder) :
  _consecutiveFollowUpSyncs (slotSyncFinished unspecified now success f)
  = if decide (isAnotherSyncNeeded (_engine f) = ImmediateFollowUp)
    then wrap_int (_consecutiveFollowUpSyncs f + 1) else 0.
Proof.
  unfold slotSyncFinished. cbv zeta.
  frame _consecutiveFollowUpSyncs.
  unfold countFollowUpSyncs.
  frame _engine.
  case_decide; simpl; [ | reflexivity ].
  frame _consecutiveFollowUpSyncs. reflexivity.
Qed.

Lemma slotSyncFinished_timer (unspecified now : Z) (success : bool) (f : Folder) :
  _scheduleSelfTimerActive (slotSyncFinished unspecified now success f)
  = _scheduleSelfTimerActive f
    || (bool_decide (isAnotherSyncNeeded (_engine f) = ImmediateFollowUp)
        && (_consecutiveFollowUpSyncs (slotSyncFinished unspecified now success f) <=? 3)).
Proof.
  rewrite slotSyncFinished_counter.
  unfold slotSyncFinished. cbv zeta.
  unfold maybeFollowUp, scheduleThisFolderSoon.
  frame _engine.
  assert (Hc : forall a x,
             _consecutiveFollowUpSyncs (countFollowUpSyncs a x)
             = if decide (a = ImmediateFollowUp)
               then wrap_int (_consecutiveFollowUpSyncs x + 1) else 0).
  { intros a x. unfold countFollowUpSyncs. case_decide; reflexivity. }
  rewrite Hc. clear Hc.
  frame _consecutiveFollowUpSyncs.
  frame _scheduleSelfTimerActive.
  destruct (bool_decide (isAnotherSyncNeeded (_engine f) = ImmediateFollowUp)
            && _) eqn:Hgo.
  - destruct (_scheduleSelfTimerActive f) eqn:Ht; simpl.
    + frame _scheduleSelfTimerActive. exact Ht.
    + reflexivity.
  - frame _scheduleSelfTimerActive. by rewrite orb_false_r.
Qed.

(** C3. After a finished run the status is error exactly when a sync
    error string was recorded; without one it is problem when files were
    found not synced, else paused when the definition is paused, else
    success. A run that ends in problem has no recorded sync error and is
    not counted as failed, and the folder never calls [abort()] on the
    engine for a completed item, failed or not, nor at the end of the
    run. *)
Theorem slotSyncFinished_status
    (instructionValue : SyncInstruction -> Z)
    (processCompletedItem : SyncFileItem -> SyncResult -> SyncResult)
    (unspecified now : Z) (success : bool) (f : Folder) :
  let f' := slotSyncFinished unspecified now success f in
  let r := _syncResult f in
  (status (_syncResult f') = Error <-> errorStrings r <> [])
  /\ (errorStrings r = [] -> foundFilesNotSynced r = true ->
      status (_syncResult f') = Problem)
  /\ (errorStrings r = [] -> foundFilesNotSynced r = false ->
      paused (_definition f) = true -> status (_syncResult f') = Paused)
  /\ (errorStrings r = [] -> foundFilesNotSynced r = false ->
      paused (_definition f) = false -> status (_syncResult f') = Success)
  /\ (status (_syncResult f') = Problem ->
      errorStrings (_syncResult f') = []
      /\ _consecutiveFailingSyncs f' = 0
      /\ EngineAbort ∉ newEvents f f')
  /\ (forall item,
        EngineAbort
        ∉ newEvents f (slotItemCompleted instructionValue processCompletedItem item f)).
Proof.
  intros f' r. subst f' r.
  rewrite slotSyncFinished_result, slotSyncFinished_failing, slotSyncFinished_events.
  unfold finishedStatus. simpl.
  split; [ split | split; [ | split; [ | split; [ | split ] ] ] ].
  - case_bool_decide as He; [ | done ].
    repeat case_match; discriminate.
  - intros He. by rewrite bool_decide_eq_false_2.
  - intros He Hf. by rewrite bool_decide_eq_true_2, Hf.
  - intros He Hf Hp. by rewrite bool_decide_eq_true_2, Hf, Hp.
  - intros He Hf Hp. by rewrite bool_decide_eq_true_2, Hf, Hp.
  - intros Hproblem. split; [ | split ].
    + revert Hproblem. case_bool_decide; [ done | discriminate ].
    + revert Hproblem. repeat case_match; simpl; try discriminate; reflexivity.
    + intros Hin.
      repeat (apply elem_of_cons in Hin as [Hin | Hin]; [ discriminate | ]).
      by apply elem_of_nil in Hin.
  - intros item. unfold slotItemCompleted. case_match.
    + unfold newEvents. rewrite drop_all. apply not_elem_of_nil.
    + erewrite newEvents_app; [ | simpl; by rewrite <- app_assoc ].
      intros Hin. repeat (apply elem_of_cons in Hin as [Hin | Hin]; [ discriminate | ]).
      by apply elem_of_nil in Hin.
Qed.

(** C9. A run that ends with the status success, the engine having
    reported success, resets the selective-sync white list of the journal
    to the empty list and leaves the rest of the journal alone; a run that
    ends in problem, error or paused leaves the journal, and with it the
    white list, as it was. *)
Theorem slotSyncFinished_clears_whitelist
    (unspecified now : Z) (success : bool) (f : Folder) :
  let f' := slotSyncFinished unspecified now success f in
  (status (_syncResult f') = Success -> success = true ->
   selectiveSyncList (_journal f') SelectiveSyncWhiteList = []
   /\ _journal f' = setSelectiveSyncList SelectiveSyncWhiteList [] (_journal f))
  /\ (status (_syncResult f') = Problem \/ status (_syncResult f') = Error
      \/ status (_syncResult f') = Paused ->
      _journal f' = _journal f).
Proof.
  intros f'. subst f'.
  rewrite slotSyncFinished_result, slotSyncFinished_journal. simpl.
  split.
  - intros Hs ->. rewrite bool_decide_eq_true_2 by done. simpl. done.
  - intros Hs. rewrite bool_decide_eq_false_2; [ done | ].
    intros Heq. rewrite Heq in Hs. destruct Hs as [Hs | [Hs | Hs]]; discriminate.
Qed.

(** *** Follow-up syncs *)

Lemma wrap_int_succ (c : Z) : 0 <= c < INT_MAX -> wrap_int (c + 1) = c + 1.
Proof.
  unfold INT_MAX, wrap_int. intros H.
  rewrite Z.mod_small by lia. lia.
Qed.

Lemma followUpTriggered_counter (r : FinishedRun) (f : Folder) :
  followUpTriggered r f = true ->
  _consecutiveFollowUpSyncs (finishRun r f) <= 3.
Proof.
  unfold followUpTriggered, finishRun.
  rewrite slotSyncFinished_timer.
  destruct (_scheduleSelfTimerActive (atFinish r f)); simpl; [ discriminate | ].
  intros H. apply andb_true_iff in H as [_ H]. by apply Z.leb_le.
Qed.

(** Along runs that all ask for a follow-up, the counter grows by one per
    run, and a run triggers a follow-up only while it is at most 3. *)
Lemma followUpsTriggered_bound (rs : list FinishedRun) :
  forall f : Folder,
    Forall requestsFollowUp rs ->
    Forall keepsFollowUpCounter rs ->
    0 <= _consecutiveFollowUpSyncs f ->
    _consecutiveFollowUpSyncs f + Z.of_nat (length rs) <= INT_MAX ->
    Z.of_nat (followUpsTriggered rs f) <= Z.max 0 (3 - _consecutiveFollowUpSyncs f).
Proof.
  induction rs as [ | r rs IH]; intros f Hreq Hkeep H0 Hmax.
  - simpl. lia.
  - apply Forall_cons in Hreq as [Hr Hreq].
    apply Forall_cons in Hkeep as [Hk Hkeep].
    rewrite length_cons, Nat2Z.inj_succ in Hmax.
    assert (Hc : _consecutiveFollowUpSyncs (finishRun r f)
                 = _consecutiveFollowUpSyncs f + 1).
    { unfold finishRun. rewrite slotSyncFinished_counter.
      rewrite decide_True by apply Hr.
      unfold atFinish. rewrite Hk. apply wrap_int_succ. lia. }
    specialize (IH (finishRun r f) Hreq Hkeep).
    rewrite Hc in IH.
    cbn [followUpsTriggered]. rewrite Nat2Z.inj_add.
    destruct (followUpTriggered r f) eqn:Ht.
    + apply followUpTriggered_counter in Ht. rewrite Hc in Ht.
      change (Z.of_nat 1) with 1. lia.
    + change (Z.of_nat 0) with 0. lia.
Qed.

(** C2. A finished run that asks for an immediate follow-up increments
    the counter of consecutive follow-ups, and schedules the folder again
    when the incremented counter is at most 3 and not beyond; any other
    finished run resets the counter to 0 and schedules nothing. Hence,
    along runs that all ask for a follow-up, at most 3 follow-up syncs are
    triggered. The counter is an [int] that has not reached its maximum. *)
Theorem follow_up_syncs_are_capped
    (unspecified now : Z) (success : bool) (f : Folder)
    (Hrange : 0 <= _consecutiveFollowUpSyncs f < INT_MAX) :
  let f' := slotSyncFinished unspecified now success f in
  (isAnotherSyncNeeded (_engine f) = ImmediateFollowUp ->
   _consecutiveFollowUpSyncs f' = _consecutiveFollowUpSyncs f + 1
   /\ (_consecutiveFollowUpSyncs f' <= 3 -> _scheduleSelfTimerActive f' = true)
   /\ (3 < _consecutiveFollowUpSyncs f' ->
       _scheduleSelfTimerActive f' = _scheduleSelfTimerActive f))
  /\ (isAnotherSyncNeeded (_engine f) <> ImmediateFollowUp ->
      _consecutiveFollowUpSyncs f' = 0
      /\ _scheduleSelfTimerActive f' = _scheduleSelfTimerActive f)
  /\ (forall rs : list FinishedRun,
        Forall requestsFollowUp rs ->
        Forall keepsFollowUpCounter rs ->
        _consecutiveFollowUpSyncs f + Z.of_nat (length rs) <= INT_MAX ->
        (followUpsTriggered rs f <= 3)%nat).
Proof.
  intros f'. subst f'.
  rewrite slotSyncFinished_timer, slotSyncFinished_counter.
  repeat split.
  - rewrite decide_True by done. by apply wrap_int_succ.
  - rewrite decide_True by done. rewrite wrap_int_succ by done.
    intros Hle. rewrite bool_decide_eq_true_2 by done.
    apply Z.leb_le in Hle. rewrite Hle. by rewrite orb_true_r.
  - rewrite decide_True by done. rewrite wrap_int_succ by done.
    intros Hlt. apply Z.leb_gt in Hlt. rewrite Hlt.
    by rewrite andb_false_r, orb_false_r.
  - by rewrite decide_False.
  - rewrite bool_decide_eq_false_2 by done. by rewrite orb_false_r.
  - intros rs Hreq Hkeep Hmax.
    pose proof (followUpsTriggered_bound rs f Hreq Hkeep (proj1 Hrange) Hmax).
    lia.
Qed.

Lemma follow_up_syncs_are_capped_witness :
  0 <= _consecutiveFollowUpSyncs sampleFolder < INT_MAX
  /\ _consecutiveFollowUpSyncs (slotSyncFinished 0 2000 true sampleFolder) = 1
  /\ _scheduleSelfTimerActive (slotSyncFinished 0 2000 true sampleFolder) = true
  /\ (followUpsTriggered [sampleRun; sampleRun; sampleRun; sampleRun; sampleRun]
        sampleFolder <= 3)%nat.
Proof.
  assert (Hrange : 0 <= _consecutiveFollowUpSyncs sampleFolder < INT_MAX)
    by (vm_compute; split; [ discriminate | reflexivity ]).
  split; [ exact Hrange | ].
  destruct (follow_up_syncs_are_capped 0 2000 true sampleFolder Hrange)
    as (Hfollow & _ & Hstreak).
  destruct (Hfollow eq_refl) as (Hc & Hs & _).
  split; [ exact Hc | ].
  split; [ apply Hs; rewrite Hc; vm_compute; discriminate | ].
  apply Hstreak.
  - repeat (constructor; [ intros g; reflexivity | ]). constructor.
  - repeat (constructor; [ intros g; reflexivity | ]). constructor.
  - vm_compute. discriminate.
Defined.

(** Five runs in a row ask for a follow-up: the first three get one. *)
Example followUpsTriggered_five_runs :
  followUpsTriggered [sampleRun; sampleRun; sampleRun; sampleRun; sampleRun] sampleFolder
  = 3%nat.
Proof. vm_compute. reflexivity. Qed.

(** *** The start of a run *)

(** On values of a [qint64], a non-negative timeout has expired when
    more time than the timeout has elapsed. *)
Lemma hasExpired_elapsed (unspecified now t0 timeout : Z) :
  0 <= timeout < 2 ^ 63 ->
  0 <= now - t0 < 2 ^ 63 ->
  hasExpired unspecified now (start t0) timeout = (timeout <? now - t0).
Proof.
  intros Ht He. unfold hasExpired, elapsed, to_quint64. simpl.
  rewrite !Z.mod_small by lia. reflexivity.
Qed.

Lemma chooseLocalDiscovery_options
    (startSyncFullDiscovery startSyncPartialDiscovery
       : LocalDiscoveryTracker -> LocalDiscoveryTracker)
    (interval unspecified now : Z) (f : Folder) :
  localDiscoveryOptions
    (_engine (chooseLocalDiscovery startSyncFullDiscovery startSyncPartialDiscovery
                interval unspecified now f))
  = if match _folderWatcher f with Some w => isReliable w | None => false end
       && isValid (_timeSinceLastFullLocalDiscovery f)
       && negb ((0 <=? interval)
                && hasExpired unspecified now (_timeSinceLastFullLocalDiscovery f) interval)
    then (DatabaseAndFilesystem, localDiscoveryPaths (_localDiscoveryTracker f))
    else (FilesystemOnly, ∅).
Proof.
  unfold chooseLocalDiscovery. cbv zeta. case_match; reflexivity.
Qed.

Lemma startSync_runs
    (fillFromEnvironmentVariables verifyChunkSizes : SyncOptions -> SyncOptions)
    (startSyncFullDiscovery startSyncPartialDiscovery
       : LocalDiscoveryTracker -> LocalDiscoveryTracker)
    (cfg : ConfigFile) (interval unspecified now : Z) (f : Folder) :
  Folder_isSyncRunning f = false ->
  let f' := startSync fillFromEnvironmentVariables verifyChunkSizes
              startSyncFullDiscovery startSyncPartialDiscovery
              cfg interval unspecified now true f in
  EngineStartSyncQueued ∈ newEvents f f'
  /\ localDiscoveryOptions (_engine f')
     = localDiscoveryOptions
         (_engine (chooseLocalDiscovery startSyncFullDiscovery startSyncPartialDiscovery
                     interval unspecified now f)).
Proof.
  intros Hidle f'. subst f'. unfold startSync. rewrite Hidle. simpl negb. cbv iota zeta.
  split.
  - erewrite newEvents_app.
    2:{ rewrite !events_emit. unfold passIgnoreHiddenFiles.
        assert (He : forall e x, events (set_engine e x) = events x) by reflexivity.
        rewrite He. clear He.
        frame events. unfold startFileLog. rewrite !events_emit.
        frame events. rewrite <- !app_assoc. reflexivity. }
    set_solver.
  - frame _engine.
    assert (Hp : forall x, localDiscoveryOptions (_engine (passIgnoreHiddenFiles x))
                           = localDiscoveryOptions (_engine x)) by reflexivity.
    rewrite Hp. clear Hp.
    rewrite !chooseLocalDiscovery_options.
    frame _folderWatcher. frame _timeSinceLastFullLocalDiscovery.
    frame _localDiscoveryTracker.
    reflexivity.
Qed.

(** C1. A run that starts (no sync is running and the exclude files
    load) puts the engine into [DatabaseAndFilesystem] discovery, over the
    touched paths, exactly when the watcher exists and is reliable, a full
    local discovery has been done, and the interval of full local
    discoveries is negative or has not been exceeded by the time elapsed
    since the last one; in every other case the engine is put into
    [FilesystemOnly] discovery. The interval and the elapsed time are
    values of a [qint64]. *)
Theorem startSync_local_discovery_mode
    (fillFromEnvironmentVariables verifyChunkSizes : SyncOptions -> SyncOptions)
    (startSyncFullDiscovery startSyncPartialDiscovery
       : LocalDiscoveryTracker -> LocalDiscoveryTracker)
    (cfg : ConfigFile) (interval unspecified now : Z) (f : Folder)
    (Hidle : Folder_isSyncRunning f = false)
    (Hinterval : - 2 ^ 63 <= interval < 2 ^ 63)
    (Hclock : forall t0, startedAt (_timeSinceLastFullLocalDiscovery f) = Some t0 ->
                         0 <= now - t0 < 2 ^ 63) :
  let f' := startSync fillFromEnvironmentVariables verifyChunkSizes
              startSyncFullDiscovery startSyncPartialDiscovery
              cfg interval unspecified now true f in
  let watcherReliable :=
    exists w, _folderWatcher f = Some w /\ isReliable w = true in
  let fullDiscoveryRecent :=
    exists t0, startedAt (_timeSinceLastFullLocalDiscovery f) = Some t0
               /\ (interval < 0 \/ now - t0 <= interval) in
  EngineStartSyncQueued ∈ newEvents f f'
  /\ (watcherReliable /\ fullDiscoveryRecent ->
      localDiscoveryOptions (_engine f')
      = (DatabaseAndFilesystem, localDiscoveryPaths (_localDiscoveryTracker f)))
  /\ (~ (watcherReliable /\ fullDiscoveryRecent) ->
      localDiscoveryOptions (_engine f') = (FilesystemOnly, ∅)).
Proof.
  intros f' watcherReliable fullDiscoveryRecent.
  destruct (startSync_runs fillFromEnvironmentVariables verifyChunkSizes
              startSyncFullDiscovery startSyncPartialDiscovery
              cfg interval unspecified now f Hidle) as [Hev Hopt].
  fold f' in Hev, Hopt. split; [ exact Hev | ].
  rewrite Hopt, chooseLocalDiscovery_options.
  subst watcherReliable fullDiscoveryRecent.
  destruct (_timeSinceLastFullLocalDiscovery f) as [[t0 | ]] eqn:Htimer; simpl in Hclock.
  - specialize (Hclock t0 eq_refl).
    change {| startedAt := Some t0 |} with (start t0).
    unfold isValid. simpl startedAt. cbv iota.
    destruct (Z.leb_spec 0 interval) as [Hpos | Hneg].
    + rewrite hasExpired_elapsed by lia. simpl.
      destruct (Z.ltb_spec interval (now - t0)) as [Hexp | Hnot]; simpl.
      * rewrite andb_false_r. split.
        -- intros [_ (t & [= <-] & Hrec)]. lia.
        -- reflexivity.
      * rewrite andb_true_r. split.
        -- intros [(w & -> & ->) _]. reflexivity.
        -- intros Hn. destruct (_folderWatcher f) as [w | ]; [ | reflexivity ].
           destruct (isReliable w) eqn:Hw; [ | reflexivity ].
           exfalso. apply Hn. split; [ by exists w | ].
           exists t0. split; [ reflexivity | lia ].
    + simpl. rewrite andb_true_r. split.
      * intros [(w & -> & ->) _]. reflexivity.
      * intros Hn. destruct (_folderWatcher f) as [w | ]; [ | reflexivity ].
        destruct (isReliable w) eqn:Hw; [ | reflexivity ].
        exfalso. apply Hn. split; [ by exists w | ].
        exists t0. split; [ reflexivity | lia ].
  - unfold isValid. simpl. rewrite andb_false_r. simpl. split.
    + intros [_ (t & [=] & _)].
    + reflexivity.
Qed.

Lemma startSync_local_discovery_mode_witness :
  Folder_isSyncRunning sampleFolder = false
  /\ - 2 ^ 63 <= 3600000 < 2 ^ 63
  /\ (forall t0, startedAt (_timeSinceLastFullLocalDiscovery sampleFolder) = Some t0 ->
                 0 <= 2000 - t0 < 2 ^ 63)
  /\ localDiscoveryOptions
       (_engine (startSync id id id id sampleConfig 3600000 0 2000 true sampleFolder))
     = (DatabaseAndFilesystem, localDiscoveryPaths (_localDiscoveryTracker sampleFolder)).
Proof.
  assert (Hidle : Folder_isSyncRunning sampleFolder = false) by reflexivity.
  assert (Hinterval : - 2 ^ 63 <= 3600000 < 2 ^ 63) by lia.
  assert (Hclock : forall t0,
             startedAt (_timeSinceLastFullLocalDiscovery sampleFolder) = Some t0 ->
             0 <= 2000 - t0 < 2 ^ 63).
  { intros t0 [= <-]. lia. }
  split; [ exact Hidle | ]. split; [ exact Hinterval | ]. split; [ exact Hclock | ].
  destruct (startSync_local_discovery_mode id id id id sampleConfig 3600000 0 2000
              sampleFolder Hidle Hinterval Hclock) as (_ & Hdb & _).
  apply Hdb. split.
  - eexists. split; reflexivity.
  - exists 500. split; [ reflexivity | lia ].
Defined.

(** *** Paths and their parents *)

Lemma lastIndexOf_range (s : string) (c : ascii) :
  -1 <= lastIndexOf s c < QString_size s.
Proof.
  unfold QString_size. induction s as [ | a s IH]; simpl String.length.
  - simpl. lia.
  - cbn [lastIndexOf]. rewrite Nat2Z.inj_succ.
    destruct (Z.leb_spec 0 (lastIndexOf s c)); [ lia | ].
    destruct (Ascii.eqb a c); lia.
Qed.

Lemma left_String (a : ascii) (s : string) (r : Z) :
  0 <= r -> left (String a s) (r + 1) = String a (left s r).
Proof.
  intros Hr. unfold left.
  destruct (Z.ltb_spec (r + 1) 0); [ lia | ].
  destruct (Z.ltb_spec r 0); [ lia | ].
  replace (Z.to_nat (r + 1)) with (S (Z.to_nat r)) by lia.
  reflexivity.
Qed.

Lemma left_0 (s : string) : left s 0 = "".
Proof. unfold left. simpl. destruct s; reflexivity. Qed.

Lemma length_left (s : string) (i : Z) :
  0 <= i < QString_size s -> (String.length (left s i) < String.length s)%nat.
Proof.
  unfold QString_size, left. intros Hi.
  destruct (Z.ltb_spec i 0); [ lia | ].
  assert (Hn : (Z.to_nat i < String.length s)%nat) by lia.
  revert Hn. generalize (Z.to_nat i) as n. clear.
  induction s as [ | a s IH]; intros n Hn; simpl in *; [ lia | ].
  destruct n; simpl; [ lia | ].
  specialize (IH n). lia.
Qed.

(** The last slash of [p ++ "/" ++ rest] cuts it at [p], or further to
    the right. *)
Lemma lastIndexOf_parent (p rest : string) (c : ascii) :
  let s := (p ++ String c rest)%string in
  0 <= lastIndexOf s c
  /\ (left s (lastIndexOf s c) = p
      \/ exists rest', left s (lastIndexOf s c) = (p ++ String c rest')%string).
Proof.
  induction p as [ | a p IH]; cbn zeta.
  - change ("" ++ String c rest)%string with (String c rest).
    cbn [lastIndexOf]. rewrite Ascii.eqb_refl.
    pose proof (lastIndexOf_range rest c) as Hr.
    destruct (Z.leb_spec 0 (lastIndexOf rest c)).
    + split; [ lia | ]. right. exists (left rest (lastIndexOf rest c)).
      by rewrite left_String.
    + split; [ lia | ]. left. apply left_0.
  - cbn zeta in IH. destruct IH as [H0 IH].
    change (String a p ++ String c rest)%string with (String a (p ++ String c rest)).
    cbn [lastIndexOf].
    destruct (Z.leb_spec 0 (lastIndexOf (p ++ String c rest) c)); [ | lia ].
    split; [ lia | ]. rewrite left_String by done.
    destruct IH as [-> | [rest' ->]]; [ by left | ].
    right. by exists rest'.
Qed.

Lemma length_append (s t : string) :
  String.length (s ++ t) = (String.length s + String.length t)%nat.
Proof. induction s as [ | a s IH]; simpl; [ done | by rewrite IH ]. Qed.

(** *** The error blacklist on an unlock *)

Lemma errorBlacklist_wipeEntry (p q : string) (j : SyncJournalDb) :
  errorBlacklist (wipeErrorBlacklistEntry p j) !! q
  = if decide (p = q) then None else errorBlacklist j !! q.
Proof.
  unfold wipeErrorBlacklistEntry. simpl. apply lookup_delete.
Qed.

Lemma wipeParent_lookup (p q : string) (j : SyncJournalDb) :
  errorBlacklist (wipeParent p j) !! q
  = match errorBlacklist j !! q with
    | Some rec =>
        if decide (p = q /\ _errorCategory rec = LocalSoftError) then None else Some rec
    | None => None
    end.
Proof.
  unfold wipeParent, errorBlacklistEntry.
  destruct (decide (p = q)) as [-> | Hne].
  - destruct (errorBlacklist j !! q) as [rec | ] eqn:Hq; [ | by rewrite Hq ].
    destruct (decide (_errorCategory rec = LocalSoftError)) as [Hc | Hc].
    + rewrite errorBlacklist_wipeEntry, decide_True by done.
      by rewrite decide_True.
    + rewrite Hq. rewrite decide_False; [ done | ]. by intros [_ ?].
  - assert (Hsame : errorBlacklist
                      match errorBlacklist j !! p with
                      | Some rec =>
                          if decide (_errorCategory rec = LocalSoftError)
                          then wipeErrorBlacklistEntry p j else j
                      | None => j
                      end !! q = errorBlacklist j !! q).
    { repeat case_match; try done.
      by rewrite errorBlacklist_wipeEntry, decide_False. }
    rewrite Hsame. destruct (errorBlacklist j !! q); [ | done ].
    rewrite decide_False; [ done | ]. by intros [? _].
Qed.

Lemma wipeParents_fuel_S (n : nat) (p : string) (j : SyncJournalDb) :
  wipeParents_fuel (S n) p j
  = if negb (lastIndexOf p "/" =? -1)
    then wipeParents_fuel n (left p (lastIndexOf p "/"))
           (wipeParent (left p (lastIndexOf p "/")) j)
    else j.
Proof. reflexivity. Qed.

(** The loop only removes entries, and only soft errors. *)
Lemma wipeParents_fuel_lookup (n : nat) :
  forall (p q : string) (j : SyncJournalDb),
    errorBlacklist (wipeParents_fuel n p j) !! q = None
    \/ errorBlacklist (wipeParents_fuel n p j) !! q = errorBlacklist j !! q.
Proof.
  induction n as [ | n IH]; intros p q j; [ by right | ].
  rewrite wipeParents_fuel_S. case_match; [ | by right ].
  destruct (IH (left p (lastIndexOf p "/")) q
              (wipeParent (left p (lastIndexOf p "/")) j)) as [HN | Heq];
    [ by left | ].
  rewrite Heq, wipeParent_lookup.
  destruct (errorBlacklist j !! q); [ | by left ].
  case_decide; [ by left | by right ].
Qed.

Lemma wipeParents_fuel_keeps (n : nat) :
  forall (p q : string) (j : SyncJournalDb) (rec : SyncJournalErrorBlacklistRecord),
    errorBlacklist j !! q = Some rec ->
    _errorCategory rec <> LocalSoftError ->
    errorBlacklist (wipeParents_fuel n p j) !! q = Some rec.
Proof.
  induction n as [ | n IH]; intros p q j rec Hq Hc; [ done | ].
  rewrite wipeParents_fuel_S. case_match; [ | done ].
  apply IH; [ | done ].
  rewrite wipeParent_lookup, Hq. rewrite decide_False; [ done | ]. by intros [_ ?].
Qed.

Lemma wipeParents_fuel_rest (n : nat) :
  forall (p : string) (j : SyncJournalDb),
    queryFails (wipeParents_fuel n p j) = queryFails j
    /\ selectiveSyncList (wipeParents_fuel n p j) = selectiveSyncList j
    /\ fileRecords (wipeParents_fuel n p j) = fileRecords j.
Proof.
  induction n as [ | n IH]; intros p j; [ done | ].
  rewrite wipeParents_fuel_S. case_match; [ | done ].
  destruct (IH (left p (lastIndexOf p "/"))
              (wipeParent (left p (lastIndexOf p "/")) j)) as (-> & -> & ->).
  unfold wipeParent. repeat case_match; done.
Qed.

(** Every parent of [p] that holds a soft error loses it. *)
Lemma wipeParents_fuel_wipes (n : nat) :
  forall (p q rest : string) (j : SyncJournalDb) (rec : SyncJournalErrorBlacklistRecord),
    (String.length p <= n)%nat ->
    p = (q ++ "/" ++ rest)%string ->
    errorBlacklist j !! q = Some rec ->
    _errorCategory rec = LocalSoftError ->
    errorBlacklist (wipeParents_fuel n p j) !! q = None.
Proof.
  induction n as [ | n IH]; intros p q rest j rec Hn Hp Hq Hc.
  - subst p. destruct q; simpl in Hn; lia.
  - rewrite wipeParents_fuel_S.
    pose proof (lastIndexOf_parent q rest "/") as Hlast. cbn zeta in Hlast.
    change (q ++ String "/" rest)%string with (q ++ "/" ++ rest)%string in Hlast.
    rewrite <- Hp in Hlast. destruct Hlast as [Hidx Hcut].
    pose proof (lastIndexOf_range p "/") as Hrange.
    destruct (Z.eqb_spec (lastIndexOf p "/") (-1)) as [ | _]; [ lia | ]. simpl negb.
    cbv iota.
    assert (Hshort : (String.length (left p (lastIndexOf p "/")) <= n)%nat).
    { pose proof (length_left p (lastIndexOf p "/")). lia. }
    destruct Hcut as [Hcut | [rest' Hcut]].
    + destruct (wipeParents_fuel_lookup n (left p (lastIndexOf p "/")) q
                  (wipeParent (left p (lastIndexOf p "/")) j)) as [HN | Heq];
        [ done | ].
      rewrite Heq, wipeParent_lookup, Hq. by rewrite decide_True.
    + eapply IH; [ exact Hshort | exact Hcut | | exact Hc ].
      rewrite wipeParent_lookup, Hq. rewrite decide_False; [ done | ].
      intros [Heq _]. rewrite Hcut in Heq.
      apply (f_equal String.length) in Heq.
      rewrite length_append in Heq. simpl in Heq. lia.
Qed.

(** The fuel [wipeParents] gives to the loop is enough: the loop obeys
    the equation of the source. *)
Lemma wipeParents_fuel_enough (n m : nat) :
  forall (p : string) (j : SyncJournalDb),
    (String.length p <= n)%nat -> (String.length p <= m)%nat ->
    wipeParents_fuel n p j = wipeParents_fuel m p j.
Proof.
  revert m. induction n as [ | n IH]; intros m p j Hn Hm.
  - destruct p; simpl in Hn; [ | lia ]. destruct m; reflexivity.
  - destruct m as [ | m].
    + destruct p; simpl in Hm; [ | lia ]. reflexivity.
    + rewrite !wipeParents_fuel_S.
      pose proof (lastIndexOf_range p "/") as Hrange.
      destruct (Z.eqb_spec (lastIndexOf p "/") (-1)) as [ | Hne]; [ done | ].
      simpl negb. cbv iota.
      pose proof (length_left p (lastIndexOf p "/")).
      apply IH; lia.
Qed.

Lemma wipeParents_step (p : string) (j : SyncJournalDb) :
  wipeParents p j
  = if negb (lastIndexOf p "/" =? -1)
    then wipeParents (left p (lastIndexOf p "/"))
           (wipeParent (left p (lastIndexOf p "/")) j)
    else j.
Proof.
  unfold wipeParents.
  destruct p as [ | a p].
  - reflexivity.
  - cbn [String.length]. rewrite wipeParents_fuel_S.
    pose proof (lastIndexOf_range (String a p) "/") as Hrange.
    destruct (Z.eqb_spec (lastIndexOf (String a p) "/") (-1)) as [ | Hne]; [ done | ].
    simpl negb. cbv iota.
    pose proof (length_left (String a p) (lastIndexOf (String a p) "/")) as Hlen.
    cbn [String.length] in Hlen.
    apply wipeParents_fuel_enough; lia.
Qed.

Lemma wipeCategory_is_wipeParent (p : string) (j : SyncJournalDb) :
  wipeErrorBlacklistEntryCategory p LocalSoftError j = wipeParent p j.
Proof. reflexivity. Qed.

Lemma notifyAndSchedule_journal (fileInfo : string -> option bool)
    (record : option SyncJournalFileRecord) (changedPath relativePath : string)
    (f : Folder) :
  _journal (notifyAndSchedule fileInfo record changedPath relativePath f) = _journal f.
Proof.
  unfold notifyAndSchedule, scheduleThisFolderSoon, warnOnNewExcludedItem.
  cbv zeta. repeat case_match; reflexivity.
Qed.

Lemma slotWatchedPathChanged_unlock_journal
    (isChildPathOf : string -> string -> bool) (Q_OS_MAC : bool)
    (fileChanged : string -> Z -> Z -> bool) (fileInfo : string -> option bool)
    (changedPath : string) (f : Folder) :
  isChildPathOf changedPath (path f) = true ->
  _journal (slotWatchedPathChanged isChildPathOf Q_OS_MAC fileChanged fileInfo
              changedPath UnLock f)
  = wipeParents (mid changedPath (QString_size (path f)))
      (wipeParent (mid changedPath (QString_size (path f))) (_journal f)).
Proof.
  intros Hchild. unfold slotWatchedPathChanged. rewrite Hchild. simpl negb.
  cbv iota zeta. rewrite decide_True by done.
  repeat case_match; rewrite ?notifyAndSchedule_journal; reflexivity.
Qed.

(** C6. For a path inside the folder, a notification with the reason
    unlock removes the error blacklist entry of the path when it is a
    soft local error, and the entry of every parent directory of the path
    that is a soft local error; entries of other categories stay. A
    folder constructed on a local path that is a readable and writable
    directory, with a journal that opens, has no soft local error left in
    its journal, and keeps the entries of other categories. *)
Theorem unlock_wipes_soft_local_errors
    (isChildPathOf : string -> string -> bool) (Q_OS_MAC : bool)
    (fileChanged : string -> Z -> Z -> bool) (fileInfo : string -> option bool)
    (changedPath : string) (f : Folder)
    (Hchild : isChildPathOf changedPath (path f) = true) :
  let relativePath := mid changedPath (QString_size (path f)) in
  let blacklist := errorBlacklist (_journal f) in
  let blacklist' :=
    errorBlacklist
      (_journal (slotWatchedPathChanged isChildPathOf Q_OS_MAC fileChanged fileInfo
                   changedPath UnLock f)) in
  (forall rec, blacklist !! relativePath = Some rec ->
               _errorCategory rec = LocalSoftError ->
               blacklist' !! relativePath = None)
  /\ (forall parent rest rec,
        relativePath = (parent ++ "/" ++ rest)%string ->
        blacklist !! parent = Some rec ->
        _errorCategory rec = LocalSoftError ->
        blacklist' !! parent = None)
  /\ (forall q rec, blacklist !! q = Some rec ->
                    _errorCategory rec <> LocalSoftError ->
                    blacklist' !! q = Some rec)
  /\ (forall fi now definition accountState vfs journal engine,
        isDir fi = true -> isReadable fi = true -> isWritable fi = true ->
        exists f0,
          Folder_new fi true now definition accountState vfs journal engine = Ready f0
          /\ (forall q rec, errorBlacklist (_journal f0) !! q = Some rec ->
                            _errorCategory rec <> LocalSoftError)
          /\ (forall q rec, errorBlacklist journal !! q = Some rec ->
                            _errorCategory rec <> LocalSoftError ->
                            errorBlacklist (_journal f0) !! q = Some rec)).
Proof.
  intros relativePath blacklist blacklist'. subst blacklist blacklist'.
  rewrite slotWatchedPathChanged_unlock_journal by done. fold relativePath.
  unfold wipeParents.
  split; [ | split; [ | split ] ].
  - intros rec Hq Hc.
    destruct (wipeParents_fuel_lookup (String.length relativePath) relativePath
                relativePath (wipeParent relativePath (_journal f))) as [HN | Heq];
      [ done | ].
    rewrite Heq, wipeParent_lookup, Hq. by rewrite decide_True.
  - intros parent rest rec Hp Hq Hc.
    eapply wipeParents_fuel_wipes; [ done | exact Hp | | exact Hc ].
    rewrite wipeParent_lookup, Hq. rewrite decide_False; [ done | ].
    intros [Heq _]. rewrite Hp in Heq at 1.
    apply (f_equal String.length) in Heq.
    rewrite length_append in Heq. simpl in Heq. lia.
  - intros q rec Hq Hc.
    apply wipeParents_fuel_keeps; [ | done ].
    rewrite wipeParent_lookup, Hq. rewrite decide_False; [ done | ]. by intros [_ ?].
  - intros fi now definition accountState vfs journal engine Hd Hr Hw.
    unfold Folder_new, checkLocalPath. rewrite Hd, Hr, Hw. simpl.
    eexists. split; [ reflexivity | ]. simpl. split.
    + intros q rec Hq. apply map_lookup_filter_Some in Hq as [_ Hc]. exact Hc.
    + intros q rec Hq Hc. by apply map_lookup_filter_Some.
Qed.

Lemma unlock_wipes_soft_local_errors_witness :
  startsWithParent sampleChangedPath (path sampleFolder) = true
  /\ errorBlacklist (_journal sampleUnlocked) !! "docs/reports/q3.ods" = None
  /\ errorBlacklist (_journal sampleUnlocked) !! "docs/reports" = None
  /\ errorBlacklist (_journal sampleUnlocked) !! "docs" = Some normalError.
Proof.
  unfold sampleUnlocked. set (changedPath := sampleChangedPath).
  assert (Hchild : startsWithParent changedPath (path sampleFolder) = true)
    by reflexivity.
  split; [ exact Hchild | ].
  destruct (unlock_wipes_soft_local_errors startsWithParent false
              (fun _ _ _ => true) (fun _ => None) changedPath sampleFolder Hchild)
    as (Hself & Hparents & Hkeep & _).
  split; [ | split ].
  - apply (Hself softError); reflexivity.
  - apply (Hparents "docs/reports" "q3.ods" softError); reflexivity.
  - apply (Hkeep "docs" normalError); [ reflexivity | discriminate ].
Defined.

(** *** A big folder *)

Lemma endsWith_append_slash (s : string) : endsWith (s ++ "/") "/" = true.
Proof.
  induction s as [ | a s IH]; [ reflexivity | ].
  change (String a s ++ "/")%string with (String a (s ++ "/")).
  destruct (s ++ "/")%string eqn:Happ.
  - destruct s; discriminate.
  - exact IH.
Qed.

Lemma endsWith_withTrailingSlash (newF : string) :
  endsWith (withTrailingSlash newF) "/" = true.
Proof.
  unfold withTrailingSlash. destruct (endsWith newF "/") eqn:He; simpl.
  - exact He.
  - apply endsWith_append_slash.
Qed.

Lemma contains_true (l : list string) (s : string) : contains l s = true <-> s ∈ l.
Proof. unfold contains. apply bool_decide_eq_true. Qed.

Lemma contains_false (l : list string) (s : string) : contains l s = false <-> s ∉ l.
Proof. unfold contains. apply bool_decide_eq_false. Qed.

(** C4, as the code has it. When the journal answers its queries, the
    path of a newly discovered big folder, with its trailing slash, is
    appended to the undecided list if it is not there yet, and the
    new-big-folder event is raised in that case and in no other. *)
Theorem slotNewBigFolderDiscovered_undecided
    (cfg : ConfigFile) (newF : string) (isExternal : bool) (f : Folder)
    (Hquery : queryFails (_journal f) = false) :
  endsWith (withTrailingSlash newF) "/" = true
  /\ bigFolderRule f (slotNewBigFolderDiscovered cfg newF isExternal f) newF.
Proof.
  split; [ apply endsWith_withTrailingSlash | ].
  unfold bigFolderRule, slotNewBigFolderDiscovered, getSelectiveSyncList.
  cbv zeta. rewrite Hquery. simpl queryFails.
  set (newFolder := withTrailingSlash newF).
  set (j1 := if _ : bool then _ else _journal f).
  assert (Hq1 : queryFails j1 = false).
  { subst j1. by case_match. }
  assert (Hu1 : selectiveSyncList j1 SelectiveSyncUndecidedList
                = selectiveSyncList (_journal f) SelectiveSyncUndecidedList).
  { subst j1. by case_match. }
  rewrite Hq1, Hu1.
  set (undecided := selectiveSyncList (_journal f) SelectiveSyncUndecidedList).
  split.
  - intros Hnew. apply contains_false in Hnew. rewrite Hnew. simpl negb. cbv iota.
    split; [ reflexivity | ].
    erewrite newEvents_app; [ | simpl; by rewrite <- app_assoc ].
    set_solver.
  - intros Hold. apply contains_true in Hold. rewrite Hold. simpl negb. cbv iota.
    split; [ exact Hu1 | ].
    erewrite newEvents_app; [ | reflexivity ].
    intros Hin. apply elem_of_cons in Hin as [Hin | Hin]; [ discriminate | ].
    by apply elem_of_nil in Hin.
Qed.

Lemma slotNewBigFolderDiscovered_undecided_witness :
  queryFails (_journal sampleFolder) = false
  /\ endsWith (withTrailingSlash "big") "/" = true
  /\ bigFolderRule sampleFolder
       (slotNewBigFolderDiscovered sampleConfig "big" false sampleFolder) "big".
Proof.
  split; [ reflexivity | ].
  apply (slotNewBigFolderDiscovered_undecided sampleConfig "big" false sampleFolder).
  reflexivity.
Defined.

(** C4, as the spec words it, fails: when the journal cannot be queried
    the big folder is not added to the undecided list. *)
Lemma bigFolderRule_fails_when_journal_query_fails :
  ~ bigFolderRule folderWithFailingJournal
      (slotNewBigFolderDiscovered sampleConfig "big" false folderWithFailingJournal)
      "big".
Proof.
  intros [Hadd _].
  destruct Hadd as [Hlist _].
  - apply not_elem_of_nil.
  - vm_compute in Hlist. discriminate.
Qed.

(** *** A watcher notification *)

Lemma notifyAndSchedule_timer (fileInfo : string -> option bool)
    (record : option SyncJournalFileRecord) (changedPath relativePath : string)
    (f : Folder) :
  _scheduleSelfTimerActive (notifyAndSchedule fileInfo record changedPath relativePath f)
  = true.
Proof.
  unfold notifyAndSchedule, scheduleThisFolderSoon. cbv zeta.
  destruct (_scheduleSelfTimerActive (emit _ _)) eqn:Ht; simpl; [ exact Ht | reflexivity ].
Qed.

Lemma notifyAndSchedule_tracker (fileInfo : string -> option bool)
    (record : option SyncJournalFileRecord) (changedPath relativePath : string)
    (f : Folder) :
  _localDiscoveryTracker (notifyAndSchedule fileInfo record changedPath relativePath f)
  = _localDiscoveryTracker f.
Proof.
  unfold notifyAndSchedule, scheduleThisFolderSoon, warnOnNewExcludedItem.
  cbv zeta. repeat case_match; reflexivity.
Qed.

Lemma notifyAndSchedule_events (fileInfo : string -> option bool)
    (record : option SyncJournalFileRecord) (changedPath relativePath : string)
    (f : Folder) :
  EmitWatchedFileChangedExternally changedPath
  ∈ newEvents f (notifyAndSchedule fileInfo record changedPath relativePath f).
Proof.
  unfold notifyAndSchedule, scheduleThisFolderSoon, warnOnNewExcludedItem.
  cbv zeta.
  repeat case_match;
    (erewrite newEvents_app; [ | simpl; rewrite <- ?app_assoc; reflexivity ]);
    set_solver.
Qed.

(** What the slot does with a notification inside the folder, by the
    two tests that end it early. *)
Lemma slotWatchedPathChanged_cases
    (isChildPathOf : string -> string -> bool) (Q_OS_MAC : bool)
    (fileChanged : string -> Z -> Z -> bool) (fileInfo : string -> option bool)
    (changedPath : string) (reason : ChangeReason) (f : Folder) :
  isChildPathOf changedPath (path f) = true ->
  let relativePath := mid changedPath (QString_size (path f)) in
  let f1 := touchPath relativePath
              (if decide (reason = UnLock)
               then wipeSoftErrorsOnUnlock relativePath f else f) in
  let ownChange := negb Q_OS_MAC && wasFileTouched (_engine f) changedPath in
  let spurious :=
    bool_decide (reason <> UnLock)
    && spuriousNotification fileChanged (_vfs f)
         (getFileRecord (_journal f) relativePath) changedPath relativePath in
  slotWatchedPathChanged isChildPathOf Q_OS_MAC fileChanged fileInfo changedPath reason f
  = if ownChange || spurious then f1
    else notifyAndSchedule fileInfo (getFileRecord (_journal f1) relativePath)
           changedPath relativePath f1.
Proof.
  intros Hchild relativePath f1 ownChange spurious.
  unfold slotWatchedPathChanged. rewrite Hchild. simpl negb. cbv iota zeta.
  fold relativePath. fold f1.
  assert (He : _engine f1 = _engine f).
  { subst f1. case_decide; reflexivity. }
  assert (Hv : _vfs f1 = _vfs f).
  { subst f1. case_decide; reflexivity. }
  assert (Hr : bool_decide (reason <> UnLock)
               && spuriousNotification fileChanged (_vfs f1)
                    (getFileRecord (_journal f1) relativePath) changedPath relativePath
               = spurious).
  { subst spurious. rewrite Hv. case_bool_decide as Hreason; [ | reflexivity ].
    subst f1. rewrite decide_False by done. reflexivity. }
  rewrite He, Hr. fold ownChange.
  destruct ownChange, spurious; reflexivity.
Qed.

(** C5, as the code has it. A watcher notification with a path inside
    the sync root adds the path, relative to the root, to the touched
    paths of the local discovery: the touched paths afterwards are those
    before and the path. It schedules the folder and announces
    the change unless the engine itself touched the path (in a build that
    is not for macOS) or the notification is spurious (its reason is not
    an unlock and the file has, by its journal record, not changed); it
    then ends without scheduling and without an event. *)
Theorem slotWatchedPathChanged_touches_and_schedules
    (isChildPathOf : string -> string -> bool) (Q_OS_MAC : bool)
    (fileChanged : string -> Z -> Z -> bool) (fileInfo : string -> option bool)
    (changedPath : string) (reason : ChangeReason) (f : Folder)
    (Hchild : isChildPathOf changedPath (path f) = true) :
  let f' := slotWatchedPathChanged isChildPathOf Q_OS_MAC fileChanged fileInfo
              changedPath reason f in
  let relativePath := mid changedPath (QString_size (path f)) in
  let ownChange := negb Q_OS_MAC && wasFileTouched (_engine f) changedPath in
  let spurious :=
    bool_decide (reason <> UnLock)
    && spuriousNotification fileChanged (_vfs f)
         (getFileRecord (_journal f) relativePath) changedPath relativePath in
  touchedRule f f' changedPath
  /\ (ownChange = false -> spurious = false ->
      scheduledRule f'
      /\ EmitWatchedFileChangedExternally changedPath ∈ newEvents f f')
  /\ (ownChange = true \/ spurious = true ->
      _scheduleSelfTimerActive f' = _scheduleSelfTimerActive f
      /\ newEvents f f' = []).
Proof.
  intros f' relativePath ownChange spurious. subst f'.
  rewrite (slotWatchedPathChanged_cases isChildPathOf Q_OS_MAC fileChanged fileInfo
             changedPath reason f Hchild).
  cbv zeta. fold relativePath. fold ownChange. fold spurious.
  set (f1 := touchPath relativePath _).
  assert (Ht : localDiscoveryPaths (_localDiscoveryTracker f1)
               = {[ relativePath ]} ∪ localDiscoveryPaths (_localDiscoveryTracker f)).
  { subst f1. case_decide; reflexivity. }
  assert (Hev : events f1 = events f).
  { subst f1. case_decide; reflexivity. }
  assert (Htimer : _scheduleSelfTimerActive f1 = _scheduleSelfTimerActive f).
  { subst f1. case_decide; reflexivity. }
  unfold touchedRule, scheduledRule. fold relativePath.
  split; [ | split ].
  - destruct (ownChange || spurious); [ exact Ht | ].
    by rewrite notifyAndSchedule_tracker.
  - intros -> ->. simpl. split; [ apply notifyAndSchedule_timer | ].
    pose proof (notifyAndSchedule_events fileInfo
                  (getFileRecord (_journal f1) relativePath) changedPath relativePath f1)
      as Hin.
    unfold newEvents in *. by rewrite <- Hev.
  - intros Hor.
    assert (Hb : ownChange || spurious = true).
    { destruct Hor as [-> | ->]; [ reflexivity | apply orb_true_r ]. }
    rewrite Hb. split; [ exact Htimer | ].
    apply newEvents_app. rewrite Hev. by rewrite app_nil_r.
Qed.

Lemma slotWatchedPathChanged_touches_and_schedules_witness :
  startsWithParent sampleChangedPath (path sampleFolder) = true
  /\ touchedRule sampleFolder sampleNotified sampleChangedPath
  /\ scheduledRule sampleNotified.
Proof.
  assert (Hchild : startsWithParent sampleChangedPath (path sampleFolder) = true)
    by reflexivity.
  split; [ exact Hchild | ].
  destruct (slotWatchedPathChanged_touches_and_schedules startsWithParent false
              (fun _ _ _ => true) (fun _ => None) sampleChangedPath Other sampleFolder
              Hchild) as (Htouched & Hscheduled & _).
  split; [ exact Htouched | ].
  apply Hscheduled; reflexivity.
Defined.

(** C5, as the spec words it, fails: a notification for a file that the
    running engine touched adds the path to the touched paths and
    schedules nothing. *)
Lemma notification_of_own_change_schedules_nothing :
  ~ (startsWithParent sampleChangedPath (path folderWithBusyEngine) = true ->
     touchedRule folderWithBusyEngine
       (slotWatchedPathChanged startsWithParent false (fun _ _ _ => true)
          (fun _ => None) sampleChangedPath Other folderWithBusyEngine)
       sampleChangedPath
     /\ scheduledRule
          (slotWatchedPathChanged startsWithParent false (fun _ _ _ => true)
             (fun _ => None) sampleChangedPath Other folderWithBusyEngine)).
Proof.
  intros H. destruct (H eq_refl) as [_ Hs].
  vm_compute in Hs. discriminate.
Qed.

(** *** Full local discoveries *)

Lemma startSync_after_lost_changes_aux
    (fillFromEnvironmentVariables verifyChunkSizes : SyncOptions -> SyncOptions)
    (startSyncFullDiscovery startSyncPartialDiscovery
       : LocalDiscoveryTracker -> LocalDiscoveryTracker)
    (cfg : ConfigFile) (interval unspecified now : Z) (f : Folder) :
  isValid (_timeSinceLastFullLocalDiscovery f) = false ->
  Folder_isSyncRunning f = false ->
  localDiscoveryOptions
    (_engine (startSync fillFromEnvironmentVariables verifyChunkSizes
                startSyncFullDiscovery startSyncPartialDiscovery
                cfg interval unspecified now true f))
  = (FilesystemOnly, ∅).
Proof.
  intros Hinvalid Hidle.
  destruct (startSync_runs fillFromEnvironmentVariables verifyChunkSizes
              startSyncFullDiscovery startSyncPartialDiscovery
              cfg interval unspecified now f Hidle) as [_ ->].
  rewrite chooseLocalDiscovery_options, Hinvalid.
  by rewrite andb_false_r.
Qed.

(** X1. Once the watcher has reported lost changes
    ([slotNextSyncFullLocalDiscovery]), the next run that starts reads
    the whole file system: the engine gets [FilesystemOnly] and no
    touched paths, whatever the watcher, the interval and the clock. *)
Theorem lost_changes_force_full_discovery
    (fillFromEnvironmentVariables verifyChunkSizes : SyncOptions -> SyncOptions)
    (startSyncFullDiscovery startSyncPartialDiscovery
       : LocalDiscoveryTracker -> LocalDiscoveryTracker)
    (cfg : ConfigFile) (interval unspecified now : Z) (f : Folder)
    (Hidle : Folder_isSyncRunning f = false) :
  localDiscoveryOptions
    (_engine (startSync fillFromEnvironmentVariables verifyChunkSizes
                startSyncFullDiscovery startSyncPartialDiscovery
                cfg interval unspecified now true
                (slotNextSyncFullLocalDiscovery f)))
  = (FilesystemOnly, ∅).
Proof.
  apply startSync_after_lost_changes_aux; [ reflexivity | exact Hidle ].
Qed.

Lemma lost_changes_force_full_discovery_witness :
  Folder_isSyncRunning sampleFolder = false
  /\ localDiscoveryOptions
       (_engine (startSync id id id id sampleConfig 3600000 0 2000 true
                   (slotNextSyncFullLocalDiscovery sampleFolder)))
     = (FilesystemOnly, ∅).
Proof.
  split; [ reflexivity | ].
  apply (lost_changes_force_full_discovery id id id id sampleConfig 3600000 0 2000
           sampleFolder).
  reflexivity.
Defined.

Lemma slotSyncFinished_fullDiscoveryTimer
    (unspecified now : Z) (success : bool) (f : Folder) :
  _timeSinceLastFullLocalDiscovery (slotSyncFinished unspecified now success f)
  = if (bool_decide (finishedStatus f = Success)
        || bool_decide (finishedStatus f = Problem))
       && success
       && bool_decide (lastLocalDiscoveryStyle (_engine f) = FilesystemOnly)
    then start now
    else _timeSinceLastFullLocalDiscovery f.
Proof.
  unfold slotSyncFinished. cbv zeta.
  frame _timeSinceLastFullLocalDiscovery.
  unfold noteFullLocalDiscovery.
  frame _syncResult. frame _engine.
  rewrite setFinishedStatus_result, !finishedStatus_emit. simpl status.
  destruct (_ && success) eqn:Hok; simpl.
  - destruct (decide (lastLocalDiscoveryStyle (_engine f) = FilesystemOnly))
      as [Hstyle | Hstyle].
    + rewrite (bool_decide_eq_true_2 _ Hstyle). reflexivity.
    + rewrite (bool_decide_eq_false_2 _ Hstyle).
      frame _timeSinceLastFullLocalDiscovery. reflexivity.
  - frame _timeSinceLastFullLocalDiscovery. reflexivity.
Qed.

(** X2. The end of a run restarts the timer of the last full local
    discovery exactly when the run ends in success or problem, the engine
    reported success and its last local discovery read the file system
    only; in every other case the timer is left as it was. *)
Theorem slotSyncFinished_notes_full_discovery
    (unspecified now : Z) (success : bool) (f : Folder) :
  let f' := slotSyncFinished unspecified now success f in
  let completed :=
    (status (_syncResult f') = Success \/ status (_syncResult f') = Problem)
    /\ success = true
    /\ lastLocalDiscoveryStyle (_engine f) = FilesystemOnly in
  (completed -> _timeSinceLastFullLocalDiscovery f' = start now)
  /\ (~ completed ->
      _timeSinceLastFullLocalDiscovery f' = _timeSinceLastFullLocalDiscovery f).
Proof.
  intros f' completed. subst f' completed.
  rewrite slotSyncFinished_result, slotSyncFinished_fullDiscoveryTimer. simpl status.
  split.
  - intros (Hst & -> & Hstyle).
    rewrite (bool_decide_eq_true_2 _ Hstyle), andb_true_r, andb_true_r.
    destruct Hst as [-> | ->]; reflexivity.
  - intros Hn.
    destruct (_ && _ && _) eqn:Hc; [ | reflexivity ].
    exfalso. apply Hn.
    apply andb_true_iff in Hc as [Hc Hstyle].
    apply andb_true_iff in Hc as [Hst Hs].
    apply bool_decide_eq_true in Hstyle.
    apply orb_true_iff in Hst.
    repeat split; [ | done | done ].
    destruct Hst as [Hst | Hst]; apply bool_decide_eq_true in Hst; auto.
Qed.

Lemma slotSyncFinished_keeps_idle (unspecified now : Z) (success : bool) (f : Folder) :
  isSyncRunning (_engine f) = false ->
  isHydrating (_vfs f) = false ->
  Folder_isSyncRunning (slotSyncFinished unspecified now success f) = false.
Proof.
  intros He Hv. unfold Folder_isSyncRunning.
  assert (Hengine : _engine (slotSyncFinished unspecified now success f) = _engine f).
  { unfold slotSyncFinished. cbv zeta. frame _engine. reflexivity. }
  assert (Hvfs : _vfs (slotSyncFinished unspecified now success f) = _vfs f).
  { unfold slotSyncFinished. cbv zeta. frame _vfs. reflexivity. }
  rewrite Hengine, Hvfs, He, Hv. by rewrite andb_false_r.
Qed.

(** X3. A run of a folder that is not paused, which read the whole file
    system and ended without error and without unsynced file at time
    [t1], lets the next run, started at [t2] with a reliable watcher
    before the interval of full discoveries is exceeded, read the
    database: the engine gets [DatabaseAndFilesystem] and the touched
    paths. *)
Theorem full_run_allows_database_discovery
    (fillFromEnvironmentVariables verifyChunkSizes : SyncOptions -> SyncOptions)
    (startSyncFullDiscovery startSyncPartialDiscovery
       : LocalDiscoveryTracker -> LocalDiscoveryTracker)
    (cfg : ConfigFile) (interval unspecified t1 t2 : Z) (w : FolderWatcher)
    (f : Folder)
    (Hengine : isSyncRunning (_engine f) = false)
    (Hvfs : isHydrating (_vfs f) = false)
    (Herrors : errorStrings (_syncResult f) = [])
    (Hsynced : foundFilesNotSynced (_syncResult f) = false)
    (Hactive : paused (_definition f) = false)
    (Hfull : lastLocalDiscoveryStyle (_engine f) = FilesystemOnly)
    (Hwatcher : _folderWatcher f = Some w)
    (Hreliable : isReliable w = true)
    (Hinterval : 0 <= interval < 2 ^ 63)
    (Hclock : 0 <= t2 - t1 <= interval) :
  localDiscoveryOptions
    (_engine (startSync fillFromEnvironmentVariables verifyChunkSizes
                startSyncFullDiscovery startSyncPartialDiscovery
                cfg interval unspecified t2 true
                (slotSyncFinished unspecified t1 true f)))
  = (DatabaseAndFilesystem, localDiscoveryPaths (_localDiscoveryTracker f)).
Proof.
  set (f1 := slotSyncFinished unspecified t1 true f).
  assert (Hidle : Folder_isSyncRunning f1 = false)
    by (by apply slotSyncFinished_keeps_idle).
  assert (Htimer : _timeSinceLastFullLocalDiscovery f1 = start t1).
  { subst f1. rewrite slotSyncFinished_fullDiscoveryTimer.
    rewrite (bool_decide_eq_true_2 _ Hfull). unfold finishedStatus.
    by rewrite Herrors, Hsynced, Hactive. }
  destruct (startSync_runs fillFromEnvironmentVariables verifyChunkSizes
              startSyncFullDiscovery startSyncPartialDiscovery
              cfg interval unspecified t2 f1 Hidle) as [_ ->].
  rewrite chooseLocalDiscovery_options, Htimer.
  assert (Hw : _folderWatcher f1 = _folderWatcher f).
  { subst f1. unfold slotSyncFinished. cbv zeta. frame _folderWatcher. reflexivity. }
  assert (Ht : _localDiscoveryTracker f1 = _localDiscoveryTracker f).
  { subst f1. unfold slotSyncFinished. cbv zeta. frame _localDiscoveryTracker.
    reflexivity. }
  rewrite Hw, Ht, Hwatcher, Hreliable.
  rewrite hasExpired_elapsed by lia.
  destruct (Z.ltb_spec interval (t2 - t1)); [ lia | ].
  by rewrite andb_false_r.
Qed.

Lemma full_run_allows_database_discovery_witness :
  isSyncRunning (_engine sampleFolder) = false
  /\ isHydrating (_vfs sampleFolder) = false
  /\ errorStrings (_syncResult sampleFolder) = []
  /\ foundFilesNotSynced (_syncResult sampleFolder) = false
  /\ paused (_definition sampleFolder) = false
  /\ lastLocalDiscoveryStyle (_engine sampleFolder) = FilesystemOnly
  /\ _folderWatcher sampleFolder = Some {| isReliable := true |}
  /\ 0 <= 3600000 < 2 ^ 63
  /\ 0 <= 3000 - 2000 <= 3600000
  /\ localDiscoveryOptions
       (_engine (startSync id id id id sampleConfig 3600000 0 3000 true
                   (slotSyncFinished 0 2000 true sampleFolder)))
     = (DatabaseAndFilesystem, localDiscoveryPaths (_localDiscoveryTracker sampleFolder)).
Proof.
  repeat (split; [ reflexivity || lia | ]).
  apply (full_run_allows_database_discovery id id id id sampleConfig 3600000 0
           2000 3000 {| isReliable := true |} sampleFolder);
    reflexivity || lia.
Defined.

(** *** Failing runs *)

(** X4. The end of a run resets the counter of consecutive failing syncs
    when the run ends in success or problem, and increments it when the
    run ends in error or paused: a run cut short by a pause counts as a
    failed one. The counter is an [int] below its maximum. *)
Theorem slotSyncFinished_counts_failing_syncs
    (unspecified now : Z) (success : bool) (f : Folder)
    (Hrange : - 2 ^ 31 <= _consecutiveFailingSyncs f < INT_MAX) :
  let f' := slotSyncFinished unspecified now success f in
  (status (_syncResult f') = Success \/ status (_syncResult f') = Problem ->
   _consecutiveFailingSyncs f' = 0)
  /\ (status (_syncResult f') = Error \/ status (_syncResult f') = Paused ->
      _consecutiveFailingSyncs f' = _consecutiveFailingSyncs f + 1).
Proof.
  intros f'. subst f'.
  rewrite slotSyncFinished_result, slotSyncFinished_failing. simpl status.
  split.
  - intros [-> | ->]; reflexivity.
  - intros [-> | ->]; simpl; unfold wrap_int, INT_MAX in *;
      rewrite Z.mod_small by lia; lia.
Qed.

Lemma slotSyncFinished_counts_failing_syncs_witness :
  - 2 ^ 31 <= _consecutiveFailingSyncs sampleFolder < INT_MAX
  /\ _consecutiveFailingSyncs
       (slotSyncFinished 0 2000 true
          (slotSyncError "Aborted" sampleFolder)) = 1.
Proof.
  split; [ vm_compute; split; discriminate || reflexivity | ].
  assert (Hrange : - 2 ^ 31
                   <= _consecutiveFailingSyncs (slotSyncError "Aborted" sampleFolder)
                   < INT_MAX)
    by (vm_compute; split; discriminate || reflexivity).
  destruct (slotSyncFinished_counts_failing_syncs 0 2000 true
              (slotSyncError "Aborted" sampleFolder) Hrange) as [_ Hfail].
  apply Hfail. left. reflexivity.
Defined.

(** *** Runs that do not start *)

Lemma startSync_events
    (fillFromEnvironmentVariables verifyChunkSizes : SyncOptions -> SyncOptions)
    (startSyncFullDiscovery startSyncPartialDiscovery
       : LocalDiscoveryTracker -> LocalDiscoveryTracker)
    (cfg : ConfigFile) (interval unspecified now : Z) (reloadExcludesOk : bool)
    (f : Folder) :
  newEvents f (startSync fillFromEnvironmentVariables verifyChunkSizes
                 startSyncFullDiscovery startSyncPartialDiscovery
                 cfg interval unspecified now reloadExcludesOk f)
  = if Folder_isSyncRunning f then []
    else if reloadExcludesOk
    then [EmitSyncStateChange; FileLogStart (path f); EngineStartSyncQueued;
          EmitSyncStarted]
    else [EmitSyncStateChange; FileLogStart (path f);
          DispatchSyncError (alias (_definition f))
            "Could not read system exclude file";
          SlotSyncFinishedQueued false].
Proof.
  unfold startSync.
  destruct (Folder_isSyncRunning f).
  - apply newEvents_app. by rewrite app_nil_r.
  - destruct reloadExcludesOk; simpl negb; cbv iota zeta; apply newEvents_app.
    + rewrite !events_emit. unfold passIgnoreHiddenFiles.
      assert (He : forall e x, events (set_engine e x) = events x) by reflexivity.
      rewrite He. clear He.
      frame events. unfold startFileLog. rewrite !events_emit.
      frame events. rewrite <- !app_assoc. reflexivity.
    + rewrite events_emit. unfold slotSyncError. cbv zeta. rewrite events_emit.
      frame events. frame _definition.
      unfold startFileLog. rewrite !events_emit.
      frame events. rewrite <- !app_assoc. reflexivity.
Qed.

(** X5. [startSync] hands the run to the engine exactly when no sync of
    the folder is running and the exclude files load. A folder whose
    sync is running is left untouched. *)
Theorem startSync_starts_engine_iff
    (fillFromEnvironmentVariables verifyChunkSizes : SyncOptions -> SyncOptions)
    (startSyncFullDiscovery startSyncPartialDiscovery
       : LocalDiscoveryTracker -> LocalDiscoveryTracker)
    (cfg : ConfigFile) (interval unspecified now : Z) (reloadExcludesOk : bool)
    (f : Folder) :
  let f' := startSync fillFromEnvironmentVariables verifyChunkSizes
              startSyncFullDiscovery startSyncPartialDiscovery
              cfg interval unspecified now reloadExcludesOk f in
  (EngineStartSyncQueued ∈ newEvents f f'
   <-> Folder_isSyncRunning f = false /\ reloadExcludesOk = true)
  /\ (Folder_isSyncRunning f = true -> f' = f).
Proof.
  intros f'. subst f'. rewrite startSync_events. split.
  - destruct (Folder_isSyncRunning f), reloadExcludesOk; split.
    + intros Hin. by apply elem_of_nil in Hin.
    + intros [? _]. discriminate.
    + intros Hin. by apply elem_of_nil in Hin.
    + intros [? _]. discriminate.
    + intros _. split; reflexivity.
    + intros _. do 2 apply list_elem_of_further. apply list_elem_of_here.
    + intros Hin. exfalso.
      repeat (apply elem_of_cons in Hin as [Hin | Hin]; [ discriminate | ]).
      by apply elem_of_nil in Hin.
    + intros [_ ?]. discriminate.
  - intros Hrun. unfold startSync. by rewrite Hrun.
Qed.

Lemma startSync_without_excludes
    (fillFromEnvironmentVariables verifyChunkSizes : SyncOptions -> SyncOptions)
    (startSyncFullDiscovery startSyncPartialDiscovery
       : LocalDiscoveryTracker -> LocalDiscoveryTracker)
    (cfg : ConfigFile) (interval unspecified now : Z) (f : Folder) :
  Folder_isSyncRunning f = false ->
  startSync fillFromEnvironmentVariables verifyChunkSizes
    startSyncFullDiscovery startSyncPartialDiscovery
    cfg interval unspecified now false f
  = emit (SlotSyncFinishedQueued false)
      (slotSyncError "Could not read system exclude file"
         (startFileLog
            (emit EmitSyncStateChange
               (setSyncState SyncPrepare
                  (set_timeSinceLastSyncStart (start now) f))))).
Proof. intros Hidle. unfold startSync. by rewrite Hidle. Qed.

(** X6. When the exclude files do not load, [startSync] passes nothing to
    the engine, records one sync error and queues [slotSyncFinished] with
    failure; that slot then ends the run in error, with the journal as it
    was before the start. *)
Theorem run_without_excludes_ends_in_error
    (fillFromEnvironmentVariables verifyChunkSizes : SyncOptions -> SyncOptions)
    (startSyncFullDiscovery startSyncPartialDiscovery
       : LocalDiscoveryTracker -> LocalDiscoveryTracker)
    (cfg : ConfigFile) (interval unspecified now now' : Z) (f : Folder)
    (Hidle : Folder_isSyncRunning f = false) :
  let f1 := startSync fillFromEnvironmentVariables verifyChunkSizes
              startSyncFullDiscovery startSyncPartialDiscovery
              cfg interval unspecified now false f in
  let f2 := slotSyncFinished unspecified now' false f1 in
  _engine f1 = _engine f
  /\ errorStrings (_syncResult f1)
     = (errorStrings (_syncResult f) ++ ["Could not read system exclude file"])%list
  /\ SlotSyncFinishedQueued false ∈ newEvents f f1
  /\ status (_syncResult f2) = Error
  /\ _journal f2 = _journal f.
Proof.
  intros f1 f2.
  assert (Hf1 := startSync_without_excludes fillFromEnvironmentVariables
                   verifyChunkSizes startSyncFullDiscovery startSyncPartialDiscovery
                   cfg interval unspecified now f Hidle).
  fold f1 in Hf1.
  assert (Herr : errorStrings (_syncResult f1)
                 = (errorStrings (_syncResult f)
                    ++ ["Could not read system exclude file"])%list)
    by (rewrite Hf1; reflexivity).
  assert (Hstatus : finishedStatus f1 = Error).
  { unfold finishedStatus. rewrite Herr.
    rewrite bool_decide_eq_false_2; [ reflexivity | ].
    intros Hnil. by apply app_eq_nil in Hnil as [_ ?]. }
  split; [ rewrite Hf1; reflexivity | ].
  split; [ exact Herr | ].
  split.
  - subst f1. rewrite startSync_events, Hidle.
    do 3 apply list_elem_of_further. apply list_elem_of_here.
  - subst f2. rewrite slotSyncFinished_result, slotSyncFinished_journal, Hstatus.
    split; [ reflexivity | ]. simpl. rewrite Hf1. reflexivity.
Qed.

Lemma run_without_excludes_ends_in_error_witness :
  Folder_isSyncRunning sampleFolder = false
  /\ status (_syncResult
               (slotSyncFinished 0 2100 false
                  (startSync id id id id sampleConfig 3600000 0 2000 false
                     sampleFolder)))
     = Error.
Proof.
  split; [ reflexivity | ].
  apply (run_without_excludes_ends_in_error id id id id sampleConfig 3600000 0
           2000 2100 sampleFolder).
  reflexivity.
Defined.

(** X7. The duration recorded at the end of a run is the time between
    [startSync] and [slotSyncFinished], whether or not the exclude files
    loaded. *)
Theorem lastSyncDuration_is_time_since_start
    (fillFromEnvironmentVariables verifyChunkSizes : SyncOptions -> SyncOptions)
    (startSyncFullDiscovery startSyncPartialDiscovery
       : LocalDiscoveryTracker -> LocalDiscoveryTracker)
    (cfg : ConfigFile) (interval unspecified t0 t1 : Z)
    (reloadExcludesOk success : bool) (f : Folder)
    (Hidle : Folder_isSyncRunning f = false) :
  _lastSyncDuration
    (slotSyncFinished unspecified t1 success
       (startSync fillFromEnvironmentVariables verifyChunkSizes
          startSyncFullDiscovery startSyncPartialDiscovery
          cfg interval unspecified t0 reloadExcludesOk f))
  = t1 - t0.
Proof.
  assert (Hd : forall x,
             _lastSyncDuration (slotSyncFinished unspecified t1 success x)
             = elapsed unspecified t1 (_timeSinceLastSyncStart x)).
  { intros x. unfold slotSyncFinished. cbv zeta.
    frame _lastSyncDuration.
    assert (Hn : forall y,
               _lastSyncDuration (noteSyncDuration unspecified t1 y)
               = elapsed unspecified t1 (_timeSinceLastSyncStart y)) by reflexivity.
    rewrite Hn. clear Hn.
    frame _timeSinceLastSyncStart. reflexivity. }
  rewrite Hd. clear Hd.
  unfold startSync. rewrite Hidle.
  destruct reloadExcludesOk; simpl negb; cbv iota zeta;
    frame _timeSinceLastSyncStart; reflexivity.
Qed.

Lemma lastSyncDuration_is_time_since_start_witness :
  Folder_isSyncRunning sampleFolder = false
  /\ _lastSyncDuration
       (slotSyncFinished 0 2750 true
          (startSync id id id id sampleConfig 3600000 0 2000 true sampleFolder))
     = 2750 - 2000.
Proof.
  split; [ reflexivity | ].
  apply (lastSyncDuration_is_time_since_start id id id id sampleConfig 3600000 0
           2000 2750 true true sampleFolder).
  reflexivity.
Defined.

(** *** What a watcher notification leaves alone *)

Lemma notifyAndSchedule_frame (fileInfo : string -> option bool)
    (record : option SyncJournalFileRecord) (changedPath relativePath : string)
    (f : Folder) :
  let f' := notifyAndSchedule fileInfo record changedPath relativePath f in
  _syncResult f' = _syncResult f
  /\ _engine f' = _engine f
  /\ _definition f' = _definition f
  /\ _consecutiveFailingSyncs f' = _consecutiveFailingSyncs f
  /\ _consecutiveFollowUpSyncs f' = _consecutiveFollowUpSyncs f.
Proof.
  unfold notifyAndSchedule, scheduleThisFolderSoon, warnOnNewExcludedItem.
  cbv zeta. repeat case_match; done.
Qed.

Lemma wipeSoftErrorsOnUnlock_blacklist (relativePath q : string) (f : Folder) :
  errorBlacklist (_journal (wipeSoftErrorsOnUnlock relativePath f)) !! q = None
  \/ errorBlacklist (_journal (wipeSoftErrorsOnUnlock relativePath f)) !! q
     = errorBlacklist (_journal f) !! q.
Proof.
  unfold wipeSoftErrorsOnUnlock. cbv zeta. simpl _journal.
  rewrite wipeCategory_is_wipeParent. unfold wipeParents.
  destruct (wipeParents_fuel_lookup (String.length relativePath) relativePath q
              (wipeParent relativePath (_journal f))) as [HN | Heq]; [ by left | ].
  rewrite Heq, wipeParent_lookup.
  destruct (errorBlacklist (_journal f) !! q); [ | by left ].
  case_decide; [ by left | by right ].
Qed.

Lemma wipeSoftErrorsOnUnlock_rest (relativePath : string) (f : Folder) :
  queryFails (_journal (wipeSoftErrorsOnUnlock relativePath f)) = queryFails (_journal f)
  /\ selectiveSyncList (_journal (wipeSoftErrorsOnUnlock relativePath f))
     = selectiveSyncList (_journal f)
  /\ fileRecords (_journal (wipeSoftErrorsOnUnlock relativePath f))
     = fileRecords (_journal f).
Proof.
  unfold wipeSoftErrorsOnUnlock. cbv zeta. simpl _journal.
  rewrite wipeCategory_is_wipeParent. unfold wipeParents.
  destruct (wipeParents_fuel_rest (String.length relativePath) relativePath
              (wipeParent relativePath (_journal f))) as (-> & -> & ->).
  unfold wipeParent. repeat case_match; done.
Qed.

(** X8. A watcher notification, whatever its path and reason, leaves the
    sync result, the engine and the counters of failing and follow-up
    syncs alone. In the journal it touches the error blacklist only, and
    only by removing entries; a notification with another reason than an
    unlock leaves the whole journal alone, and one for a path outside the
    folder leaves the whole folder alone. *)
Theorem slotWatchedPathChanged_leaves_alone
    (isChildPathOf : string -> string -> bool) (Q_OS_MAC : bool)
    (fileChanged : string -> Z -> Z -> bool) (fileInfo : string -> option bool)
    (changedPath : string) (reason : ChangeReason) (f : Folder) :
  let f' := slotWatchedPathChanged isChildPathOf Q_OS_MAC fileChanged fileInfo
              changedPath reason f in
  _syncResult f' = _syncResult f
  /\ _engine f' = _engine f
  /\ _consecutiveFailingSyncs f' = _consecutiveFailingSyncs f
  /\ _consecutiveFollowUpSyncs f' = _consecutiveFollowUpSyncs f
  /\ selectiveSyncList (_journal f') = selectiveSyncList (_journal f)
  /\ fileRecords (_journal f') = fileRecords (_journal f)
  /\ (forall q, errorBlacklist (_journal f') !! q = None
                \/ errorBlacklist (_journal f') !! q = errorBlacklist (_journal f) !! q)
  /\ (reason = Other -> _journal f' = _journal f)
  /\ (isChildPathOf changedPath (path f) = false -> f' = f).
Proof.
  intros f'.
  destruct (isChildPathOf changedPath (path f)) eqn:Hchild.
  2:{ assert (Hsame : f' = f).
      { subst f'. unfold slotWatchedPathChanged. by rewrite Hchild. }
      rewrite Hsame. repeat split; auto. }
  subst f'.
  rewrite (slotWatchedPathChanged_cases isChildPathOf Q_OS_MAC fileChanged fileInfo
             changedPath reason f Hchild).
  cbv zeta.
  set (relativePath := mid changedPath (QString_size (path f))).
  set (f0 := if decide (reason = UnLock)
             then wipeSoftErrorsOnUnlock relativePath f else f).
  set (f1 := touchPath relativePath f0).
  assert (H0 : _syncResult f0 = _syncResult f /\ _engine f0 = _engine f
               /\ _consecutiveFailingSyncs f0 = _consecutiveFailingSyncs f
               /\ _consecutiveFollowUpSyncs f0 = _consecutiveFollowUpSyncs f).
  { subst f0. case_decide; done. }
  destruct H0 as (Hr0 & He0 & Hc0 & Hu0).
  assert (Hj0 : selectiveSyncList (_journal f0) = selectiveSyncList (_journal f)
                /\ fileRecords (_journal f0) = fileRecords (_journal f)
                /\ (forall q, errorBlacklist (_journal f0) !! q = None
                              \/ errorBlacklist (_journal f0) !! q
                                 = errorBlacklist (_journal f) !! q)
                /\ (reason = Other -> _journal f0 = _journal f)).
  { subst f0. case_decide as Hreason.
    - destruct (wipeSoftErrorsOnUnlock_rest relativePath f) as (_ & Hs & Hf).
      repeat split; [ done | done | | by subst reason ].
      intros q. apply wipeSoftErrorsOnUnlock_blacklist.
    - repeat split; auto. }
  destruct Hj0 as (Hs0 & Hf0 & Hb0 & Ho0).
  set (f2 := if _ : bool then f1 else _).
  assert (H2 : _syncResult f2 = _syncResult f1 /\ _engine f2 = _engine f1
               /\ _consecutiveFailingSyncs f2 = _consecutiveFailingSyncs f1
               /\ _consecutiveFollowUpSyncs f2 = _consecutiveFollowUpSyncs f1
               /\ _journal f2 = _journal f1).
  { subst f2. case_match; [ done | ].
    destruct (notifyAndSchedule_frame fileInfo
                (getFileRecord (_journal f1) relativePath) changedPath relativePath f1)
      as (? & ? & _ & ? & ?).
    by rewrite notifyAndSchedule_journal. }
  destruct H2 as (-> & -> & -> & -> & ->).
  change (_syncResult f1) with (_syncResult f0).
  change (_engine f1) with (_engine f0).
  change (_consecutiveFailingSyncs f1) with (_consecutiveFailingSyncs f0).
  change (_consecutiveFollowUpSyncs f1) with (_consecutiveFollowUpSyncs f0).
  change (_journal f1) with (_journal f0).
  repeat split; try done.
Qed.

(** *** Items created under an excluded folder *)

(** X9. [warnOnNewExcludedItem] shows its message exactly when the item
    has no journal record, exists on disk, the selective-sync black list
    can be read and holds the path of the item followed by a slash; the
    message is the one for a folder when the item is a directory. In
    every other case the folder is left as it was. *)
Theorem warnOnNewExcludedItem_warns_iff
    (fileInfo : string -> option bool) (record : option SyncJournalFileRecord)
    (p : string) (f : Folder) :
  let f' := warnOnNewExcludedItem fileInfo record p f in
  let fullPath := (_canonicalLocalPath f ++ p)%string in
  let excludedBefore :=
    queryFails (_journal f) = false
    /\ (p ++ "/")%string ∈ selectiveSyncList (_journal f) SelectiveSyncBlackList in
  (forall isDir,
      record = None -> fileInfo fullPath = Some isDir -> excludedBefore ->
      newEvents f f'
      = [ShowOptionalTrayMessage
           (if isDir then MsgExcludedFolderCreated fullPath
            else MsgExcludedFileCreated fullPath)])
  /\ (~ (record = None /\ is_Some (fileInfo fullPath) /\ excludedBefore) -> f' = f).
Proof.
  intros f' fullPath excludedBefore. subst f' excludedBefore.
  unfold warnOnNewExcludedItem, getSelectiveSyncList. fold fullPath.
  split.
  - intros isDir -> -> [-> Hin].
    apply contains_true in Hin. rewrite Hin. simpl negb. cbv iota.
    apply newEvents_app. destruct isDir; reflexivity.
  - intros Hn.
    destruct record as [r | ]; [ reflexivity | ].
    destruct (fileInfo fullPath) as [isDir | ]; [ | reflexivity ].
    destruct (queryFails (_journal f)) eqn:Hq; [ reflexivity | ].
    simpl negb. cbv iota.
    destruct (contains _ _) eqn:Hc; [ | reflexivity ].
    exfalso. apply Hn. apply contains_true in Hc. by repeat split.
Qed.

(** *** A big folder and the black list *)

Lemma slotNewBigFolderDiscovered_journal
    (cfg : ConfigFile) (newF : string) (isExternal : bool) (f : Folder) :
  queryFails (_journal f) = false ->
  let newFolder := withTrailingSlash newF in
  let j := _journal f in
  let j1 :=
    if negb (contains (selectiveSyncList j SelectiveSyncBlackList) newFolder)
       && negb (contains (selectiveSyncList j SelectiveSyncWhiteList) newFolder)
    then setSelectiveSyncList SelectiveSyncBlackList
           (selectiveSyncList j SelectiveSyncBlackList ++ [newFolder]) j
    else j in
  _journal (slotNewBigFolderDiscovered cfg newF isExternal f)
  = if negb (contains (selectiveSyncList j SelectiveSyncUndecidedList) newFolder)
    then setSelectiveSyncList SelectiveSyncUndecidedList
           (selectiveSyncList j SelectiveSyncUndecidedList ++ [newFolder]) j1
    else j1.
Proof.
  intros Hquery newFolder j j1.
  unfold slotNewBigFolderDiscovered, getSelectiveSyncList. cbv zeta.
  rewrite Hquery. simpl queryFails. fold newFolder. fold j.
  change (true && true && negb (contains (selectiveSyncList j SelectiveSyncBlackList) newFolder)
          && negb (contains (selectiveSyncList j SelectiveSyncWhiteList) newFolder))
    with (negb (contains (selectiveSyncList j SelectiveSyncBlackList) newFolder)
          && negb (contains (selectiveSyncList j SelectiveSyncWhiteList) newFolder)).
  fold j1.
  assert (Hq1 : queryFails j1 = false) by (subst j1; by case_match).
  assert (Hu1 : selectiveSyncList j1 SelectiveSyncUndecidedList
                = selectiveSyncList j SelectiveSyncUndecidedList)
    by (subst j1; by case_match).
  rewrite Hq1, Hu1.
  destruct (contains (selectiveSyncList j SelectiveSyncUndecidedList) newFolder);
    reflexivity.
Qed.

Lemma slotNewBigFolderDiscovered_lists
    (cfg : ConfigFile) (newF : string) (isExternal : bool) (f : Folder) :
  queryFails (_journal f) = false ->
  let f' := slotNewBigFolderDiscovered cfg newF isExternal f in
  let newFolder := withTrailingSlash newF in
  let blacklist := selectiveSyncList (_journal f) SelectiveSyncBlackList in
  let whitelist := selectiveSyncList (_journal f) SelectiveSyncWhiteList in
  selectiveSyncList (_journal f') SelectiveSyncWhiteList = whitelist
  /\ selectiveSyncList (_journal f') SelectiveSyncBlackList
     = if negb (contains blacklist newFolder) && negb (contains whitelist newFolder)
       then (blacklist ++ [newFolder])%list else blacklist.
Proof.
  intros Hquery f' newFolder blacklist whitelist. subst f'.
  rewrite (slotNewBigFolderDiscovered_journal cfg newF isExternal f Hquery).
  cbv zeta. fold newFolder. fold blacklist. fold whitelist.
  destruct (negb (contains blacklist newFolder) && negb (contains whitelist newFolder));
    destruct (negb (contains (selectiveSyncList (_journal f) SelectiveSyncUndecidedList)
                      newFolder));
    split; reflexivity.
Qed.

(** X10. When the journal answers its queries, a newly discovered big
    folder ends up excluded unless the user had white-listed it: its path
    is appended to the selective-sync black list when it is in neither
    the black list nor the white list, and the black list is left as it
    was otherwise; the white list is never changed, and a black list
    without duplicates stays without duplicates. *)
Theorem slotNewBigFolderDiscovered_blacklists
    (cfg : ConfigFile) (newF : string) (isExternal : bool) (f : Folder)
    (Hquery : queryFails (_journal f) = false) :
  let f' := slotNewBigFolderDiscovered cfg newF isExternal f in
  let newFolder := withTrailingSlash newF in
  let blacklist := selectiveSyncList (_journal f) SelectiveSyncBlackList in
  let whitelist := selectiveSyncList (_journal f) SelectiveSyncWhiteList in
  let blacklist' := selectiveSyncList (_journal f') SelectiveSyncBlackList in
  let whitelist' := selectiveSyncList (_journal f') SelectiveSyncWhiteList in
  whitelist' = whitelist
  /\ (newFolder ∉ blacklist -> newFolder ∉ whitelist ->
      blacklist' = (blacklist ++ [newFolder])%list)
  /\ (newFolder ∈ blacklist \/ newFolder ∈ whitelist -> blacklist' = blacklist)
  /\ (newFolder ∈ blacklist' \/ newFolder ∈ whitelist')
  /\ (NoDup blacklist -> NoDup blacklist').
Proof.
  intros f' newFolder blacklist whitelist blacklist' whitelist'.
  destruct (slotNewBigFolderDiscovered_lists cfg newF isExternal f Hquery)
    as [Hw Hb].
  fold f' newFolder blacklist whitelist in Hw, Hb.
  fold whitelist' in Hw. fold blacklist' in Hb.
  rewrite Hw, Hb. clear Hw Hb.
  destruct (decide (newFolder ∈ blacklist)) as [Hinb | Hnb].
  - rewrite (proj2 (contains_true blacklist newFolder) Hinb). simpl.
    repeat split; auto. intros ? ?. contradiction.
  - rewrite (proj2 (contains_false blacklist newFolder) Hnb). simpl.
    destruct (decide (newFolder ∈ whitelist)) as [Hinw | Hnw].
    + rewrite (proj2 (contains_true whitelist newFolder) Hinw). simpl.
      repeat split; auto. intros ? ?. contradiction.
    + rewrite (proj2 (contains_false whitelist newFolder) Hnw). simpl.
      split; [ reflexivity | ]. split; [ reflexivity | ].
      split; [ intros [? | ?]; contradiction | ].
      split.
      * left. apply elem_of_app. right. apply list_elem_of_here.
      * intros Hnd. apply NoDup_app. split; [ exact Hnd | ].
        split; [ | apply NoDup_singleton ].
        intros x Hx Hx'. apply list_elem_of_singleton in Hx'. by subst x.
Qed.

Lemma slotNewBigFolderDiscovered_blacklists_witness :
  queryFails (_journal sampleFolder) = false
  /\ selectiveSyncList
       (_journal (slotNewBigFolderDiscovered sampleConfig "big" false sampleFolder))
       SelectiveSyncBlackList
     = ["big/"].
Proof.
  split; [ reflexivity | ].
  destruct (slotNewBigFolderDiscovered_blacklists sampleConfig "big" false sampleFolder
              eq_refl) as (_ & Hadd & _).
  apply Hadd; apply not_elem_of_nil.
Defined.

Lemma slotNewBigFolderDiscovered_queryFails
    (cfg : ConfigFile) (newF : string) (isExternal : bool) (f : Folder) :
  queryFails (_journal f) = false ->
  queryFails (_journal (slotNewBigFolderDiscovered cfg newF isExternal f)) = false.
Proof.
  intros Hquery.
  rewrite (slotNewBigFolderDiscovered_journal cfg newF isExternal f Hquery).
  cbv zeta. repeat case_match; done.
Qed.

(** X11. Reporting the same big folder a second time changes nothing in
    the journal and raises no second new-big-folder event; only the tray
    message is shown again. *)
Theorem slotNewBigFolderDiscovered_twice
    (cfg : ConfigFile) (newF : string) (isExternal isExternal' : bool) (f : Folder)
    (Hquery : queryFails (_journal f) = false) :
  let f' := slotNewBigFolderDiscovered cfg newF isExternal f in
  let f'' := slotNewBigFolderDiscovered cfg newF isExternal' f' in
  _journal f'' = _journal f'
  /\ (EmitNewBigFolderDiscovered (withTrailingSlash newF) ∉ newEvents f' f'')
  /\ (exists msg, newEvents f' f'' = [ShowOptionalTrayMessage msg]).
Proof.
  intros f' f''.
  assert (Hquery' : queryFails (_journal f') = false)
    by (by apply slotNewBigFolderDiscovered_queryFails).
  destruct (slotNewBigFolderDiscovered_blacklists cfg newF isExternal f Hquery)
    as (_ & _ & _ & Hin & _).
  fold f' in Hin.
  assert (Hu : withTrailingSlash newF
               ∈ selectiveSyncList (_journal f') SelectiveSyncUndecidedList).
  { subst f'.
    rewrite (slotNewBigFolderDiscovered_journal cfg newF isExternal f Hquery).
    cbv zeta.
    destruct (contains (selectiveSyncList (_journal f) SelectiveSyncUndecidedList)
                (withTrailingSlash newF)) eqn:Hc; simpl negb; cbv iota.
    - apply contains_true in Hc. by case_match.
    - simpl. apply elem_of_app. right. apply list_elem_of_here. }
  assert (Hj : _journal f'' = _journal f').
  { subst f''.
    rewrite (slotNewBigFolderDiscovered_journal cfg newF isExternal' f' Hquery').
    cbv zeta.
    apply contains_true in Hu. rewrite Hu. simpl negb. cbv iota.
    destruct Hin as [Hin | Hin]; apply contains_true in Hin; rewrite Hin;
      [ reflexivity | by rewrite andb_false_r ]. }
  split; [ exact Hj | ].
  assert (Hev : exists msg, events f'' = (events f' ++ [ShowOptionalTrayMessage msg])%list).
  { subst f''. unfold slotNewBigFolderDiscovered, getSelectiveSyncList. cbv zeta.
    rewrite Hquery'. simpl queryFails.
    set (j1 := if _ : bool then _ else _journal f').
    assert (Hq1 : queryFails j1 = false) by (subst j1; by case_match).
    assert (Hu1 : selectiveSyncList j1 SelectiveSyncUndecidedList
                  = selectiveSyncList (_journal f') SelectiveSyncUndecidedList)
      by (subst j1; by case_match).
    rewrite Hq1, Hu1. apply contains_true in Hu. rewrite Hu. simpl negb. cbv iota.
    eexists. reflexivity. }
  destruct Hev as [msg Hev].
  rewrite (newEvents_app f' f'' _ Hev). split.
  - intros Hin'. apply list_elem_of_singleton in Hin'. discriminate.
  - by exists msg.
Qed.

Lemma slotNewBigFolderDiscovered_twice_witness :
  queryFails (_journal sampleFolder) = false
  /\ _journal (slotNewBigFolderDiscovered sampleConfig "big" true
                 (slotNewBigFolderDiscovered sampleConfig "big" false sampleFolder))
     = _journal (slotNewBigFolderDiscovered sampleConfig "big" false sampleFolder).
Proof.
  split; [ reflexivity | ].
  apply (slotNewBigFolderDiscovered_twice sampleConfig "big" false true sampleFolder).
  reflexivity.
Defined.

(** *** The local path of a new folder *)

Lemma isEmpty_append (s t : string) : isEmpty t = false -> isEmpty (s ++ t) = false.
Proof. intros Ht. destruct s; [ exact Ht | reflexivity ]. Qed.

(** The error text of [checkLocalPath], by the answers of the file
    system. *)
Lemma checkLocalPath_cases (fi : QFileInfo) (journalOpens : bool)
    (definition : FolderDefinition) (r : SyncResult) :
  let valid := isDir fi && isReadable fi && isWritable fi && journalOpens in
  exists msg,
    isEmpty msg = false
    /\ checkLocalPath fi journalOpens definition r
       = (if isEmpty (canonicalFilePath fi) then localPath definition
          else if negb (endsWith (canonicalFilePath fi) "/")
               then (canonicalFilePath fi ++ "/")%string
               else canonicalFilePath fi,
          if valid then r else setStatus SetupError (appendErrorString msg r),
          valid).
Proof.
  unfold checkLocalPath. cbv zeta.
  destruct (isDir fi), (isReadable fi), (isWritable fi), journalOpens,
    (fileExists fi); simpl andb; simpl negb; cbv iota;
    try (exists "-"; split; reflexivity);
    first
      [ match goal with
        | |- context [negb (isEmpty ?E)] =>
            let Hne := fresh in
            assert (Hne : isEmpty E = false)
              by first [ reflexivity | apply isEmpty_append; reflexivity ];
            exists E; split; [ exact Hne | rewrite Hne; reflexivity ]
        end
      | eexists; split; [ | reflexivity ]; reflexivity ].
Qed.

(** X12. [checkLocalPath] accepts the local path exactly when it is a
    readable and writable directory and the journal opens; it then
    leaves the sync result alone. Otherwise it appends one non-empty
    error text and sets the status to [SetupError]. The canonical path it
    stores ends with a slash, unless the file system knows no canonical
    path (a broken link), in which case the path of the definition is
    stored. *)
Theorem checkLocalPath_accepts_iff (fi : QFileInfo) (journalOpens : bool)
    (definition : FolderDefinition) (r : SyncResult) :
  let res := checkLocalPath fi journalOpens definition r in
  (res.2 = true
   <-> isDir fi = true /\ isReadable fi = true /\ isWritable fi = true
       /\ journalOpens = true)
  /\ (res.2 = true -> res.1.2 = r)
  /\ (res.2 = false ->
      status res.1.2 = SetupError
      /\ exists msg, isEmpty msg = false
                     /\ errorStrings res.1.2 = (errorStrings r ++ [msg])%list)
  /\ (isEmpty (canonicalFilePath fi) = false -> endsWith res.1.1 "/" = true)
  /\ (isEmpty (canonicalFilePath fi) = true -> res.1.1 = localPath definition).
Proof.
  intros res. subst res.
  destruct (checkLocalPath_cases fi journalOpens definition r) as (msg & Hmsg & ->).
  simpl. split; [ | split; [ | split; [ | split ] ] ].
  - rewrite !andb_true_iff. tauto.
  - intros ->. reflexivity.
  - intros ->. split; [ reflexivity | ]. by exists msg.
  - intros ->. destruct (endsWith (canonicalFilePath fi) "/") eqn:He; simpl.
    + exact He.
    + apply endsWith_append_slash.
  - intros ->. reflexivity.
Qed.

Lemma slotVfsSignal_frame (stateDbFile : string) (signals : list VfsSignal)
    (st : Started) :
  let st' := fold_left (slotVfsSignal stateDbFile) signals st in
  _timeSinceLastFullLocalDiscovery (folder st')
  = _timeSinceLastFullLocalDiscovery (folder st)
  /\ _folderWatcher (folder st') = _folderWatcher (folder st)
  /\ _engine (folder st') = _engine (folder st)
  /\ _vfs (folder st') = _vfs (folder st)
  /\ _journal (folder st') = _journal (folder st)
  /\ virtualFilesMode st' = virtualFilesMode st
  /\ (hasSetupError (folder st') = true
      <-> hasSetupError (folder st) = true \/ exists error, VfsError error ∈ signals).
Proof.
  revert st. induction signals as [ | s signals IH]; intros st; cbn [fold_left].
  - do 6 (split; [ reflexivity | ]).
    split; [ by left | ]. intros [H | [error H]]; [ exact H | ].
    by apply elem_of_nil in H.
  - destruct (IH (slotVfsSignal stateDbFile st s)) as (Ht & Hw & He & Hv & Hj & Hm & Hs).
    cbv zeta in *. rewrite Ht, Hw, He, Hv, Hj, Hm, Hs.
    destruct s as [ | error]; do 6 (split; [ reflexivity | ]);
      cbn [slotVfsSignal folder].
    + split.
      * intros [H | [error H]]; [ by left | right; exists error ].
        by apply list_elem_of_further.
      * intros [H | [error H]]; [ by left | right; exists error ].
        apply elem_of_cons in H as [H | H]; [ discriminate | exact H ].
    + split; [ | intros _; by left ].
      intros _. right. exists error. apply list_elem_of_here.
Qed.

(** X13. The constructor yields a folder with an engine exactly when
    [checkLocalPath] accepts the local path; otherwise the folder is
    left in the status [SetupError] and its journal is not touched. The
    folder with an engine has a set-up error exactly when the vfs is not
    available or sends an error while it starts. Its first run, no sync
    running, reads the whole file system. *)
Theorem Folder_constructor_outcome
    (fillFromEnvironmentVariables verifyChunkSizes : SyncOptions -> SyncOptions)
    (startSyncFullDiscovery startSyncPartialDiscovery
       : LocalDiscoveryTracker -> LocalDiscoveryTracker)
    (wipeVirtualFiles : string -> SyncJournalDb -> Vfs -> SyncJournalDb)
    (checkAvailability : string -> Settings.Mode -> option string)
    (stateDbFile : string)
    (cfg : ConfigFile) (interval unspecified now now' : Z)
    (fi : QFileInfo) (journalOpens : bool)
    (definition : FolderDefinition) (accountState : AccountState) (vfs : Vfs)
    (journal : SyncJournalDb) (engine : SyncEngine)
    (mode : Settings.Mode) (upgradeVfsMode : bool) (winvfs : option Vfs)
    (ready : bool) (signals : list VfsSignal) :
  let valid := isDir fi && isReadable fi && isWritable fi && journalOpens in
  let new := Folder_constructor wipeVirtualFiles checkAvailability stateDbFile
               fi journalOpens now definition accountState vfs journal engine
               mode upgradeVfsMode winvfs ready signals in
  (valid = false ->
   exists p r, new = inr (SetupFailed p r journal) /\ status r = SetupError)
  /\ (valid = true ->
      exists st,
        new = inl st
        /\ (hasSetupError (folder st) = true
            <-> is_Some (checkAvailability (path (folder st)) (virtualFilesMode st))
                \/ exists error, VfsError error ∈ signals)
        /\ (Folder_isSyncRunning (folder st) = false ->
            localDiscoveryOptions
              (_engine (startSync fillFromEnvironmentVariables verifyChunkSizes
                          startSyncFullDiscovery startSyncPartialDiscovery
                          cfg interval unspecified now' true (folder st)))
            = (FilesystemOnly, ∅))).
Proof.
  intros valid new. subst new. unfold Folder_constructor, Folder_new. cbv zeta.
  destruct (checkLocalPath_cases fi journalOpens definition
              {| status := if paused definition then Paused else NotYetStarted;
                 errorStrings := []; foundFilesNotSynced := false |})
    as (msg & Hmsg & ->).
  fold valid. split; intros ->.
  - eexists _, _. split; reflexivity.
  - cbv iota beta.
    match goal with
    | |- context [upgradeVfs _ _ _ ?st0] =>
        set (f0 := folder st0);
        set (st1 := upgradeVfs wipeVirtualFiles upgradeVfsMode winvfs st0)
    end.
    assert (H1 : _timeSinceLastFullLocalDiscovery (folder st1) = invalidTimer
                 /\ hasSetupError (folder st1) = false
                 /\ path (folder st1) = path f0).
    { subst st1. unfold upgradeVfs. cbv zeta.
      destruct (_ && upgradeVfsMode); [ destruct winvfs | ];
        (split; [ reflexivity | split; [ | reflexivity ] ]);
        unfold hasSetupError; cbn; by destruct (paused definition). }
    destruct H1 as (Ht1 & Hs1 & Hp1).
    eexists. split; [ reflexivity | ].
    unfold startVfs. cbv zeta.
    destruct (checkAvailability (path (folder st1)) (virtualFilesMode st1))
      as [error | ] eqn:Hav.
    + cbn [folder virtualFilesMode]. split.
      * assert (Hp : path (set_syncResult
                             (setStatus SetupError
                                (appendErrorString error (_syncResult (folder st1))))
                             (folder st1)) = path (folder st1)) by reflexivity.
        rewrite Hp, Hav. split; [ intros _; left; by eexists | reflexivity ].
      * intros Hidle. apply startSync_after_lost_changes_aux; [ | exact Hidle ].
        assert (Hf : forall r g, _timeSinceLastFullLocalDiscovery (set_syncResult r g)
                                 = _timeSinceLastFullLocalDiscovery g) by reflexivity.
        by rewrite Hf, Ht1.
    + match goal with
      | |- context [fold_left _ signals ?st2] =>
          destruct (slotVfsSignal_frame stateDbFile signals st2)
            as (Ht & _ & _ & _ & _ & Hm & Hs);
          set (st3 := fold_left (slotVfsSignal stateDbFile) signals st2) in *
      end.
      cbv zeta in *. cbn [folder virtualFilesMode] in Ht, Hm, Hs. split.
      * rewrite Hs, Hs1.
        assert (Hp : path (folder st3) = path (folder st1)).
        { subst st3. clear. induction signals as [ | s l IH] using rev_ind;
            [ reflexivity | ].
          rewrite fold_left_app. cbn [fold_left]. by destruct s. }
        rewrite Hp, Hm, Hav. split.
        -- intros [H | H]; [ discriminate | by right ].
        -- intros [[x H] | H]; [ discriminate | by right ].
      * intros Hidle. apply startSync_after_lost_changes_aux; [ | exact Hidle ].
        by rewrite Ht, Ht1.
Qed.

(** *** The start of a hydration *)

(** X14. When a hydration starts while the engine runs, the folder calls
    [abort()] on the engine and schedules itself again; in every case it
    ends in the status [SyncRunning], not [SyncAbortRequested], and
    announces the start of a sync. *)
Theorem slotHydrationStarts_restarts
    (reset : SyncResult -> SyncResult) (f : Folder) :
  let f' := slotHydrationStarts reset f in
  status (_syncResult f') = SyncRunning
  /\ (isSyncRunning (_engine f) = true ->
      newEvents f f' = [EngineAbort; EmitSyncStarted; EmitSyncStateChange]
      /\ _scheduleSelfTimerActive f' = true)
  /\ (isSyncRunning (_engine f) = false ->
      newEvents f f' = [EmitSyncStarted; EmitSyncStateChange]
      /\ _scheduleSelfTimerActive f' = _scheduleSelfTimerActive f).
Proof.
  intros f'. subst f'. unfold slotHydrationStarts, slotTerminateSync. cbv zeta.
  destruct (isSyncRunning (_engine f)) eqn:Hrun.
  - split; [ reflexivity | ]. split; [ | intros; discriminate ].
    intros _. unfold scheduleThisFolderSoon.
    destruct (_scheduleSelfTimerActive
                (setSyncState SyncAbortRequested (emit EngineAbort f))) eqn:Ht.
    + simpl negb. cbv iota. split.
      * apply newEvents_app. simpl. by rewrite <- !app_assoc.
      * exact Ht.
    + simpl negb. cbv iota. split.
      * apply newEvents_app. simpl. by rewrite <- !app_assoc.
      * reflexivity.
  - split; [ reflexivity | ]. split; [ intros; discriminate | ].
    intros _. split; [ | reflexivity ].
    apply newEvents_app. simpl. by rewrite <- !app_assoc.
Qed.

(** *** Pausing a folder *)

(** X15. [setSyncPaused] does nothing to a folder with a set-up error or
    to one that already has the requested state. Otherwise the folder
    gets the requested state, the status [Paused] or [NotYetStarted], is
    saved and announces the change. In all cases asking again for the
    same state does nothing, and a folder that was paused cannot sync. *)
Theorem setSyncPaused_sets_state (paused' connected ready : bool) (f : Folder) :
  let f' := (setSyncPaused paused' f).1 in
  (hasSetupError f = true \/ paused (_definition f) = paused' ->
   setSyncPaused paused' f = (f, []))
  /\ (hasSetupError f = false ->
      paused (_definition f') = paused'
      /\ canSync connected ready f' = negb paused' && connected && ready)
  /\ (hasSetupError f = false -> paused (_definition f) <> paused' ->
      status (_syncResult f') = (if paused' then Paused else NotYetStarted)
      /\ (setSyncPaused paused' f).2
         = [SaveToSettings; EmitSyncPausedChanged paused'; EmitCanSyncChanged]
      /\ newEvents f f' = [EmitSyncStateChange])
  /\ setSyncPaused paused' f' = (f', []).
Proof.
  intros f'.
  destruct (hasSetupError f) eqn:Hsetup.
  - assert (Heq : setSyncPaused paused' f = (f, []))
      by (unfold setSyncPaused; by rewrite Hsetup).
    subst f'. rewrite Heq. simpl.
    split; [ done | ]. split; [ intros; discriminate | ].
    split; [ intros; discriminate | exact Heq ].
  - destruct (decide (paused' = paused (_definition f))) as [Hsame | Hdiff].
    + assert (Heq : setSyncPaused paused' f = (f, [])).
      { unfold setSyncPaused. rewrite Hsetup. by rewrite bool_decide_eq_true_2. }
      subst f'. rewrite Heq. simpl.
      split; [ done | ]. split.
      { intros _. split; [ done | ]. unfold canSync, syncPaused. by rewrite <- Hsame. }
      split; [ | exact Heq ].
      intros _ Hne. by symmetry in Hsame.
    + set (g := emit EmitSyncStateChange
                  (if negb paused'
                   then setSyncState NotYetStarted
                          (set_definition
                             (definition_set_paused paused' (_definition f)) f)
                   else setSyncState Paused
                          (set_definition
                             (definition_set_paused paused' (_definition f)) f))).
      assert (Heq : setSyncPaused paused' f
                    = (g, [SaveToSettings; EmitSyncPausedChanged paused';
                           EmitCanSyncChanged])).
      { unfold setSyncPaused. rewrite Hsetup. by rewrite bool_decide_eq_false_2. }
      subst f'. rewrite Heq. simpl.
      assert (Hp : paused (_definition g) = paused') by (subst g; by destruct paused').
      assert (Hs : status (_syncResult g) = if paused' then Paused else NotYetStarted)
        by (subst g; by destruct paused').
      split.
      { intros [? | Hsame]; [ discriminate | by symmetry in Hsame ]. }
      split.
      { intros _. split; [ exact Hp | ]. unfold canSync, syncPaused. by rewrite Hp. }
      split.
      { intros _ _. split; [ exact Hs | ]. split; [ reflexivity | ].
        apply newEvents_app. subst g. by destruct paused'. }
      unfold setSyncPaused.
      assert (Hsetup' : hasSetupError g = false).
      { unfold hasSetupError. rewrite Hs. by destruct paused'. }
      rewrite Hsetup', Hp. by rewrite bool_decide_eq_true_2.
Qed.

(** X16. A folder paused while its run goes on, the run recording no
    error and no unsynced file, ends the run in the status [Paused]; a
    folder resumed meanwhile ends it in [Success]. *)
Theorem pause_during_run_ends_paused
    (paused' : bool) (unspecified now : Z) (success : bool) (f : Folder)
    (Hsetup : hasSetupError f = false)
    (Herrors : errorStrings (_syncResult f) = [])
    (Hsynced : foundFilesNotSynced (_syncResult f) = false) :
  status (_syncResult
            (slotSyncFinished unspecified now success (setSyncPaused paused' f).1))
  = if paused' then Paused else Success.
Proof.
  rewrite slotSyncFinished_result. simpl status.
  destruct (setSyncPaused_sets_state paused' true true f) as (_ & Hp & _).
  destruct (Hp Hsetup) as [Hpaused _].
  unfold finishedStatus. rewrite Hpaused.
  assert (Hr : errorStrings (_syncResult (setSyncPaused paused' f).1) = []
               /\ foundFilesNotSynced (_syncResult (setSyncPaused paused' f).1) = false).
  { unfold setSyncPaused. rewrite Hsetup.
    case_bool_decide; [ done | ]. destruct paused'; done. }
  destruct Hr as [-> ->]. reflexivity.
Qed.

Lemma pause_during_run_ends_paused_witness :
  hasSetupError sampleFolder = false
  /\ errorStrings (_syncResult sampleFolder) = []
  /\ foundFilesNotSynced (_syncResult sampleFolder) = false
  /\ status (_syncResult
               (slotSyncFinished 0 2000 true (setSyncPaused true sampleFolder).1))
     = Paused.
Proof.
  repeat (split; [ reflexivity | ]).
  apply (pause_during_run_ends_paused true 0 2000 true sampleFolder); reflexivity.
Defined.

(** *** The poll of the root etag *)

(** X17. A retrieved etag schedules the folder exactly when it differs
    from the last one seen, which it then replaces; the same etag
    retrieved again schedules nothing, and neither does the etag that
    the engine reported during its own run. *)
Theorem etagRetreived_schedules_on_change
    (etag : QByteArray) (tp tp' : Z) (e : EtagPoll) :
  let e' := (etagRetreived etag tp e).1 in
  _lastEtag e' = etag
  /\ (FolderManScheduleFolder ∈ (etagRetreived etag tp e).2 <-> _lastEtag e <> etag)
  /\ (FolderManScheduleFolder ∉ (etagRetreived etag tp' e').2)
  /\ (FolderManScheduleFolder
      ∉ (etagRetreived etag tp' (etagRetrievedFromSyncEngine etag tp e).1).2).
Proof.
  intros e'.
  assert (Hsame : forall x, _lastEtag x = etag ->
                            FolderManScheduleFolder ∉ (etagRetreived etag tp' x).2).
  { intros x Hx. unfold etagRetreived.
    rewrite bool_decide_eq_false_2 by (by intros ?). simpl.
    intros Hin.
    repeat (apply elem_of_cons in Hin as [Hin | Hin]; [ discriminate | ]).
    by apply elem_of_nil in Hin. }
  assert (He' : _lastEtag e' = etag).
  { subst e'. unfold etagRetreived. case_bool_decide as Hne; simpl; done. }
  split; [ exact He' | ]. split; [ | split; by apply Hsame ].
  unfold etagRetreived. case_bool_decide as Hne; simpl.
  - split; [ done | ]. intros _. apply list_elem_of_further. apply list_elem_of_here.
  - split; [ | done ]. intros Hin.
    repeat (apply elem_of_cons in Hin as [Hin | Hin]; [ discriminate | ]).
    by apply elem_of_nil in Hin.
Qed.

(** X18. [slotRunEtagJob] queues an etag job exactly when none exists and
    the folder can sync (not paused, account connected, folder ready); a
    second call before the job is gone queues nothing, so that at most
    one etag job exists for a folder. *)
Theorem slotRunEtagJob_queues_one_job
    (connected ready connected' ready' : bool) (f f' : Folder) (e : EtagPoll) :
  let res := slotRunEtagJob connected ready f e in
  (res.2 = [FolderManScheduleETagJob (alias (_definition f))]
   <-> _requestEtagJob e = false /\ paused (_definition f) = false
       /\ connected = true /\ ready = true)
  /\ (res.2 = [] \/ res.2 = [FolderManScheduleETagJob (alias (_definition f))])
  /\ (res.2 <> [] -> slotRunEtagJob connected' ready' f' res.1 = (res.1, []))
  /\ _lastEtag res.1 = _lastEtag e.
Proof.
  intros res.
  assert (Hkept : forall x, _requestEtagJob x = true ->
                            slotRunEtagJob connected' ready' f' x = (x, [])).
  { intros x Hx. unfold slotRunEtagJob. by rewrite Hx. }
  destruct (_requestEtagJob e) eqn:Hjob.
  - assert (Hres : res = (e, [])) by (subst res; unfold slotRunEtagJob; by rewrite Hjob).
    rewrite Hres. simpl. split; [ | split; [ by left | split; [ done | done ] ] ].
    split; [ discriminate | intros (? & _); discriminate ].
  - destruct (canSync connected ready f) eqn:Hcan.
    + assert (Hres : res = ({| _lastEtag := _lastEtag e; _requestEtagJob := true |},
                            [FolderManScheduleETagJob (alias (_definition f))])).
      { subst res. unfold slotRunEtagJob. by rewrite Hjob, Hcan. }
      rewrite Hres. simpl.
      split; [ | split; [ by right | split; [ | done ] ] ].
      * split; [ intros _ | done ].
        unfold canSync, syncPaused in Hcan.
        destruct (paused (_definition f)), connected, ready; done.
      * intros _. by apply Hkept.
    + assert (Hres : res = (e, []))
        by (subst res; unfold slotRunEtagJob; by rewrite Hjob, Hcan).
      rewrite Hres. simpl. split; [ | split; [ by left | split; [ done | done ] ] ].
      split; [ discriminate | ].
      intros (_ & Hp & -> & ->). unfold canSync, syncPaused in Hcan.
      rewrite Hp in Hcan. discriminate.
Qed.

(** X19. The delayed end of a run always announces the sync result left
    by [slotSyncFinished]. It goes on to check the etag of the root only
    after a run that ended in success or problem and that deleted, added,
    renamed or updated an item or found a new conflict; after a run that
    ended in error or paused it checks nothing. *)
Theorem slotEmitFinishedDelayed_after_run
    (connected ready : bool) (items : FirstItems)
    (unspecified now : Z) (success : bool) (f : Folder) (e : EtagPoll) :
  let f' := slotSyncFinished unspecified now success f in
  let res := slotEmitFinishedDelayed connected ready items f' e in
  let activity :=
    isSome (firstItemDeleted items) || isSome (firstItemNew items)
    || isSome (firstItemRenamed items) || isSome (firstItemUpdated items)
    || isSome (firstNewConflictItem items) in
  (exists rest, res.2 = EmitSyncFinished (_syncResult f') :: rest)
  /\ (status (_syncResult f') = Error \/ status (_syncResult f') = Paused
      \/ activity = false ->
      res = (e, [EmitSyncFinished (_syncResult f')]))
  /\ ((status (_syncResult f') = Success \/ status (_syncResult f') = Problem) ->
      activity = true ->
      res.1 = (slotRunEtagJob connected ready f' e).1
      /\ res.2 = EmitSyncFinished (_syncResult f')
                 :: (slotRunEtagJob connected ready f' e).2).
Proof.
  intros f' res activity. subst res. unfold slotEmitFinishedDelayed. cbv zeta.
  fold activity.
  destruct (slotRunEtagJob connected ready f' e) as [e1 notices] eqn:Hjob.
  destruct (status (_syncResult f')) eqn:Hst; destruct activity; simpl;
    (split; [ by eexists | ]);
    (split; [ try done; intros [? | [? | ?]]; discriminate | ]);
    try done;
    intros [? | ?]; discriminate.
Qed.

(** *** Conflicts *)

(** X20. [slotFolderConflicts] never lowers the number of old conflict
    items. For the folder that the list is about it raises the number so
    that old and new conflict items together are at least as many as the
    listed conflict paths; for another folder it changes nothing. The
    numbers are non-negative [int]s whose sum does not overflow. *)
Theorem slotFolderConflicts_raises_count
    (folderAlias : string) (conflictPaths : list string) (f : Folder)
    (numNew numOld : Z)
    (Hnew : 0 <= numNew) (Hold : 0 <= numOld)
    (Hsum : numNew + numOld <= INT_MAX)
    (Hpaths : Z.of_nat (length conflictPaths) <= INT_MAX) :
  let numOld' := slotFolderConflicts folderAlias conflictPaths f numNew numOld in
  numOld <= numOld'
  /\ (folderAlias = alias (_definition f) ->
      Z.of_nat (length conflictPaths) <= numNew + numOld')
  /\ (folderAlias <> alias (_definition f) -> numOld' = numOld)
  /\ (Z.of_nat (length conflictPaths) <= numNew + numOld -> numOld' = numOld).
Proof.
  intros numOld'. subst numOld'. unfold slotFolderConflicts.
  assert (Hw : wrap_int (numNew + numOld) = numNew + numOld).
  { unfold wrap_int, INT_MAX in *. rewrite Z.mod_small by lia. lia. }
  rewrite Hw.
  case_bool_decide as Halias.
  - repeat split; try lia. intros Heq. contradiction.
  - destruct (Z.ltb_spec (numNew + numOld) (Z.of_nat (length conflictPaths)))
      as [Hlt | Hge].
    + assert (Hw' : wrap_int (Z.of_nat (length conflictPaths) - numNew)
                    = Z.of_nat (length conflictPaths) - numNew).
      { unfold wrap_int, INT_MAX in *. rewrite Z.mod_small by lia. lia. }
      rewrite Hw'. repeat split; try lia. intros Hne. contradiction.
    + repeat split; try lia.
Qed.

Lemma slotFolderConflicts_raises_count_witness :
  0 <= 1 /\ 0 <= 0 /\ 1 + 0 <= INT_MAX
  /\ Z.of_nat (length ["a (conflicted copy).txt"; "b (conflicted copy).txt";
                       "c (conflicted copy).txt"]) <= INT_MAX
  /\ slotFolderConflicts "docs"
       ["a (conflicted copy).txt"; "b (conflicted copy).txt"; "c (conflicted copy).txt"]
       sampleFolder 1 0
     = 2.
Proof.
  assert (H1 : 0 <= 1) by lia. assert (H0 : 0 <= 0) by lia.
  assert (Hs : 1 + 0 <= INT_MAX) by (vm_compute; discriminate).
  assert (Hp : Z.of_nat (length ["a (conflicted copy).txt"; "b (conflicted copy).txt";
                                  "c (conflicted copy).txt"]) <= INT_MAX)
    by (vm_compute; discriminate).
  repeat (split; [ assumption | ]).
  destruct (slotFolderConflicts_raises_count "docs"
              ["a (conflicted copy).txt"; "b (conflicted copy).txt";
               "c (conflicted copy).txt"] sampleFolder 1 0 H1 H0 Hs Hp)
    as (_ & _ & _ & _).
  reflexivity.
Defined.

(** *** Paths of the definition *)

Lemma replaceChar_append (a b : ascii) (s t : string) :
  replaceChar a b (s ++ t) = (replaceChar a b s ++ replaceChar a b t)%string.
Proof. induction s as [ | c s IH]; simpl; [ done | by rewrite IH ]. Qed.

Lemma replaceChar_idempotent (a b : ascii) (s : string) :
  a <> b -> replaceChar a b (replaceChar a b s) = replaceChar a b s.
Proof.
  intros Hab. induction s as [ | c s IH]; simpl; [ done | ]. rewrite IH. f_equal.
  destruct (Ascii.eqb_spec c a) as [-> | Hne].
  - destruct (Ascii.eqb_spec b a) as [Heq | _]; [ by symmetry in Heq | done ].
  - destruct (Ascii.eqb_spec c a); [ contradiction | done ].
Qed.

Lemma fromNativeSeparators_idempotent (windows : bool) (s : string) :
  fromNativeSeparators windows (fromNativeSeparators windows s)
  = fromNativeSeparators windows s.
Proof.
  destruct windows; [ | reflexivity ]. simpl.
  by apply replaceChar_idempotent.
Qed.

Lemma fromNativeSeparators_append_slash (windows : bool) (s : string) :
  fromNativeSeparators windows (s ++ "/")
  = (fromNativeSeparators windows s ++ "/")%string.
Proof.
  destruct windows; [ | reflexivity ]. simpl. by rewrite replaceChar_append.
Qed.

(** X21. The local path that [setLocalPath] stores always ends with a
    slash, holds no backslash on Windows, and is a fixed point: storing a
    stored path again leaves it as it is. *)
Theorem setLocalPath_normalizes (windows : bool) (p : string) :
  endsWith (setLocalPath windows p) "/" = true
  /\ setLocalPath windows (setLocalPath windows p) = setLocalPath windows p
  /\ (windows = true -> lastIndexOf (setLocalPath windows p) "\" = -1).
Proof.
  assert (Hends : endsWith (setLocalPath windows p) "/" = true).
  { unfold setLocalPath. cbv zeta.
    destruct (endsWith (fromNativeSeparators windows p) "/") eqn:He; simpl.
    - exact He.
    - apply endsWith_append_slash. }
  split; [ exact Hends | ]. split.
  - assert (Hfix : fromNativeSeparators windows (setLocalPath windows p)
                   = setLocalPath windows p).
    { unfold setLocalPath at 1 2. cbv zeta.
      destruct (endsWith (fromNativeSeparators windows p) "/"); simpl.
      - apply fromNativeSeparators_idempotent.
      - rewrite fromNativeSeparators_append_slash.
        by rewrite fromNativeSeparators_idempotent. }
    unfold setLocalPath at 1. cbv zeta. rewrite Hfix, Hends. reflexivity.
  - intros ->.
    assert (Hcons : forall (c : ascii) (s : string),
               lastIndexOf s "\" = -1 -> Ascii.eqb c "\" = false ->
               lastIndexOf (String c s) "\" = -1).
    { intros c s Hs Hc. cbn [lastIndexOf]. rewrite Hs, Hc. reflexivity. }
    assert (Hno : forall s, lastIndexOf (replaceChar "\" "/" s) "\" = -1).
    { induction s as [ | c s IH]; [ reflexivity | ].
      cbn [replaceChar]. apply Hcons; [ exact IH | ].
      destruct (Ascii.eqb_spec c "\") as [-> | Hne]; [ reflexivity | ].
      by apply Ascii.eqb_neq. }
    assert (Happ : forall s, lastIndexOf s "\" = -1 -> lastIndexOf (s ++ "/") "\" = -1).
    { induction s as [ | c s IH]; [ reflexivity | ].
      intros H.
      change (String c s ++ "/")%string with (String c (s ++ "/")).
      pose proof (lastIndexOf_range s "\") as Hrange.
      cbn [lastIndexOf] in H.
      destruct (Z.leb_spec 0 (lastIndexOf s "\")) as [Hge | Hlt]; [ lia | ].
      destruct (Ascii.eqb c "\") eqn:Hc; [ discriminate | ].
      apply Hcons; [ apply IH; lia | exact Hc ]. }
    clear Hends. unfold setLocalPath, fromNativeSeparators. cbv zeta.
    destruct (endsWith (replaceChar "\" "/" p) "/"); simpl negb; cbv iota;
      [ apply Hno | apply Happ, Hno ].
Qed.

(** X22. The target path that [setTargetPath] stores always starts with
    a slash, whatever is stripped from the end; the remote path with a
    trailing slash always ends with one, and the root ["/"] is returned
    as it is, not with a second slash. *)
Theorem targetPath_slashes (stripTrailingSlash : string -> string) (p remote : string) :
  startsWith (setTargetPath stripTrailingSlash p) "/" = true
  /\ (stripTrailingSlash p = "" -> setTargetPath stripTrailingSlash p = "/")
  /\ endsWith (remotePathTrailingSlash remote) "/" = true
  /\ remotePathTrailingSlash "/" = "/"
  /\ (remote <> "/" -> remotePathTrailingSlash remote = (remote ++ "/")%string).
Proof.
  unfold setTargetPath, remotePathTrailingSlash. cbv zeta.
  split; [ | split; [ | split; [ | split ] ] ].
  - destruct (startsWith (stripTrailingSlash p) "/") eqn:Hs; simpl; [ exact Hs | done ].
  - intros ->. reflexivity.
  - destruct (String.eqb_spec remote "/") as [-> | Hne]; [ reflexivity | ].
    apply endsWith_append_slash.
  - reflexivity.
  - intros Hne. destruct (String.eqb_spec remote "/"); [ contradiction | reflexivity ].
Qed.

Lemma setLocalPath_idempotent (windows : bool) (p : string) :
  setLocalPath windows (setLocalPath windows p) = setLocalPath windows p.
Proof.
  assert (Hends : endsWith (setLocalPath windows p) "/" = true).
  { unfold setLocalPath. cbv zeta.
    destruct (endsWith (fromNativeSeparators windows p) "/") eqn:He; simpl.
    - exact He.
    - apply endsWith_append_slash. }
  assert (Hfix : fromNativeSeparators windows (setLocalPath windows p)
                 = setLocalPath windows p).
  { unfold setLocalPath at 1 2. cbv zeta.
    destruct (endsWith (fromNativeSeparators windows p) "/"); simpl.
    - apply fromNativeSeparators_idempotent.
    - rewrite fromNativeSeparators_append_slash.
      by rewrite fromNativeSeparators_idempotent. }
  unfold setLocalPath at 1. cbv zeta. rewrite Hfix, Hends. reflexivity.
Qed.

(** *** The short path of a folder *)

Lemma prefix_append (h x : string) : String.prefix h (h ++ x) = true.
Proof.
  induction h as [ | a h IH]; simpl; [ by destruct x | ].
  destruct (ascii_dec a a); [ exact IH | contradiction ].
Qed.

Lemma mid_append (h x : string) : mid (h ++ x) (QString_size h) = x.
Proof.
  unfold mid, QString_size.
  destruct (Z.ltb_spec (Z.of_nat (String.length h)) 0) as [ | _]; [ lia | ].
  rewrite Nat2Z.id. induction h as [ | a h IH]; simpl; [ by destruct x | exact IH ].
Qed.

Lemma left_nat_append (r t : string) : left_nat (r ++ t) (String.length r) = r.
Proof. induction r as [ | a r IH]; simpl; [ by destruct t | by rewrite IH ]. Qed.

Lemma chop_append_slash (r : string) : chop (r ++ "/") 1 = r.
Proof.
  unfold chop, QString_size. rewrite length_append. simpl String.length.
  destruct (Z.ltb_spec 1 0); [ lia | ].
  destruct (Z.leb_spec (Z.of_nat (String.length r + 1)) 1) as [Hle | Hgt].
  - destruct r; [ reflexivity | simpl in Hle; lia ].
  - unfold left. destruct (Z.ltb_spec (Z.of_nat (String.length r + 1) - 1) 0); [ lia | ].
    replace (Z.to_nat (Z.of_nat (String.length r + 1) - 1)) with (String.length r) by lia.
    apply left_nat_append.
Qed.

Lemma append_empty_r (s : string) : (s ++ "")%string = s.
Proof.
  induction s as [ | a s IH]; [ done | ].
  change (String a s ++ "")%string with (String a (s ++ "")). by rewrite IH.
Qed.

(** X23. The short local path of a folder that lies below the home
    directory is its path relative to the home directory, without the
    trailing slash and with native separators; the home directory itself
    gives the empty path. *)
Theorem shortGuiLocalPath_below_home (windows : bool) (homePath rel : string) :
  let home :=
    if negb (endsWith homePath "/") then (homePath ++ "/")%string else homePath in
  shortGuiLocalPath windows homePath home = ""
  /\ (rel <> "" ->
      shortGuiLocalPath windows homePath (home ++ rel ++ "/")
      = toNativeSeparators windows rel).
Proof.
  intros home. unfold shortGuiLocalPath. cbv zeta. fold home. split.
  - pose proof (prefix_append home "") as Hp. rewrite append_empty_r in Hp.
    pose proof (mid_append home "") as Hm. rewrite append_empty_r in Hm.
    rewrite Hp, Hm. simpl. by destruct windows.
  - intros Hrel. rewrite prefix_append, mid_append.
    assert (Hlong : (1 <? QString_size (rel ++ "/")) = true).
    { unfold QString_size. rewrite length_append. simpl String.length.
      apply Z.ltb_lt. destruct rel; [ contradiction | simpl; lia ]. }
    rewrite Hlong, endsWith_append_slash. simpl andb. cbv iota.
    by rewrite chop_append_slash.
Qed.

(** *** The settings of a folder *)

Lemma append_assoc (a b c : string) : ((a ++ b) ++ c)%string = (a ++ (b ++ c))%string.
Proof.
  induction a as [ | x a IH]; [ done | ].
  change (String x a ++ b)%string with (String x (a ++ b)).
  change (String x (a ++ b) ++ c)%string with (String x ((a ++ b) ++ c)).
  change (String x a ++ (b ++ c))%string with (String x (a ++ (b ++ c))).
  by rewrite IH.
Qed.

Lemma append_inj_l (p a b : string) : (p ++ a)%string = (p ++ b)%string -> a = b.
Proof.
  induction p as [ | x p IH]; [ done | ].
  change (String x p ++ a)%string with (String x (p ++ a)).
  change (String x p ++ b)%string with (String x (p ++ b)).
  intros [= H]. by apply IH.
Qed.

Lemma prefix_append_cancel (p a b : string) :
  String.prefix (p ++ a) (p ++ b) = String.prefix a b.
Proof.
  induction p as [ | x p IH]; [ done | ].
  change (String x p ++ a)%string with (String x (p ++ a)).
  change (String x p ++ b)%string with (String x (p ++ b)).
  simpl. destruct (ascii_dec x x); [ exact IH | contradiction ].
Qed.

Lemma prefix_true_append (a b : string) :
  String.prefix a b = true -> exists r, b = (a ++ r)%string.
Proof.
  revert b. induction a as [ | x a IH]; intros b H.
  - by exists b.
  - destruct b as [ | y b]; [ discriminate | ]. simpl in H.
    destruct (ascii_dec x y) as [-> | ]; [ | discriminate ].
    destruct (IH b H) as [r ->]. by exists r.
Qed.

Lemma prefix_trans_false (p q k : string) :
  String.prefix p q = true -> String.prefix p k = false -> String.prefix q k = false.
Proof.
  intros Hpq Hpk. destruct (String.prefix q k) eqn:Hqk; [ | done ].
  apply prefix_true_append in Hpq as [r ->].
  apply prefix_true_append in Hqk as [r' ->].
  rewrite append_assoc in Hpk. by rewrite prefix_append in Hpk.
Qed.

Lemma isUnder_prefix (p k : string) :
  Settings.isUnder p k = true -> String.prefix p k = true.
Proof.
  unfold Settings.isUnder. intros H. apply orb_true_iff in H as [H | H].
  - apply String.eqb_eq in H as ->.
    pose proof (prefix_append p "") as Hp. by rewrite append_empty_r in Hp.
  - apply prefix_true_append in H as [r ->]. rewrite append_assoc. apply prefix_append.
Qed.

Lemma isUnder_below (p x : string) : Settings.isUnder p ((p ++ "/") ++ x) = true.
Proof. unfold Settings.isUnder. by rewrite prefix_append, orb_true_r. Qed.

Lemma isUnder_append_cancel (p a b : string) :
  Settings.isUnder (p ++ a) (p ++ b) = Settings.isUnder a b.
Proof.
  unfold Settings.isUnder. rewrite append_assoc, prefix_append_cancel. f_equal.
  destruct (String.eqb_spec b a) as [-> | Hne].
  - apply String.eqb_refl.
  - apply String.eqb_neq. intros H. by apply append_inj_l in H.
Qed.

Lemma left_append_slash (x : string) :
  left (x ++ "/") (QString_size (x ++ "/") - 1) = x.
Proof.
  unfold left, QString_size. rewrite length_append. simpl String.length.
  destruct (Z.ltb_spec (Z.of_nat (String.length x + 1) - 1) 0); [ lia | ].
  replace (Z.to_nat (Z.of_nat (String.length x + 1) - 1)) with (String.length x) by lia.
  apply left_nat_append.
Qed.

Lemma groups_setValue (key : string) (v : Settings.QVariant) (s : Settings.QSettings) :
  Settings.groups (Settings.setValue key v s) = Settings.groups s.
Proof. unfold Settings.setValue. by destruct (isEmpty key). Qed.

Lemma groups_remove (key : string) (s : Settings.QSettings) :
  Settings.groups (Settings.remove key s) = Settings.groups s.
Proof. unfold Settings.remove. cbv zeta. by destruct (isEmpty _). Qed.

Lemma store_setValue (key : string) (v : Settings.QVariant) (s : Settings.QSettings)
    (k : string) :
  isEmpty key = false ->
  Settings.store (Settings.setValue key v s) !! k
  = if decide (Settings.fullKey s key = k) then Some v else Settings.store s !! k.
Proof.
  intros Hkey. unfold Settings.setValue. rewrite Hkey. cbn [Settings.store].
  apply lookup_insert.
Qed.

Lemma store_remove (key : string) (s : Settings.QSettings) (k : string) :
  Settings.store (Settings.remove key s) !! k
  = if Settings.erases key s k then None else Settings.store s !! k.
Proof.
  unfold Settings.remove, Settings.erases. cbv zeta.
  destruct (isEmpty (Settings.removedKey key s)); cbn [Settings.store orb];
    [ apply lookup_empty | ].
  destruct (Settings.isUnder (Settings.removedKey key s) k) eqn:Hu.
  - apply map_lookup_filter_None. right. intros v _. cbn [fst]. by rewrite Hu.
  - destruct (Settings.store s !! k) as [v | ] eqn:Hk.
    + apply map_lookup_filter_Some. by split.
    + apply map_lookup_filter_None. by left.
Qed.

Lemma value_setValue (key key' : string) (d v : Settings.QVariant)
    (s : Settings.QSettings) :
  isEmpty key' = false -> isEmpty key = false ->
  Settings.value key d (Settings.setValue key' v s)
  = if decide (Settings.normalizedKey key' = Settings.normalizedKey key) then v
    else Settings.value key d s.
Proof.
  intros Hkey' Hkey. unfold Settings.value. rewrite Hkey.
  rewrite (store_setValue _ _ _ _ Hkey').
  unfold Settings.fullKey. rewrite groups_setValue.
  destruct (decide (Settings.normalizedKey key' = Settings.normalizedKey key))
    as [-> | Hne].
  - by rewrite decide_True.
  - rewrite decide_False; [ done | ]. intros H. by apply append_inj_l in H.
Qed.

Lemma value_remove (key key' : string) (d : Settings.QVariant) (s : Settings.QSettings) :
  isEmpty (Settings.normalizedKey key') = false -> isEmpty key = false ->
  Settings.value key d (Settings.remove key' s)
  = if Settings.isUnder (Settings.normalizedKey key') (Settings.normalizedKey key) then d
    else Settings.value key d s.
Proof.
  intros Hkey' Hkey. unfold Settings.value. rewrite Hkey, store_remove.
  unfold Settings.fullKey. rewrite groups_remove.
  unfold Settings.erases, Settings.removedKey. cbv zeta. rewrite Hkey'.
  rewrite (isEmpty_append _ _ Hkey'), isUnder_append_cancel. cbn [orb].
  by destruct (Settings.isUnder _ _).
Qed.

Ltac settle_values :=
  repeat match goal with
    | |- context [Settings.value ?k ?d (Settings.setValue ?k' ?v ?s)] =>
        rewrite (value_setValue k k' d v s) by reflexivity;
        let a := eval vm_compute in (Settings.normalizedKey k') in
        let b := eval vm_compute in (Settings.normalizedKey k) in
        change (Settings.normalizedKey k') with a;
        change (Settings.normalizedKey k) with b;
        first [ rewrite decide_True by reflexivity
              | rewrite decide_False by discriminate ]
    | |- context [Settings.value ?k ?d (Settings.remove ?k' ?s)] =>
        rewrite (value_remove k k' d s) by reflexivity;
        let u := eval vm_compute in
                   (Settings.isUnder (Settings.normalizedKey k') (Settings.normalizedKey k)) in
        change (Settings.isUnder (Settings.normalizedKey k') (Settings.normalizedKey k))
          with u;
        cbv iota
    end.

(** What [load] finds for each key that [save] writes. *)
Lemma save_values (modeToString : Settings.Mode -> string)
    (folder : Settings.FolderDefinition) (s : Settings.QSettings) :
  let s' := Settings.save modeToString folder s in
  Settings.value "localPath" Settings.Invalid s'
  = Settings.OfString (Settings._localPath folder)
  /\ Settings.value "journalPath" Settings.Invalid s'
     = Settings.OfString (Settings.journalPath folder)
  /\ Settings.value "targetPath" Settings.Invalid s'
     = Settings.OfString (Settings._targetPath folder)
  /\ Settings.value "davUrl" Settings.Invalid s'
     = Settings.OfUrl (Settings._webDavUrl folder)
  /\ Settings.value "paused" Settings.Invalid s'
     = Settings.OfBool (Settings.paused folder)
  /\ Settings.value "ignoreHiddenFiles" (Settings.OfBool true) s'
     = Settings.OfBool (Settings.ignoreHiddenFiles folder)
  /\ Settings.value "virtualFilesMode" Settings.Invalid s'
     = Settings.OfString (modeToString (Settings.virtualFilesMode folder))
  /\ Settings.value "navigationPaneClsid" Settings.Invalid s'
     = if Settings.isNull (Settings.navigationPaneClsid folder)
       then Settings.Invalid
       else Settings.OfUuid (Settings.navigationPaneClsid folder).
Proof.
  intros s'. subst s'. unfold Settings.save. cbv zeta.
  destruct (Settings.isNull (Settings.navigationPaneClsid folder)); simpl negb; cbv iota;
    repeat apply conj; settle_values; reflexivity.
Qed.

Lemma isNull_true (u : Settings.QUuid) : Settings.isNull u = true -> u = 0%N.
Proof. unfold Settings.isNull. apply N.eqb_eq. Qed.

(** X24. What [FolderDefinition::save] writes, [FolderDefinition::load]
    reads back, whatever the settings held before: the journal path, the
    url, the flags, the mode of the virtual files and the identifier of the
    navigation pane are those of the saved definition, and the two paths
    are those that their setters make of the saved ones. This needs that
    [Vfs::modeFromString] reads the names of [Vfs::modeToString], none of
    which is empty, and that the constructor keeps the url. *)
Theorem load_after_save
    (otherToString : Settings.QVariant -> string)
    (otherToBool : Settings.QVariant -> bool)
    (otherToUrl : Settings.QVariant -> string)
    (otherToUuid : Settings.QVariant -> Settings.QUuid)
    (modeToString : Settings.Mode -> string)
    (modeFromString : string -> option Settings.Mode)
    (unescapeAlias : string -> string)
    (newFolderDefinition : string -> Settings.FolderDefinition)
    (stripTrailingSlash : string -> string) (windows : bool)
    (folder : Settings.FolderDefinition) (settings : Settings.QSettings)
    (alias' : string)
    (Hmode : forall m, modeFromString (modeToString m) = Some m)
    (Hname : forall m, isEmpty (modeToString m) = false)
    (Hurl : forall u, Settings._webDavUrl (newFolderDefinition u) = u) :
  let loaded :=
    Settings.load otherToString otherToBool otherToUrl otherToUuid modeFromString
      unescapeAlias newFolderDefinition stripTrailingSlash windows
      (Settings.save modeToString folder settings) alias' in
  Settings.alias loaded = unescapeAlias alias'
  /\ Settings._localPath loaded = setLocalPath windows (Settings._localPath folder)
  /\ Settings.journalPath loaded = Settings.journalPath folder
  /\ Settings._targetPath loaded
     = setTargetPath stripTrailingSlash (Settings._targetPath folder)
  /\ Settings._webDavUrl loaded = Settings._webDavUrl folder
  /\ Settings.paused loaded = Settings.paused folder
  /\ Settings.ignoreHiddenFiles loaded = Settings.ignoreHiddenFiles folder
  /\ Settings.virtualFilesMode loaded = Settings.virtualFilesMode folder
  /\ Settings.navigationPaneClsid loaded = Settings.navigationPaneClsid folder
  /\ Settings.upgradeVfsMode loaded
     = Settings.upgradeVfsMode (newFolderDefinition (Settings._webDavUrl folder)).
Proof.
  intros loaded. subst loaded.
  destruct (save_values modeToString folder settings)
    as (Hl & Hj & Ht & Hd & Hp & Hi & Hv & Hn).
  unfold Settings.load. cbv zeta.
  cbn [Settings.alias Settings._localPath Settings.journalPath Settings._targetPath
       Settings._webDavUrl Settings.paused Settings.ignoreHiddenFiles
       Settings.virtualFilesMode Settings.navigationPaneClsid Settings.upgradeVfsMode].
  rewrite Hl, Hj, Ht, Hd, Hp, Hi, Hv, Hn.
  cbn [Settings.toString Settings.toBool Settings.toUrl].
  rewrite Hname, Hmode, Hurl. cbn [negb andb].
  repeat apply conj; try reflexivity.
  destruct (Settings.isNull (Settings.navigationPaneClsid folder)) eqn:Hnull;
    [ | reflexivity ].
  apply isNull_true in Hnull. by rewrite Hnull.
Qed.

Lemma load_after_save_witness :
  let loaded := sampleLoad (Settings.save sampleModeToString sampleDefinition sampleSettings)
                  "docs" in
  Settings._localPath loaded = "/home/user/docs/"
  /\ Settings._targetPath loaded = "/Documents"
  /\ Settings.virtualFilesMode loaded = Settings.WithSuffix
  /\ Settings.paused loaded = true.
Proof.
  assert (Hmode : forall m, sampleModeFromString (sampleModeToString m) = Some m)
    by (intros m; destruct m; reflexivity).
  assert (Hname : forall m, isEmpty (sampleModeToString m) = false)
    by (intros m; destruct m; reflexivity).
  assert (Hurl : forall u, Settings._webDavUrl (sampleNewFolderDefinition u) = u)
    by reflexivity.
  pose proof (load_after_save (fun _ => "") (fun _ => false) (fun _ => "")
                (fun _ => 0%N) sampleModeToString sampleModeFromString (fun a => a)
                sampleNewFolderDefinition sampleStripTrailingSlash false
                sampleDefinition sampleSettings "docs" Hmode Hname Hurl)
    as (_ & Hl & _ & Ht & _ & Hp & _ & Hv & _).
  cbv zeta. unfold sampleLoad. rewrite Hl, Ht, Hp, Hv.
  repeat apply conj; vm_compute; reflexivity.
Defined.

(** X25. Settings that hold no mode of the virtual files, as an older
    client wrote them: [FolderDefinition::load] reads the mode from the key
    [usePlaceholders]. If it is set the mode is [WithSuffix] and the
    upgrade of the mode is asked for; otherwise the mode is [Off] and the
    upgrade is as the constructor left it. Hidden files are ignored when
    the settings do not say. *)
Theorem load_of_older_settings
    (otherToString : Settings.QVariant -> string)
    (otherToBool : Settings.QVariant -> bool)
    (otherToUrl : Settings.QVariant -> string)
    (otherToUuid : Settings.QVariant -> Settings.QUuid)
    (modeFromString : string -> option Settings.Mode)
    (unescapeAlias : string -> string)
    (newFolderDefinition : string -> Settings.FolderDefinition)
    (stripTrailingSlash : string -> string) (windows : bool)
    (settings : Settings.QSettings) (alias' : string)
    (Hmode : Settings.store settings !! Settings.fullKey settings "virtualFilesMode" = None)
    (Hhidden :
       Settings.store settings !! Settings.fullKey settings "ignoreHiddenFiles" = None) :
  let loaded :=
    Settings.load otherToString otherToBool otherToUrl otherToUuid modeFromString
      unescapeAlias newFolderDefinition stripTrailingSlash windows settings alias' in
  let legacy :=
    Settings.toBool otherToBool (Settings.value "usePlaceholders" Settings.Invalid settings) in
  Settings.ignoreHiddenFiles loaded = true
  /\ Settings.virtualFilesMode loaded
     = (if legacy then Settings.WithSuffix else Settings.Off)
  /\ Settings.upgradeVfsMode loaded
     = (if legacy then true
        else Settings.upgradeVfsMode
               (newFolderDefinition
                  (Settings.toUrl otherToUrl
                     (Settings.value "davUrl" Settings.Invalid settings)))).
Proof.
  intros loaded legacy. subst loaded legacy.
  assert (Hv : Settings.value "virtualFilesMode" Settings.Invalid settings
               = Settings.Invalid).
  { unfold Settings.value. change (isEmpty "virtualFilesMode") with false.
    cbv iota. by rewrite Hmode. }
  assert (Hh : Settings.value "ignoreHiddenFiles" (Settings.OfBool true) settings
               = Settings.OfBool true).
  { unfold Settings.value. change (isEmpty "ignoreHiddenFiles") with false.
    cbv iota. by rewrite Hhidden. }
  unfold Settings.load. cbv zeta.
  cbn [Settings.ignoreHiddenFiles Settings.virtualFilesMode Settings.upgradeVfsMode].
  rewrite Hv, Hh. cbn [Settings.toString Settings.toBool isEmpty negb andb].
  repeat apply conj; reflexivity.
Qed.

Lemma load_of_older_settings_witness :
  let loaded := sampleLoad sampleOlderGroup "docs" in
  Settings.ignoreHiddenFiles loaded = true
  /\ Settings.virtualFilesMode loaded = Settings.WithSuffix
  /\ Settings.upgradeVfsMode loaded = true.
Proof.
  exact (load_of_older_settings (fun _ => "") (fun _ => false) (fun _ => "")
           (fun _ => 0%N) sampleModeFromString (fun a => a)
           sampleNewFolderDefinition sampleStripTrailingSlash false
           sampleOlderGroup "docs" eq_refl eq_refl).
Defined.

Lemma isEmpty_true (s : string) : isEmpty s = true -> s = "".
Proof. by destruct s. Qed.

Lemma folderGroups_names (G : string) :
  G ∈ folderGroups -> Settings.normalizedKey G = G /\ isEmpty G = false.
Proof.
  unfold folderGroups. rewrite !elem_of_cons, elem_of_nil.
  intros [-> | [-> | [-> | []]]]; split; reflexivity.
Qed.

Lemma folderGroups_disjoint (G g w : string) :
  G ∈ folderGroups -> g ∈ folderGroups -> G <> g ->
  String.prefix (g ++ "/") ((G ++ "/") ++ w) = false.
Proof.
  unfold folderGroups. rewrite !elem_of_cons, !elem_of_nil.
  intros [-> | [-> | [-> | []]]] [-> | [-> | [-> | []]]] Hne;
    try contradiction; vm_compute; reflexivity.
Qed.

Lemma settingsGroup_in (folder : Settings.FolderDefinition)
    (pending inPlaceholders backwards : bool) (cleanPath : string)
    (others : list string) :
  Settings.settingsGroup folder pending inPlaceholders backwards cleanPath others
  ∈ folderGroups.
Proof.
  unfold Settings.settingsGroup, folderGroups. cbv zeta.
  repeat case_match; rewrite !elem_of_cons; auto.
Qed.

Lemma groupPrefix_cons (g : string) (gs : list string) :
  isEmpty g = false ->
  Settings.groupPrefix (g :: gs) = (Settings.groupPrefix gs ++ g ++ "/")%string.
Proof. intros H. cbn [Settings.groupPrefix]. by rewrite H. Qed.

(** In a group with a name, the key that [remove] takes for an alias is
    not empty, and the keys of the group of that alias lie below it. *)
Lemma removedKey_in_group (ea g : string) (gs : list string) (t : Settings.QSettings) :
  Settings.groups t = g :: gs -> isEmpty g = false ->
  isEmpty (Settings.removedKey ea t) = false
  /\ Settings.groupPrefix (Settings.normalizedKey ea :: Settings.groups t)
     = (Settings.removedKey ea t ++ "/")%string.
Proof.
  intros Hgs Hg. unfold Settings.removedKey, Settings.group. cbv zeta. rewrite Hgs.
  rewrite (groupPrefix_cons g gs Hg).
  destruct (isEmpty (Settings.normalizedKey ea)) eqn:Ha.
  - cbn [Settings.groupPrefix]. rewrite Ha, Hg.
    rewrite <- (append_assoc (Settings.groupPrefix gs) g "/"), left_append_slash.
    split; [ by apply isEmpty_append | reflexivity ].
  - rewrite (groupPrefix_cons _ _ Ha), (groupPrefix_cons g gs Hg).
    split; [ by apply isEmpty_append | ]. by rewrite !append_assoc.
Qed.

Lemma erases_ext (key k : string) (s s' : Settings.QSettings) :
  Settings.groups s = Settings.groups s' ->
  Settings.erases key s k = Settings.erases key s' k.
Proof.
  intros H. unfold Settings.erases, Settings.removedKey, Settings.group. cbv zeta.
  by rewrite H.
Qed.

Lemma store_save_other (modeToString : Settings.Mode -> string)
    (folder : Settings.FolderDefinition) (s : Settings.QSettings) (k : string) :
  String.prefix (Settings.groupPrefix (Settings.groups s)) k = false ->
  Settings.store (Settings.save modeToString folder s) !! k = Settings.store s !! k.
Proof.
  intros Hout.
  assert (Hset : forall key v s', isEmpty key = false ->
            Settings.groups s' = Settings.groups s ->
            Settings.store (Settings.setValue key v s') !! k = Settings.store s' !! k).
  { intros key v s' Hkey Hg. rewrite (store_setValue key v s' k Hkey).
    unfold Settings.fullKey. rewrite Hg.
    rewrite decide_False; [ done | ]. intros E. rewrite <- E in Hout.
    by rewrite prefix_append in Hout. }
  assert (Hrem : forall key s', isEmpty (Settings.normalizedKey key) = false ->
            Settings.groups s' = Settings.groups s ->
            Settings.store (Settings.remove key s') !! k = Settings.store s' !! k).
  { intros key s' Hkey Hg. rewrite store_remove.
    unfold Settings.erases, Settings.removedKey. cbv zeta. rewrite Hkey, Hg.
    rewrite (isEmpty_append _ _ Hkey). cbn [orb].
    destruct (Settings.isUnder _ k) eqn:Hu; [ | done ].
    apply isUnder_prefix in Hu.
    by rewrite (prefix_trans_false _ _ k (prefix_append _ _) Hout) in Hu. }
  unfold Settings.save. cbv zeta.
  destruct (Settings.isNull (Settings.navigationPaneClsid folder)); simpl negb; cbv iota;
    repeat match goal with
      | |- context [Settings.store (Settings.setValue ?key ?v ?s') !! k] =>
          rewrite (Hset key v s')
            by first [ reflexivity | rewrite !groups_setValue; reflexivity ]
      | |- context [Settings.store (Settings.remove ?key ?s') !! k] =>
          rewrite (Hrem key s')
            by first [ reflexivity | rewrite !groups_setValue; reflexivity ]
      end;
    reflexivity.
Qed.

Lemma store_removeFromSettings (escapeAlias : string -> string)
    (folder : Settings.FolderDefinition) (acc : Settings.QSettings) (k : string) :
  Settings.store (Settings.removeFromSettings escapeAlias folder acc) !! k
  = if existsb (fun G => Settings.erases (escapeAlias (Settings.alias folder))
                           (Settings.beginGroup G acc) k)
         folderGroups
    then None else Settings.store acc !! k.
Proof.
  unfold Settings.removeFromSettings. cbv zeta.
  set (ea := escapeAlias (Settings.alias folder)).
  assert (Hin : forall G s,
            Settings.store
              (Settings.endGroup (Settings.remove ea (Settings.beginGroup G s))) !! k
            = if Settings.erases ea (Settings.beginGroup G s) k then None
              else Settings.store s !! k).
  { intros G s. apply (store_remove ea (Settings.beginGroup G s) k). }
  assert (Hgs : forall G s,
            Settings.groups
              (Settings.endGroup (Settings.remove ea (Settings.beginGroup G s)))
            = Settings.groups s).
  { intros G s. cbn [Settings.endGroup Settings.groups]. by rewrite groups_remove. }
  set (s1 := Settings.endGroup (Settings.remove ea (Settings.beginGroup "Folders" acc))).
  set (s2 := Settings.endGroup (Settings.remove ea (Settings.beginGroup "Multifolders" s1))).
  rewrite (store_remove ea (Settings.beginGroup "FoldersWithPlaceholders" s2) k).
  change (Settings.store (Settings.beginGroup "FoldersWithPlaceholders" s2))
    with (Settings.store s2).
  assert (H2 : Settings.groups s2 = Settings.groups acc).
  { subst s2. rewrite Hgs. subst s1. apply Hgs. }
  assert (H1 : Settings.groups s1 = Settings.groups acc).
  { subst s1. apply Hgs. }
  rewrite (erases_ext ea k (Settings.beginGroup "FoldersWithPlaceholders" s2)
             (Settings.beginGroup "FoldersWithPlaceholders" acc))
    by (cbn [Settings.beginGroup Settings.groups]; by rewrite H2).
  subst s2. rewrite Hin.
  rewrite (erases_ext ea k (Settings.beginGroup "Multifolders" s1)
             (Settings.beginGroup "Multifolders" acc))
    by (cbn [Settings.beginGroup Settings.groups]; by rewrite H1).
  subst s1. rewrite Hin.
  unfold folderGroups. cbn [existsb].
  destruct (Settings.erases ea (Settings.beginGroup "Folders" acc) k),
    (Settings.erases ea (Settings.beginGroup "Multifolders" acc) k),
    (Settings.erases ea (Settings.beginGroup "FoldersWithPlaceholders" acc) k);
    reflexivity.
Qed.

Lemma existsb_folderGroups (acc : Settings.QSettings) (G ea k : string) :
  G ∈ folderGroups -> Settings.erases ea (Settings.beginGroup G acc) k = true ->
  existsb (fun G => Settings.erases ea (Settings.beginGroup G acc) k) folderGroups = true.
Proof.
  intros HG Hu. apply existsb_exists. exists G. split; [ | exact Hu ].
  by apply list_elem_of_In.
Qed.

(** The keys under which [saveToSettings] saves the folder start with the
    key that [removeFromSettings] took for the alias in the chosen group,
    followed by a slash. *)
Lemma saved_below_removed (ea g : string) (acc : Settings.QSettings)
    (st : gmap string Settings.QVariant) :
  g ∈ folderGroups ->
  isEmpty (Settings.removedKey ea (Settings.beginGroup g acc)) = false
  /\ Settings.groupPrefix
       (Settings.groups
          (Settings.beginGroup ea
             (Settings.beginGroup g
                {| Settings.store := st; Settings.groups := Settings.groups acc |})))
     = (Settings.removedKey ea (Settings.beginGroup g acc) ++ "/")%string.
Proof.
  intros Hg. destruct (folderGroups_names g Hg) as [Hn He].
  destruct (removedKey_in_group ea g (Settings.groups acc)
              (Settings.beginGroup g acc)) as [Hne Hp].
  { cbn [Settings.beginGroup Settings.groups]. by rewrite Hn. }
  { exact He. }
  split; [ exact Hne | ].
  cbn [Settings.beginGroup Settings.groups] in *. rewrite Hn in *. exact Hp.
Qed.

(** What lies below the alias in a group lies below the key that
    [removeFromSettings] takes for it. *)
Lemma under_alias_erased (ea G k : string) (acc : Settings.QSettings) :
  G ∈ folderGroups ->
  Settings.isUnder (aliasKey acc G ea) k = true ->
  Settings.erases ea (Settings.beginGroup G acc) k = true.
Proof.
  intros HG Hu. destruct (folderGroups_names G HG) as [Hn He].
  destruct (removedKey_in_group ea G (Settings.groups acc)
              (Settings.beginGroup G acc)) as [Hne Hp].
  { cbn [Settings.beginGroup Settings.groups]. by rewrite Hn. }
  { exact He. }
  unfold Settings.erases. rewrite Hne. cbn [orb].
  unfold aliasKey, Settings.fullKey in Hu.
  destruct (isEmpty (Settings.normalizedKey ea)) eqn:Ha.
  - cbn [Settings.groupPrefix] in Hp. rewrite Ha in Hp.
    rewrite (isEmpty_true _ Ha), append_empty_r in Hu.
    cbn [Settings.groupPrefix] in Hu. rewrite Hp in Hu.
    apply isUnder_prefix in Hu.
    unfold Settings.isUnder. by rewrite Hu, orb_true_r.
  - unfold Settings.removedKey. cbv zeta. rewrite Ha. exact Hu.
Qed.

(** X26. [Folder::saveToSettings] changes nothing but what its calls of
    [QSettings::remove] erase: a stored key that the removal of the alias
    erases in none of the three groups is after the call what it was
    before. When the escaped alias names a key, those are the keys other
    than that of the alias in one of the three groups and the keys below
    it; when it names none, the removal erases a whole group. *)
Theorem saveToSettings_keeps_other_keys
    (modeToString : Settings.Mode -> string) (escapeAlias : string -> string)
    (folder : Settings.FolderDefinition)
    (pending inPlaceholders backwards : bool) (cleanPath : string)
    (others : list string) (acc : Settings.QSettings) (k : string)
    (Hout : forall G, G ∈ folderGroups ->
              Settings.erases (escapeAlias (Settings.alias folder))
                (Settings.beginGroup G acc) k
              = false) :
  Settings.store
    (Settings.saveToSettings modeToString escapeAlias folder pending inPlaceholders
       backwards cleanPath others acc) !! k
  = Settings.store acc !! k
  /\ (isEmpty (Settings.normalizedKey (escapeAlias (Settings.alias folder))) = false ->
      forall G, G ∈ folderGroups ->
        Settings.erases (escapeAlias (Settings.alias folder))
          (Settings.beginGroup G acc) k
        = Settings.isUnder (aliasKey acc G (escapeAlias (Settings.alias folder))) k).
Proof.
  split.
  - unfold Settings.saveToSettings. cbv zeta.
    set (g := Settings.settingsGroup folder pending inPlaceholders backwards cleanPath
                others).
    assert (Hg : g ∈ folderGroups) by apply settingsGroup_in.
    destruct (saved_below_removed (escapeAlias (Settings.alias folder)) g acc
                (Settings.store
                   (Settings.removeFromSettings escapeAlias folder acc)) Hg)
      as [Hne Hp].
    rewrite store_save_other.
    + cbn [Settings.store Settings.beginGroup]. rewrite store_removeFromSettings.
      destruct (existsb _ folderGroups) eqn:He; [ | done ].
      apply existsb_exists in He as (G & HG & Hu). apply list_elem_of_In in HG.
      by rewrite (Hout G HG) in Hu.
    + rewrite Hp. specialize (Hout g Hg). unfold Settings.erases in Hout.
      apply orb_false_iff in Hout as [_ Hu]. unfold Settings.isUnder in Hu.
      by apply orb_false_iff in Hu as [_ Hu].
  - intros Ha G HG. unfold Settings.erases, Settings.removedKey, aliasKey,
      Settings.fullKey. cbv zeta. rewrite Ha.
    by rewrite (isEmpty_append _ _ Ha).
Qed.

Lemma saveToSettings_keeps_other_keys_witness :
  Settings.store sampleSaveToSettings !! "Accounts/0/version" = Some (Settings.OfInt 2).
Proof.
  unfold sampleSaveToSettings.
  destruct (saveToSettings_keeps_other_keys sampleModeToString (fun a => a)
              sampleDefinition false false false "/home/user/docs" [] sampleSettings
              "Accounts/0/version") as [Hkept _].
  - intros G HG. unfold folderGroups in HG.
    rewrite !elem_of_cons, elem_of_nil in HG.
    destruct HG as [-> | [-> | [-> | []]]]; reflexivity.
  - rewrite Hkept. reflexivity.
Defined.

(** X27. After [Folder::saveToSettings] the folder is stored in one group
    only: in each of the three groups other than the one that was chosen,
    the key of the alias and every key below it hold nothing. *)
Theorem saveToSettings_empties_other_groups
    (modeToString : Settings.Mode -> string) (escapeAlias : string -> string)
    (folder : Settings.FolderDefinition)
    (pending inPlaceholders backwards : bool) (cleanPath : string)
    (others : list string) (acc : Settings.QSettings) (G k : string)
    (HG : G ∈ folderGroups)
    (Hother : G <> Settings.settingsGroup folder pending inPlaceholders backwards
                     cleanPath others)
    (Hunder : Settings.isUnder (aliasKey acc G (escapeAlias (Settings.alias folder))) k
              = true) :
  Settings.store
    (Settings.saveToSettings modeToString escapeAlias folder pending inPlaceholders
       backwards cleanPath others acc) !! k
  = None.
Proof.
  unfold Settings.saveToSettings. cbv zeta.
  revert Hother.
  set (g := Settings.settingsGroup folder pending inPlaceholders backwards cleanPath
              others).
  intros Hother.
  assert (Hg : g ∈ folderGroups) by apply settingsGroup_in.
  destruct (folderGroups_names g Hg) as [Hgn Hge].
  destruct (folderGroups_names G HG) as [HGn HGe].
  rewrite store_save_other.
  - cbn [Settings.store Settings.beginGroup]. rewrite store_removeFromSettings.
    by rewrite (existsb_folderGroups acc G _ k HG (under_alias_erased _ G k acc HG Hunder)).
  - cbn [Settings.beginGroup Settings.groups]. rewrite Hgn.
    apply isUnder_prefix in Hunder.
    unfold aliasKey, Settings.fullKey in Hunder.
    cbn [Settings.beginGroup Settings.groups] in Hunder. rewrite HGn in Hunder.
    rewrite (groupPrefix_cons G _ HGe) in Hunder.
    apply prefix_true_append in Hunder as [r ->].
    apply (prefix_trans_false (Settings.groupPrefix (g :: Settings.groups acc))).
    + cbn [Settings.groupPrefix]. rewrite Hge.
      destruct (isEmpty (Settings.normalizedKey _)).
      * pose proof (prefix_append (Settings.groupPrefix (Settings.groups acc) ++ g ++ "/")
                      "") as Hp.
        by rewrite append_empty_r in Hp.
      * apply prefix_append.
    + rewrite (groupPrefix_cons g _ Hge), !append_assoc, prefix_append_cancel.
      rewrite <- (append_assoc G "/").
      by apply folderGroups_disjoint.
Qed.

Lemma saveToSettings_empties_other_groups_witness :
  Settings.store sampleSettings !! "Accounts/0/Folders/docs/localPath"
  = Some (Settings.OfString "/home/user/docs")
  /\ Settings.store sampleSaveToSettings !! "Accounts/0/Folders/docs/localPath" = None.
Proof.
  split; [ reflexivity | ].
  unfold sampleSaveToSettings.
  apply (saveToSettings_empties_other_groups sampleModeToString (fun a => a)
           sampleDefinition false false false "/home/user/docs" [] sampleSettings
           "Folders" "Accounts/0/Folders/docs/localPath").
  - apply list_elem_of_here.
  - intros E. vm_compute in E. discriminate.
  - reflexivity.
Defined.

Lemma save_keeps_missing (modeToString : Settings.Mode -> string)
    (folder : Settings.FolderDefinition) (s : Settings.QSettings)
    (key : string) (d : Settings.QVariant) :
  Settings.normalizedKey key ∉ savedKeys -> isEmpty key = false ->
  Settings.value key d s = d ->
  Settings.value key d (Settings.save modeToString folder s) = d.
Proof.
  intros Hkey Hne Hs. unfold savedKeys in Hkey.
  rewrite !not_elem_of_cons in Hkey.
  destruct Hkey as (H1 & H2 & H3 & H4 & H5 & H6 & H7 & H8 & H9 & _).
  assert (Hset : forall key' v s',
            isEmpty key' = false -> Settings.normalizedKey key' = key' ->
            Settings.normalizedKey key <> key' ->
            Settings.value key d (Settings.setValue key' v s') = Settings.value key d s').
  { intros key' v s' He Hn Hd. rewrite (value_setValue key key' d v s' He Hne), Hn.
    rewrite decide_False; [ done | ]. intros E. by apply Hd. }
  unfold Settings.save. cbv zeta.
  destruct (Settings.isNull (Settings.navigationPaneClsid folder)); simpl negb; cbv iota.
  - rewrite (value_remove key "navigationPaneClsid" d _ eq_refl Hne).
    destruct (Settings.isUnder _ _); [ done | ].
    repeat match goal with
      | |- context [Settings.value key d (Settings.setValue ?key' ?v ?s')] =>
          rewrite (Hset key' v s' eq_refl eq_refl) by assumption
      end.
    exact Hs.
  - repeat match goal with
      | |- context [Settings.value key d (Settings.setValue ?key' ?v ?s')] =>
          rewrite (Hset key' v s' eq_refl eq_refl) by assumption
      end.
    exact Hs.
Qed.

(** X28. Below the alias of the folder [Folder::saveToSettings] leaves
    only the keys that [FolderDefinition::save] writes: a key that is,
    once normalized, none of them, such as the [usePlaceholders] of an
    older client, reads as its default afterwards, and the empty key as
    an invalid value. *)
Theorem saveToSettings_only_saved_keys
    (modeToString : Settings.Mode -> string) (escapeAlias : string -> string)
    (folder : Settings.FolderDefinition)
    (pending inPlaceholders backwards : bool) (cleanPath : string)
    (others : list string) (acc : Settings.QSettings)
    (key : string) (d : Settings.QVariant)
    (Hkey : Settings.normalizedKey key ∉ savedKeys) :
  Settings.value key d
    (Settings.saveToSettings modeToString escapeAlias folder pending inPlaceholders
       backwards cleanPath others acc)
  = if isEmpty key then Settings.Invalid else d.
Proof.
  destruct (isEmpty key) eqn:Hne.
  { unfold Settings.value. by rewrite Hne. }
  unfold Settings.saveToSettings. cbv zeta.
  set (g := Settings.settingsGroup folder pending inPlaceholders backwards cleanPath
              others).
  assert (Hg : g ∈ folderGroups) by apply settingsGroup_in.
  destruct (saved_below_removed (escapeAlias (Settings.alias folder)) g acc
              (Settings.store (Settings.removeFromSettings escapeAlias folder acc)) Hg)
    as [Hnonempty Hp].
  apply save_keeps_missing; [ exact Hkey | exact Hne | ].
  unfold Settings.value. rewrite Hne. unfold Settings.fullKey. rewrite Hp.
  cbn [Settings.store Settings.beginGroup].
  rewrite store_removeFromSettings.
  rewrite (existsb_folderGroups acc g _ _ Hg); [ done | ].
  unfold Settings.erases. rewrite Hnonempty. cbn [orb].
  apply isUnder_below.
Qed.

Lemma saveToSettings_only_saved_keys_witness :
  Settings.value "usePlaceholders" Settings.Invalid sampleOlderGroup
  = Settings.OfBool true
  /\ Settings.value "usePlaceholders" Settings.Invalid sampleSaveToSettings
     = Settings.Invalid.
Proof.
  split; [ reflexivity | ].
  unfold sampleSaveToSettings.
  apply (saveToSettings_only_saved_keys sampleModeToString (fun a => a)
           sampleDefinition false false false "/home/user/docs" [] sampleSettings
           "usePlaceholders" Settings.Invalid).
  apply (bool_decide_unpack _). vm_compute. exact I.
Defined.

(** X30. When the escaped alias of the folder names no key (it is empty
    or made of slashes), [Folder::removeFromSettings] removes, in each of
    its three groups, the group itself: every key of the group, also
    those of other folders, holds nothing afterwards. *)
Theorem removeFromSettings_without_alias
    (escapeAlias : string -> string) (folder : Settings.FolderDefinition)
    (acc : Settings.QSettings) (G k : string)
    (Halias : isEmpty (Settings.normalizedKey (escapeAlias (Settings.alias folder)))
              = true)
    (HG : G ∈ folderGroups)
    (Hk : String.prefix
            (Settings.groupPrefix (Settings.groups (Settings.beginGroup G acc))) k
          = true) :
  Settings.store (Settings.removeFromSettings escapeAlias folder acc) !! k = None.
Proof.
  destruct (folderGroups_names G HG) as [Hn He].
  destruct (removedKey_in_group (escapeAlias (Settings.alias folder)) G
              (Settings.groups acc) (Settings.beginGroup G acc)) as [Hne Hp].
  { cbn [Settings.beginGroup Settings.groups]. by rewrite Hn. }
  { exact He. }
  cbn [Settings.groupPrefix] in Hp. rewrite Halias in Hp.
  rewrite store_removeFromSettings.
  rewrite (existsb_folderGroups acc G _ k HG); [ done | ].
  unfold Settings.erases. rewrite Hne. cbn [orb].
  unfold Settings.isUnder. rewrite <- Hp.
  cbn [Settings.groupPrefix] in Hk. by rewrite Hk, orb_true_r.
Qed.

Lemma removeFromSettings_without_alias_witness :
  Settings.store sampleSettings !! "Accounts/0/Folders/docs/localPath"
  = Some (Settings.OfString "/home/user/docs")
  /\ Settings.store (Settings.removeFromSettings (fun a => a) sampleUnnamed sampleSettings)
       !! "Accounts/0/Folders/docs/localPath"
     = None.
Proof.
  split; [ reflexivity | ].
  apply (removeFromSettings_without_alias (fun a => a) sampleUnnamed sampleSettings
           "Folders" "Accounts/0/Folders/docs/localPath").
  - reflexivity.
  - apply list_elem_of_here.
  - reflexivity.
Defined.

(** X29. A path handed to [schedulePathForLocalDiscovery] does not change
    whether the next run reads the whole file system, and when that run
    reads the database and the file system, the path is among those that
    the engine is given to look at. *)
Theorem scheduled_path_is_discovered
    (fillFromEnvironmentVariables verifyChunkSizes : SyncOptions -> SyncOptions)
    (startSyncFullDiscovery startSyncPartialDiscovery
       : LocalDiscoveryTracker -> LocalDiscoveryTracker)
    (cfg : ConfigFile) (interval unspecified now : Z) (relativePath : QString)
    (f : Folder)
    (Hidle : Folder_isSyncRunning f = false) :
  let run := startSync fillFromEnvironmentVariables verifyChunkSizes
               startSyncFullDiscovery startSyncPartialDiscovery
               cfg interval unspecified now true in
  let f' := run (schedulePathForLocalDiscovery relativePath f) in
  (localDiscoveryOptions (_engine f')).1 = (localDiscoveryOptions (_engine (run f))).1
  /\ ((localDiscoveryOptions (_engine f')).1 = DatabaseAndFilesystem ->
      relativePath ∈ (localDiscoveryOptions (_engine f')).2).
Proof.
  intros run f'. subst run f'.
  assert (Hidle' : Folder_isSyncRunning (schedulePathForLocalDiscovery relativePath f)
                   = false) by exact Hidle.
  destruct (startSync_runs fillFromEnvironmentVariables verifyChunkSizes
              startSyncFullDiscovery startSyncPartialDiscovery
              cfg interval unspecified now f Hidle) as [_ ->].
  destruct (startSync_runs fillFromEnvironmentVariables verifyChunkSizes
              startSyncFullDiscovery startSyncPartialDiscovery
              cfg interval unspecified now _ Hidle') as [_ ->].
  rewrite !chooseLocalDiscovery_options.
  change (_folderWatcher (schedulePathForLocalDiscovery relativePath f))
    with (_folderWatcher f).
  change (_timeSinceLastFullLocalDiscovery (schedulePathForLocalDiscovery relativePath f))
    with (_timeSinceLastFullLocalDiscovery f).
  destruct (_ && _ && _); simpl; split; try done.
  intros _. unfold addTouchedPath. simpl. set_solver.
Qed.

Lemma scheduled_path_is_discovered_witness :
  Folder_isSyncRunning sampleFolder = false
  /\ "docs/a.txt"
     ∈ (localDiscoveryOptions
          (_engine (startSync id id id id sampleConfig 3600000 0 2000 true
                      (schedulePathForLocalDiscovery "docs/a.txt" sampleFolder)))).2.
Proof.
  split; [ reflexivity | ].
  apply (scheduled_path_is_discovered id id id id sampleConfig 3600000 0 2000
           "docs/a.txt" sampleFolder); reflexivity.
Defined.
